(** * Decision Makers Finder: a shallow embedding of
    [scripts/decision_makers_finder.py] and the properties of its
    enrichment pipeline.

    The Python program is modelled as it is written:
    - a Python [str] is the list of its code points ([list N]), so that
      [str.strip], [str.split] and the [in] operator are the functions on
      lists given in [PyStr];
    - a value decoded from JSON is a [json] tree; a Python [dict] is the
      association list of its items in insertion order;
    - code that may raise returns a [result], and every [try]/[except] of
      the source is a [match] on it;
    - the two remote providers are an environment giving, for every call
      the program makes, the outcome of that call. *)

From Stdlib Require Import String Ascii.
From Stdlib Require Import List NArith ZArith Bool Arith Lia.
Import ListNotations.

Set Implicit Arguments.

(* ================================================================== *)
(** * Python strings *)
(* ================================================================== *)

Module PyStr.

(** A [str] is its sequence of code points. *)
Definition str := list N.

(** [lit "abc"] is the [str] of an ASCII literal of the source. *)
Definition lit (s : string) : str :=
  List.map N_of_ascii (list_ascii_of_string s).

Definition str_eqb (a b : str) : bool :=
  if list_eq_dec N.eq_dec a b then true else false.

(** [str.isspace] on one code point, as CPython's [Py_UNICODE_ISSPACE]:
    the characters [str.strip()] removes when called without argument. *)
Definition is_space (c : N) : bool :=
  (((9 <=? c) && (c <=? 13)) || ((28 <=? c) && (c <=? 32))
   || (c =? 0x85) || (c =? 0xA0) || (c =? 0x1680)
   || ((0x2000 <=? c) && (c <=? 0x200A))
   || (c =? 0x2028) || (c =? 0x2029) || (c =? 0x202F)
   || (c =? 0x205F) || (c =? 0x3000))%N.

(** [s.lstrip()], [s.rstrip()], [s.strip()]. *)
Fixpoint lstrip (s : str) : str :=
  match s with
  | c :: s' => if is_space c then lstrip s' else s
  | [] => []
  end.

Definition rstrip (s : str) : str := rev (lstrip (rev s)).

Definition strip (s : str) : str := rstrip (lstrip s).

(** [s.startswith(p)]. *)
Fixpoint startswith (p s : str) : bool :=
  match p, s with
  | [], _ => true
  | a :: p', b :: s' => (a =? b)%N && startswith p' s'
  | _ :: _, [] => false
  end.

(** [sub in s] for two strings. *)
Fixpoint contains (sub s : str) : bool :=
  startswith sub s ||
  match s with
  | [] => false
  | _ :: s' => contains sub s'
  end.

(** [s.partition(sep)] when [sep] occurs in [s]: the text before the
    leftmost occurrence and the text after it. *)
Fixpoint cut (sep s : str) : option (str * str) :=
  if startswith sep s then Some ([], skipn (length sep) s)
  else match s with
       | [] => None
       | c :: s' =>
           match cut sep s' with
           | Some (a, b) => Some (c :: a, b)
           | None => None
           end
       end.

(** [s.split(sep)] for a non-empty [sep] (Python raises [ValueError] on an
    empty separator; the program only splits on two non-empty literals).
    The text is cut at the leftmost occurrence again and again; [n] bounds
    the number of cuts, and [length s] cuts always suffice
    ([split_fuel_enough]). *)
Fixpoint split_fuel (n : nat) (sep s : str) : list str :=
  match n with
  | O => [s]
  | S n' =>
      match cut sep s with
      | None => [s]
      | Some (a, b) => a :: split_fuel n' sep b
      end
  end.

Definition split (sep s : str) : list str := split_fuel (length s) sep s.

(** [sep.join(parts)]. *)
Fixpoint join (sep : str) (parts : list str) : str :=
  match parts with
  | [] => []
  | [p] => p
  | p :: ps => p ++ sep ++ join sep ps
  end.

(** A text free of whitespace. *)
Definition spaceless (sub : str) : Prop :=
  forallb (fun c => negb (is_space c)) sub = true.

(** [pre] and [post] surround the leftmost occurrence of [sep] in [s]. *)
Definition leftmost (sep s pre post : str) : Prop :=
  s = pre ++ sep ++ post /\
  forall pre' post', s = pre' ++ sep ++ post' -> length pre <= length pre'.

(** [x] is [s] up to its leftmost [sep], all of [s] when it has none:
    what [s.split(sep)[0]] is meant to be. *)
Definition upto (sep s x : str) : Prop :=
  (exists post, leftmost sep s x post) \/ (contains sep s = false /\ x = s).

End PyStr.
Export PyStr.

(* ================================================================== *)
(** * Values decoded from JSON, and the Python operations on them *)
(* ================================================================== *)

Module Json.

(** What [json.loads] and [response.json()] build: [None], [bool], [int],
    [float] (kept as the text of its literal: the program never computes
    with one), [str], [list] and [dict].  A [dict] keeps its items in
    insertion order. *)
Unset Elimination Schemes.
Inductive json : Type :=
| JNull
| JBool (b : bool)
| JInt (z : Z)
| JFloat (text : str)
| JStr (s : str)
| JArr (elems : list json)
| JObj (items : list (str * json)).
Set Elimination Schemes.

Definition dict := list (str * json).

(** The value stored under [k], if any. *)
Fixpoint dict_get (k : str) (d : dict) : option json :=
  match d with
  | [] => None
  | (k', v) :: d' => if str_eqb k k' then Some v else dict_get k d'
  end.

(** [d[k] = v]: the value of an existing key is replaced where it stands,
    a new key goes to the end. *)
Fixpoint dict_set (k : str) (v : json) (d : dict) : dict :=
  match d with
  | [] => [(k, v)]
  | (k', v') :: d' =>
      if str_eqb k k' then (k', v) :: d' else (k', v') :: dict_set k v d'
  end.

Definition is_some {A} (o : option A) : bool :=
  match o with Some _ => true | None => false end.

End Json.
Export Json.

(** The exceptions the modelled code can meet.  [ClientError] stands for
    whatever the HTTP client raises (connection, timeout, payload and
    content-type errors), [OSError] for what the file system raises when
    the output cannot be written. *)
Inductive exn : Type :=
| TypeError | AttributeError | KeyError | IndexError | ValueError
| JSONDecodeError | RecursionError | ClientError | OSError.

(** A computation that returns a value or raises. *)
Inductive result (A : Type) : Type :=
| Ok (a : A)
| Raise (e : exn).
Arguments Raise {A} e.

Definition bind {A B} (r : result A) (k : A -> result B) : result B :=
  match r with
  | Ok a => k a
  | Raise e => Raise e
  end.

Notation "x <- e ;; k" := (bind e (fun x => k))
  (at level 61, e at next level, right associativity).

(** [await asyncio.gather] over a list of tasks, seen from the awaiting coroutine: the
    results in submission order whatever the completion order, or the
    exception of a task that raised.  When several tasks raise, Python
    delivers the one that raised first in time; the model delivers the
    first in submission order. *)
Fixpoint gather {A} (tasks : list (result A)) : result (list A) :=
  match tasks with
  | [] => Ok []
  | t :: ts => a <- t ;; r <- gather ts ;; Ok (a :: r)
  end.

Module PyOps.

(** [obj.get(key, default)]: only a [dict] has the method. *)
Definition py_get (obj : json) (key : str) (default : json) : result json :=
  match obj with
  | JObj d => Ok (match dict_get key d with Some v => v | None => default end)
  | _ => Raise AttributeError
  end.

(** [key in obj] for a string [key]: a key of a [dict], an element of a
    [list], a substring of a [str]; the other values are not containers. *)
Definition py_in (key : str) (obj : json) : result bool :=
  match obj with
  | JObj d => Ok (is_some (dict_get key d))
  | JArr l =>
      Ok (existsb (fun x => match x with JStr s => str_eqb key s | _ => false end) l)
  | JStr s => Ok (contains key s)
  | _ => Raise TypeError
  end.

(** [obj[key]] for a string [key]. *)
Definition py_getitem (obj : json) (key : str) : result json :=
  match obj with
  | JObj d =>
      match dict_get key d with Some v => Ok v | None => Raise KeyError end
  | _ => Raise TypeError
  end.

(** [obj[0]]. *)
Definition py_first (obj : json) : result json :=
  match obj with
  | JArr (x :: _) => Ok x
  | JArr [] => Raise IndexError
  | JStr (c :: _) => Ok (JStr [c])
  | JStr [] => Raise IndexError
  | JObj _ => Raise KeyError
  | _ => Raise TypeError
  end.

(** [obj[key] = v].  The contacts are the fresh dicts [json.loads] built,
    no two of them the same object, so the assignment is modelled by the
    updated value. *)
Definition py_setitem (obj : json) (key : str) (v : json) : result json :=
  match obj with
  | JObj d => Ok (JObj (dict_set key v d))
  | _ => Raise TypeError
  end.

(** The items a [for] loop sees in [obj[:n]]: elements of a list,
    one-character strings of a string.  Slicing a dict raises ([TypeError]
    before Python 3.12, [KeyError] from then on). *)
Definition py_slice_items (obj : json) (n : nat) : result (list json) :=
  match obj with
  | JArr l => Ok (firstn n l)
  | JStr s => Ok (List.map (fun c => JStr [c]) (firstn n s))
  | _ => Raise TypeError
  end.

(** [obj.split(sep)]: a [str] method. *)
Definition py_split (obj : json) (sep : str) : result (list str) :=
  match obj with
  | JStr s => Ok (split sep s)
  | _ => Raise AttributeError
  end.

(** [parts[i]] on a list of strings. *)
Definition py_nth (parts : list str) (i : nat) : result str :=
  match nth_error parts i with
  | Some p => Ok p
  | None => Raise IndexError
  end.

End PyOps.
Export PyOps.

(** The content of a CSV file: its header and, row by row, the cells
    under that header (no cell where the row has no value). *)
Definition csv : Type := (list str * list (list (option json)))%type.

(** What the program takes from the Python runtime and its libraries:
    [json.loads] on a [str] (it returns the decoded value or raises,
    [JSONDecodeError] on a malformed document), the text an f-string
    gives a value that is not a [str] ([repr]), and the writing of the
    output file by [DataFrame.to_csv], which returns or raises (a path
    that cannot be written, a character that cannot be encoded). *)
Class Runtime : Type := {
  json_loads : str -> result json;
  repr : json -> str;
  to_csv : csv -> result unit
}.

(** One HTTP exchange, as the code observes it: [session.post] raises, or
    a response arrives with its [status] and with what
    [await response.json()] gives (a decoded body, or an exception). *)
Inductive http_outcome : Type :=
| Failed
| Responded (status : Z) (body : result json).

(* ================================================================== *)
(** * The program: [class DecisionMakersFinder] *)
(* ================================================================== *)

(** The newline character, and the literals of the source that hold one. *)
Definition nl : str := [10%N].

(** A row of the input table: the two columns [read_input_file] checks
    for, ["Domain"] and ["Company Name"]. *)
Record Company : Type := {
  Domain : str;
  Company_Name : str
}.

(** The part of [str.format] the five templates use: literal text, the
    doubled braces, and [{name}] fields filled from keyword arguments. *)
Inductive fmt_state : Type :=
| Text                     (* in literal text *)
| Opened                   (* after a left brace *)
| InField (name : str)     (* inside a field, its name so far *)
| Closed.                  (* after a right brace in literal text *)

Definition lbrace : N := 123%N.
Definition rbrace : N := 125%N.

Fixpoint format_from (st : fmt_state) (template : str) (kwargs : list (str * str))
  : result str :=
  match template with
  | [] =>
      match st with
      | Text => Ok []
      | _ => Raise ValueError
      end
  | c :: t =>
      match st with
      | Text =>
          if (c =? lbrace)%N then format_from Opened t kwargs
          else if (c =? rbrace)%N then format_from Closed t kwargs
          else r <- format_from Text t kwargs ;; Ok (c :: r)
      | Opened =>
          if (c =? lbrace)%N then r <- format_from Text t kwargs ;; Ok (lbrace :: r)
          else if (c =? rbrace)%N then Raise IndexError
          else format_from (InField [c]) t kwargs
      | InField name =>
          if (c =? rbrace)%N then
            match find (fun kv => str_eqb name (fst kv)) kwargs with
            | Some kv => r <- format_from Text t kwargs ;; Ok (snd kv ++ r)
            | None => Raise KeyError
            end
          else format_from (InField (name ++ [c])) t kwargs
      | Closed =>
          if (c =? rbrace)%N then r <- format_from Text t kwargs ;; Ok (rbrace :: r)
          else Raise ValueError
      end
  end.

(** [template.format] with keyword arguments [kwargs]. *)
Definition str_format (template : str) (kwargs : list (str * str)) : result str :=
  format_from Text template kwargs.

(** [self.batch_size]. *)
Definition batch_size : nat := 14.

(** [self.search_queries]. *)
Definition search_queries : list str :=
  [ lit "{domain} {company_name} CEO -zoominfo -dnb";
    lit "{domain} {company_name} Founder owner -zoominfo -dnb";
    lit "{domain} {company_name} president chairman -zoominfo -dnb";
    lit "{domain} {company_name} partner -zoominfo -dnb";
    lit "{domain} {company_name} contact email" ].

(** The value [search_serper] returns when the call failed. *)
Definition empty_search (query : str) : json :=
  JObj [ (lit "organic", JArr []);
         (lit "searchParameters", JObj [ (lit "q", JStr query) ]) ].

(** The [try] block of [search_serper]. *)
Definition search_serper_try (o : http_outcome) (query : str) : result json :=
  match o with
  | Failed => Raise ClientError
  | Responded status body =>
      if (status =? 200)%Z then body else Ok (empty_search query)
  end.

(** [search_serper]: the [try] block under its [except Exception]. *)
Definition search_serper (o : http_outcome) (query : str) : json :=
  match search_serper_try o query with
  | Ok r => r
  | Raise _ => empty_search query
  end.

(** The rejected path segments of [_validate_linkedin_url]. *)
Definition disallowed : list str :=
  [ lit "linkedin.com/company/"; lit "linkedin.com/posts/";
    lit "linkedin.com/pub/dir/"; lit "linkedin.com/feed/";
    lit "linkedin.com/jobs/"; lit "linkedin.com/school/" ].

(** [_validate_linkedin_url].  The first test, [not url or not
    isinstance(url, str)], holds of every value that is not a [str]
    (whatever its truth value) and of the empty string. *)
Definition _validate_linkedin_url (url : json) : str :=
  match url with
  | JStr [] => []
  | JStr s =>
      let url := strip s in
      if negb (contains (lit "linkedin.com/in/") url) then []
      else if existsb (fun d => contains d url) disallowed then []
      else url
  | _ => []
  end.

(** The body of the loop that closes [process_company], on one contact. *)
Definition normalize_contact (domain company_name : str) (contact : json)
  : result json :=
  c1 <- py_setitem contact (lit "domain") (JStr domain) ;;
  c2 <- py_setitem c1 (lit "company_name") (JStr company_name) ;;
  u <- py_get c2 (lit "linkedin_url") (JStr []) ;;
  c3 <- py_setitem c2 (lit "linkedin_url") (JStr (_validate_linkedin_url u)) ;;
  has <- py_in (lit "generic_email") c3 ;;
  if negb has then py_setitem c3 (lit "generic_email") (JStr []) else Ok c3.

(** [for contact in all_contacts: ...]. *)
Fixpoint normalize_contacts (domain company_name : str) (all_contacts : list json)
  : result (list json) :=
  match all_contacts with
  | [] => Ok []
  | contact :: rest =>
      c <- normalize_contact domain company_name contact ;;
      r <- normalize_contacts domain company_name rest ;;
      Ok (c :: r)
  end.

Definition fence_json : str := lit "```json".
Definition fence : str := lit "```".
Definition result_separator : str := nl ++ lit "---" ++ nl.
Definition section_separator : str := nl ++ nl ++ nl.
Definition header : str := lit "**Search Query:** ".

Section Finder.

Context {RT : Runtime}.

(** The text an f-string puts for [{value}]. *)
Definition to_text (v : json) : str :=
  match v with
  | JStr s => s
  | _ => repr v
  end.

(** ['title' in item and 'link' in item and 'snippet' in item]. *)
Definition has_all_fields (item : json) : result bool :=
  a <- py_in (lit "title") item ;;
  if a then
    b <- py_in (lit "link") item ;;
    if b then py_in (lit "snippet") item else Ok false
  else Ok false.

(** The f-string of one hit. *)
Definition render_hit (item : json) : result str :=
  t <- py_getitem item (lit "title") ;;
  l <- py_getitem item (lit "link") ;;
  s <- py_getitem item (lit "snippet") ;;
  Ok (lit "- " ++ to_text t ++ nl ++ lit "  " ++ to_text l
        ++ nl ++ lit "  " ++ to_text s).

(** The inner loop of [format_search_results], appending to
    [formatted_results]. *)
Fixpoint format_items (items : list json) (formatted_results : list str)
  : result (list str) :=
  match items with
  | [] => Ok formatted_results
  | item :: rest =>
      complete <- has_all_fields item ;;
      if complete then
        h <- render_hit item ;;
        format_items rest (formatted_results ++ [h])
      else format_items rest formatted_results
  end.

(** The body of the outer loop: the section of one search result. *)
Definition format_section (res : json) : result str :=
  params <- py_get res (lit "searchParameters") (JObj []) ;;
  query <- py_get params (lit "q") (JStr (lit "(No query found)")) ;;
  organic_results <- py_get res (lit "organic") (JArr []) ;;
  items <- py_slice_items organic_results 4 ;;
  formatted_results <- format_items items [] ;;
  Ok (header ++ to_text query ++ nl ++ nl
        ++ join result_separator formatted_results).

(** The outer loop, appending to [summary_sections]. *)
Fixpoint format_sections (results : list json) (summary_sections : list str)
  : result (list str) :=
  match results with
  | [] => Ok summary_sections
  | r :: rest =>
      section <- format_section r ;;
      format_sections rest (summary_sections ++ [section])
  end.

(** [format_search_results]. *)
Definition format_search_results (results : list json) : result str :=
  summary_sections <- format_sections results [] ;;
  Ok (join section_separator summary_sections).

(** [json.loads(content)]: a [TypeError] on what is not a string. *)
Definition loads (content : json) : result json :=
  match content with
  | JStr s => json_loads s
  | _ => Raise TypeError
  end.

(** The removal of the markdown fence: lines 304 to 307. *)
Definition strip_fence (content : json) : result json :=
  tagged <- py_in fence_json content ;;
  if tagged then
    parts <- py_split content fence_json ;;
    after <- py_nth parts 1 ;;
    inner <- py_nth (split fence after) 0 ;;
    Ok (JStr (strip inner))
  else
    fenced <- py_in fence content ;;
    if fenced then
      parts <- py_split content fence ;;
      after <- py_nth parts 1 ;;
      inner <- py_nth (split fence after) 0 ;;
      Ok (JStr (strip inner))
    else Ok content.

(** The inner [try] block: strip the fence, decode, keep a list. *)
Definition parse_contacts_try (content : json) : result (list json) :=
  payload <- strip_fence content ;;
  contacts <- loads payload ;;
  Ok (match contacts with JArr l => l | _ => [] end).

(** The inner [try] under its [except json.JSONDecodeError]. *)
Definition parse_contacts (content : json) : result (list json) :=
  match parse_contacts_try content with
  | Raise JSONDecodeError => Ok []
  | r => r
  end.

(** The outer [try] block of [extract_all_contacts]. *)
Definition extract_all_contacts_try (o : http_outcome) : result (list json) :=
  match o with
  | Failed => Raise ClientError
  | Responded status body =>
      if (status =? 200)%Z then
        data <- body ;;
        choices <- py_getitem data (lit "choices") ;;
        choice <- py_first choices ;;
        message <- py_getitem choice (lit "message") ;;
        content <- py_getitem message (lit "content") ;;
        parse_contacts content
      else Ok []
  end.

(** [extract_all_contacts]: the outer [try] under its
    [except Exception]. *)
Definition extract_all_contacts (o : http_outcome) : list json :=
  match extract_all_contacts_try o with
  | Ok contacts => contacts
  | Raise _ => []
  end.

(** What the two providers do for one company: the outcome of the search
    call for the [i]-th query, and the outcome of the extraction call for
    the summary sent. *)
Record company_env : Type := {
  serper : nat -> str -> http_outcome;
  openrouter : str -> http_outcome
}.

(** [[q.format(domain=domain, company_name=company_name) for q in
    templates]]. *)
Fixpoint format_all (templates : list str) (domain company_name : str)
  : result (list str) :=
  match templates with
  | [] => Ok []
  | q :: rest =>
      query <- str_format q [ (lit "domain", domain);
                              (lit "company_name", company_name) ] ;;
      queries <- format_all rest domain company_name ;;
      Ok (query :: queries)
  end.

(** The queries of a company: the comprehension over
    [self.search_queries]. *)
Definition company_queries (domain company_name : str) : result (list str) :=
  format_all search_queries domain company_name.

(** The five searches of a company, gathered. [search_serper] does not
    raise, so neither does the gathering. *)
Fixpoint search_all (env : company_env) (i : nat) (queries : list str) : list json :=
  match queries with
  | [] => []
  | q :: qs => search_serper (serper env i q) q :: search_all env (S i) qs
  end.

(** [process_company]. *)
Definition process_company (env : company_env) (domain company_name : str)
  : result (list json) :=
  queries <- company_queries domain company_name ;;
  let results := search_all env 0 queries in
  summary <- format_search_results results ;;
  let all_contacts := extract_all_contacts (openrouter env summary) in
  normalize_contacts domain company_name all_contacts.

(** The tasks of a batch, one per company, the [j]-th in the environment
    [envs j]. *)
Fixpoint batch_tasks (envs : nat -> company_env) (j : nat) (companies : list Company)
  : list (result (list json)) :=
  match companies with
  | [] => []
  | company :: rest =>
      process_company (envs j) (Domain company) (Company_Name company)
        :: batch_tasks envs (S j) rest
  end.

(** The flattening loop of [process_batch]. *)
Fixpoint flatten (results : list (list json)) (all_decision_makers : list json)
  : list json :=
  match results with
  | [] => all_decision_makers
  | decision_makers :: rest => flatten rest (all_decision_makers ++ decision_makers)
  end.

(** [process_batch]. *)
Definition process_batch (envs : nat -> company_env) (companies : list Company)
  : result (list json) :=
  results <- gather (batch_tasks envs 0 companies) ;;
  Ok (flatten results []).

End Finder.

(** The indices [range(start, stop, step)] yields for a positive [step]:
    their number is computed first, as CPython does. *)
Definition py_range (start stop step : nat) : list nat :=
  List.map (fun k => start + k * step)
           (seq 0 ((stop - start + step - 1) / step)).

(** [rows[i:j]]. *)
Definition slice {A} (rows : list A) (i j : nat) : list A :=
  firstn (j - i) (skipn i rows).

(** The two progress lines [run] prints around each batch. *)
Inductive event : Type :=
| Processing_batch (batch_num total_batches : nat)
| Batch_complete (batch_num found : nat).

(** The preferred order of the columns of the output. *)
Definition column_order : list str :=
  [ lit "first_name"; lit "last_name"; lit "title"; lit "linkedin_url";
    lit "generic_email"; lit "source_url"; lit "company_phone";
    lit "domain"; lit "company_name" ].

(** [col in results_df.columns] for the DataFrame made of the contacts:
    its columns are the keys the contacts have. *)
Definition in_columns (col : str) (all_results : list json) : bool :=
  existsb (fun contact =>
             match contact with
             | JObj d => is_some (dict_get col d)
             | _ => false
             end) all_results.

(** [existing_columns]. *)
Definition existing_columns (all_results : list json) : list str :=
  filter (fun col => in_columns col all_results) column_order.

(** What [run] writes: nothing when there is no contact, else the header
    of the CSV file and, for each contact, its cells under that header
    (no cell where the contact lacks the key). *)
Definition saved_csv (all_results : list json) : option csv :=
  match all_results with
  | [] => None
  | _ :: _ =>
      let header := existing_columns all_results in
      Some (header,
            List.map (fun contact =>
                        List.map (fun col =>
                                    match contact with
                                    | JObj d => dict_get col d
                                    | _ => None
                                    end) header)
                     all_results)
  end.

(** The lines the loop prints for a batch of a table of [n] rows that
    starts at row [i] and completes with [found] contacts. *)
Definition batch_lines (bs n i found : nat) : list event :=
  [ Processing_batch (i / bs + 1) ((n + bs - 1) / bs);
    Batch_complete (i / bs + 1) found ].

Section Run.

Context {RT : Runtime}.

(** The batch loop of [run] for a batch size [bs], over the start indices
    still to visit: the results accumulated so far and the lines printed
    so far go in, and come out when the loop ends or a batch raises.  The
    company in row [r] of the table meets the environment [env r]. *)
Fixpoint run_batches (bs : nat) (env : nat -> company_env) (df : list Company)
    (starts : list nat) (all_results : list json) (log : list event)
  : list event * result (list json) :=
  match starts with
  | [] => (log, Ok all_results)
  | i :: rest =>
      let batch := slice df i (i + bs) in
      let batch_num := i / bs + 1 in
      let total_batches := (length df + bs - 1) / bs in
      let log := log ++ [Processing_batch batch_num total_batches] in
      match process_batch (fun j => env (i + j)) batch with
      | Ok results =>
          run_batches bs env df rest (all_results ++ results)
            (log ++ [Batch_complete batch_num (length results)])
      | Raise e => (log, Raise e)
      end
  end.

(** [run], from the table read to the contacts returned, with the lines
    printed by the batch loop: the loop over the batches, then the
    writing of the contacts when there are any, then the return.  A batch
    that raises or a writing that raises ends the run with the
    exception. *)
Definition run (env : nat -> company_env) (df : list Company)
  : list event * result (list json) :=
  let (log, loop) :=
    run_batches batch_size env df (py_range 0 (length df) batch_size) [] [] in
  (log,
   all_results <- loop ;;
   match saved_csv all_results with
   | None => Ok all_results
   | Some results_csv => written <- to_csv results_csv ;; Ok all_results
   end).

(** The batches [run] hands to [process_batch], in the order of the loop. *)
Definition batches (bs : nat) (df : list Company) : list (list Company) :=
  List.map (fun i => slice df i (i + bs)) (py_range 0 (length df) bs).

End Run.

(* ================================================================== *)
(** * A reference JSON decoder *)
(* ================================================================== *)

(** The theorems below hold for every [Runtime].  To run the program on
    concrete replies, [RefJson.loads] decodes JSON as Python's
    [json.loads] does in its default configuration: the four whitespace
    characters, the literals (with [NaN] and the infinities), numbers,
    strings with their escapes, arrays, objects (a repeated key keeps its
    first place and its last value), nothing but whitespace after the
    document.  It has no recursion limit. *)
Module RefJson.

Definition is_ws (c : N) : bool :=
  ((c =? 32) || (c =? 9) || (c =? 10) || (c =? 13))%N.

Fixpoint skip_ws (s : str) : str :=
  match s with
  | c :: s' => if is_ws c then skip_ws s' else s
  | [] => []
  end.

Definition is_digit (c : N) : bool := ((48 <=? c) && (c <=? 57))%N.

Definition hex_value (c : N) : option N :=
  if ((48 <=? c) && (c <=? 57))%N then Some (c - 48)%N
  else if ((65 <=? c) && (c <=? 70))%N then Some (c - 55)%N
  else if ((97 <=? c) && (c <=? 102))%N then Some (c - 87)%N
  else None.

Definition hex4 (a b c d : N) : option N :=
  match hex_value a, hex_value b, hex_value c, hex_value d with
  | Some x, Some y, Some z, Some w => Some (((x * 16 + y) * 16 + z) * 16 + w)%N
  | _, _, _, _ => None
  end.

(** The character a one-letter escape stands for. *)
Definition simple_escape (c : N) : option N :=
  if (c =? 34)%N then Some 34%N          (* quote *)
  else if (c =? 92)%N then Some 92%N     (* backslash *)
  else if (c =? 47)%N then Some 47%N     (* slash *)
  else if (c =? 98)%N then Some 8%N      (* b *)
  else if (c =? 102)%N then Some 12%N    (* f *)
  else if (c =? 110)%N then Some 10%N    (* n *)
  else if (c =? 114)%N then Some 13%N    (* r *)
  else if (c =? 116)%N then Some 9%N     (* t *)
  else None.

(** The rest of a string literal after its opening quote: the decoded
    text, reversed in [acc], and what follows the closing quote. *)
Fixpoint scan_string (s : str) (acc : str) : result (str * str) :=
  match s with
  | [] => Raise JSONDecodeError
  | c :: r =>
      if (c =? 34)%N then Ok (rev acc, r)
      else if (c <? 32)%N then Raise JSONDecodeError
      else if (c =? 92)%N then
        match r with
        | [] => Raise JSONDecodeError
        | e :: r1 =>
            if (e =? 117)%N then
              match r1 with
              | h1 :: h2 :: h3 :: h4 :: r2 =>
                  match hex4 h1 h2 h3 h4 with
                  | None => Raise JSONDecodeError
                  | Some u =>
                      match r2 with
                      | b :: v :: l1 :: l2 :: l3 :: l4 :: r3 =>
                          match hex4 l1 l2 l3 l4 with
                          | Some u2 =>
                              if ((0xD800 <=? u) && (u <=? 0xDBFF) && (b =? 92)
                                  && (v =? 117) && (0xDC00 <=? u2) && (u2 <=? 0xDFFF))%N
                              then scan_string r3
                                     ((0x10000 + ((u - 0xD800) * 1024 + (u2 - 0xDC00)))%N :: acc)
                              else scan_string r2 (u :: acc)
                          | None => scan_string r2 (u :: acc)
                          end
                      | _ => scan_string r2 (u :: acc)
                      end
                  end
              | _ => Raise JSONDecodeError
              end
            else
              match simple_escape e with
              | Some x => scan_string r1 (x :: acc)
              | None => Raise JSONDecodeError
              end
        end
      else scan_string r (c :: acc)
  end.

(** The longest run of digits at the head of [s], and the rest. *)
Fixpoint span_digits (s : str) : str * str :=
  match s with
  | c :: s' =>
      if is_digit c then let (d, r) := span_digits s' in (c :: d, r) else ([], s)
  | [] => ([], [])
  end.

Definition digits_value (d : str) : Z :=
  fold_left (fun acc c => (acc * 10 + Z.of_N (c - 48))%Z) d 0%Z.

(** A number at the head of [s], after an optional sign already read:
    integer part (a lone zero, or digits not starting with zero), then an
    optional fraction and an optional exponent, each taken only when
    complete. *)
Definition scan_number (neg : bool) (s : str) : result (json * str) :=
  let sign := if neg then [45%N] else [] in
  let (ip, r) :=
    match s with
    | c :: s' => if (c =? 48)%N then ([c], s') else span_digits s
    | [] => ([], [])
    end in
  match ip with
  | [] => Raise JSONDecodeError
  | _ =>
      let (frac, r1) :=
        match r with
        | c :: r' =>
            if (c =? 46)%N then
              match span_digits r' with
              | ([], _) => ([], r)
              | (d, r'') => (c :: d, r'')
              end
            else ([], r)
        | [] => ([], r)
        end in
      let (ex, r2) :=
        match r1 with
        | c :: r' =>
            if ((c =? 101) || (c =? 69))%N then
              match r' with
              | sg :: r'' =>
                  if ((sg =? 43) || (sg =? 45))%N then
                    match span_digits r'' with
                    | ([], _) => ([], r1)
                    | (d, r3) => (c :: sg :: d, r3)
                    end
                  else
                    match span_digits r' with
                    | ([], _) => ([], r1)
                    | (d, r3) => (c :: d, r3)
                    end
              | [] => ([], r1)
              end
            else ([], r1)
        | [] => ([], r1)
        end in
      match frac, ex with
      | [], [] =>
          Ok (JInt (if neg then (- digits_value ip)%Z else digits_value ip), r2)
      | _, _ => Ok (JFloat (sign ++ ip ++ frac ++ ex), r2)
      end
  end.

(** [s] without the prefix [p], when it starts with it. *)
Definition after (p s : str) : option str :=
  if startswith p s then Some (skipn (length p) s) else None.

(** One value at the head of [s] (no leading whitespace), and the rest.
    [fuel] bounds the number of values and members entered. *)
Fixpoint scan_value (fuel : nat) (s : str) : result (json * str) :=
  match fuel with
  | O => Raise RecursionError
  | S f =>
      match s with
      | [] => Raise JSONDecodeError
      | c :: r =>
          if (c =? 34)%N then
            p <- scan_string r [] ;; Ok (JStr (fst p), snd p)
          else if (c =? 91)%N then
            match skip_ws r with
            | c' :: r' =>
                if (c' =? 93)%N then Ok (JArr [], r')
                else p <- scan_elems f (c' :: r') ;; Ok (JArr (fst p), snd p)
            | [] => Raise JSONDecodeError
            end
          else if (c =? 123)%N then
            match skip_ws r with
            | c' :: r' =>
                if (c' =? 125)%N then Ok (JObj [], r')
                else p <- scan_members f (c' :: r') [] ;; Ok (JObj (fst p), snd p)
            | [] => Raise JSONDecodeError
            end
          else
            match after (lit "null") s, after (lit "true") s, after (lit "false") s with
            | Some r', _, _ => Ok (JNull, r')
            | _, Some r', _ => Ok (JBool true, r')
            | _, _, Some r' => Ok (JBool false, r')
            | _, _, _ =>
                match after (lit "NaN") s, after (lit "Infinity") s,
                      after (lit "-Infinity") s with
                | Some r', _, _ => Ok (JFloat (lit "NaN"), r')
                | _, Some r', _ => Ok (JFloat (lit "Infinity"), r')
                | _, _, Some r' => Ok (JFloat (lit "-Infinity"), r')
                | _, _, _ =>
                    if (c =? 45)%N then scan_number true r else scan_number false s
                end
            end
      end
  end

(** The elements of an array after its bracket, up to the closing one. *)
with scan_elems (fuel : nat) (s : str) : result (list json * str) :=
  match fuel with
  | O => Raise RecursionError
  | S f =>
      p <- scan_value f s ;;
      match skip_ws (snd p) with
      | c :: r =>
          if (c =? 44)%N then
            q <- scan_elems f (skip_ws r) ;; Ok (fst p :: fst q, snd q)
          else if (c =? 93)%N then Ok ([fst p], r)
          else Raise JSONDecodeError
      | [] => Raise JSONDecodeError
      end
  end

(** The members of an object after its brace, added to [acc]. *)
with scan_members (fuel : nat) (s : str) (acc : dict) : result (dict * str) :=
  match fuel with
  | O => Raise RecursionError
  | S f =>
      match s with
      | c :: r =>
          if (c =? 34)%N then
            k <- scan_string r [] ;;
            match skip_ws (snd k) with
            | c1 :: r1 =>
                if (c1 =? 58)%N then
                  p <- scan_value f (skip_ws r1) ;;
                  let acc := dict_set (fst k) (fst p) acc in
                  match skip_ws (snd p) with
                  | c2 :: r2 =>
                      if (c2 =? 44)%N then scan_members f (skip_ws r2) acc
                      else if (c2 =? 125)%N then Ok (acc, r2)
                      else Raise JSONDecodeError
                  | [] => Raise JSONDecodeError
                  end
                else Raise JSONDecodeError
            | [] => Raise JSONDecodeError
            end
          else Raise JSONDecodeError
      | [] => Raise JSONDecodeError
      end
  end.

(** [json.loads(s)]: no byte-order mark, one value between optional
    whitespace, nothing after it. *)
Definition loads (s : str) : result json :=
  match s with
  | 0xFEFF%N :: _ => Raise JSONDecodeError
  | _ =>
      p <- scan_value (S (length s)) (skip_ws s) ;;
      match skip_ws (snd p) with
      | [] => Ok (fst p)
      | _ :: _ => Raise JSONDecodeError
      end
  end.

(** The text Python gives a value that is not a string in an f-string,
    for the values that have one fixed spelling ([None], the booleans,
    integers, the empty containers); the others are not rendered by any
    run below and stand as a question mark. *)
Definition digit_char (d : Z) : N := (48 + Z.to_N d)%N.

Fixpoint decimal (fuel : nat) (z : Z) (acc : str) : str :=
  match fuel with
  | O => acc
  | S f =>
      if (z <? 10)%Z then digit_char z :: acc
      else decimal f (z / 10)%Z (digit_char (z mod 10)%Z :: acc)
  end.

Definition repr (v : json) : str :=
  match v with
  | JNull => lit "None"
  | JBool true => lit "True"
  | JBool false => lit "False"
  | JInt z =>
      if (z <? 0)%Z then 45%N :: decimal (S (Z.to_nat (- z))) (- z)%Z []
      else decimal (S (Z.to_nat z)) z []
  | JArr [] => lit "[]"
  | JObj [] => lit "{}"
  | _ => lit "?"
  end.

End RefJson.

(** The reference decoder, and an output file that can be written. *)
Definition reference_runtime : Runtime :=
  {| json_loads := RefJson.loads;
     repr := RefJson.repr;
     to_csv := fun _ => Ok tt |}.

(* ================================================================== *)
(** * The data model of the specification, read off decoded values *)
(* ================================================================== *)

(** The specification speaks of a SearchResult, a query and a sequence of
    hits, and of a FormattedSummary.  These definitions follow its words;
    the theorems compare them with the code above. *)
Section SearchResultView.

Context {RT : Runtime}.

Definition is_dict (v : json) : bool :=
  match v with JObj _ => true | _ => false end.

(** A SearchResult: an object whose search parameters, when present, are
    an object, and whose hits, when present, are an array of objects. *)
Definition is_search_result (r : json) : bool :=
  match r with
  | JObj d =>
      match dict_get (lit "searchParameters") d with
      | None | Some (JObj _) => true
      | Some _ => false
      end &&
      match dict_get (lit "organic") d with
      | None => true
      | Some (JArr hits) => forallb is_dict hits
      | Some _ => false
      end
  | _ => false
  end.

(** The query of a SearchResult. *)
Definition query_of (r : json) : json :=
  match r with
  | JObj d =>
      match dict_get (lit "searchParameters") d with
      | Some (JObj params) =>
          match dict_get (lit "q") params with
          | Some q => q
          | None => JStr (lit "(No query found)")
          end
      | _ => JStr (lit "(No query found)")
      end
  | _ => JStr (lit "(No query found)")
  end.

(** The hits of a SearchResult. *)
Definition hits_of (r : json) : list json :=
  match r with
  | JObj d =>
      match dict_get (lit "organic") d with
      | Some (JArr hits) => hits
      | _ => []
      end
  | _ => []
  end.

(** A hit that has a title, a link and a snippet. *)
Definition complete_hit (item : json) : bool :=
  match item with
  | JObj d =>
      is_some (dict_get (lit "title") d) && is_some (dict_get (lit "link") d)
      && is_some (dict_get (lit "snippet") d)
  | _ => false
  end.

Definition field_text (name : string) (item : json) : str :=
  match item with
  | JObj d =>
      match dict_get (lit name) d with
      | Some v => to_text v
      | None => []
      end
  | _ => []
  end.

(** A hit rendered as title, link and snippet. *)
Definition hit_text (item : json) : str :=
  lit "- " ++ field_text "title" item ++ nl ++ lit "  " ++ field_text "link" item
    ++ nl ++ lit "  " ++ field_text "snippet" item.

(** The hits a block shows: the complete ones among the first four. *)
Definition shown_hits (r : json) : list json :=
  filter complete_hit (firstn 4 (hits_of r)).

(** The block of a SearchResult: the header line with the query, a blank
    line, the shown hits joined by the separator. *)
Definition block_text (r : json) : str :=
  header ++ to_text (query_of r) ++ nl ++ nl
    ++ join result_separator (List.map hit_text (shown_hits r)).

End SearchResultView.

(** A search call that did not succeed: a transport error, a status
    other than 200, or a body that could not be read. *)
Definition call_failed (o : http_outcome) : Prop :=
  match o with
  | Failed => True
  | Responded status body => status <> 200%Z \/ exists e, body = Raise e
  end.

(* ================================================================== *)
(** * Provider behaviours used in the examples *)
(* ================================================================== *)

(** The body of a chat completion whose message text is [content]: the
    shape [extract_all_contacts] reads, [choices[0].message.content]. *)
Definition completion (content : str) : json :=
  JObj [ (lit "choices",
          JArr [ JObj [ (lit "message",
                         JObj [ (lit "role", JStr (lit "assistant"));
                                (lit "content", JStr content) ]) ] ]) ].

(** The language model answered with status 200 and the text [content]. *)
Definition llm_reply (content : str) : http_outcome :=
  Responded 200 (Ok (completion content)).

(** A contact record of a person named [first] [last]. *)
Definition is_person (first last : str) (contact : json) : bool :=
  match contact with
  | JObj d =>
      match dict_get (lit "first_name") d, dict_get (lit "last_name") d with
      | Some (JStr f), Some (JStr l) => str_eqb first f && str_eqb last l
      | _, _ => false
      end
  | _ => false
  end.

(** The number of records of [contacts] for that person. *)
Definition count_person (first last : str) (contacts : list json) : nat :=
  length (filter (is_person first last) contacts).

Module Samples.

Definition dq : str := [34%N].

Definition quoted (s : string) : str := dq ++ lit s ++ dq.

(** The JSON text of an object whose members are strings. *)
Fixpoint members_text (fields : list (string * string)) : str :=
  match fields with
  | [] => []
  | [(k, v)] => quoted k ++ lit ": " ++ quoted v
  | (k, v) :: rest => quoted k ++ lit ": " ++ quoted v ++ lit ", " ++ members_text rest
  end.

Definition object_text (fields : list (string * string)) : str :=
  lit "{" ++ members_text fields ++ lit "}".

(** The reply of the fence-stripping scenario: an empty array in a
    fence tagged json. *)
Definition fenced_empty_array : str :=
  fence_json ++ nl ++ lit "[]" ++ nl ++ fence.

(** The two records of the dedup scenario, and a reply holding both. *)
Definition clint_short : str :=
  object_text [ ("first_name", "Clint"); ("last_name", "Dorman");
                ("title", "VP Finance") ]%string.

Definition clint_long : str :=
  object_text [ ("first_name", "Clint"); ("last_name", "Dorman");
                ("title", "VP of Finance and Operations") ]%string.

Definition both_clints : str :=
  lit "[" ++ clint_short ++ lit ", " ++ clint_long ++ lit "]".

(** A reply that is a JSON array, but not of objects. *)
Definition array_of_text : str :=
  lit "[" ++ quoted "No contacts found" ++ lit "]".

(** A reply with one well-formed contact. *)
Definition one_contact : str :=
  lit "[" ++ object_text [ ("first_name", "Wes"); ("last_name", "Dorman");
                           ("title", "President");
                           ("linkedin_url", " https://www.linkedin.com/in/wes-dorman ") ]%string
          ++ lit "]".

Definition acme : Company :=
  {| Domain := lit "acme.com"; Company_Name := lit "Acme" |}.

Definition globex : Company :=
  {| Domain := lit "globex.com"; Company_Name := lit "Globex" |}.

(** A search hit. *)
Definition hit (title link snippet : string) : json :=
  JObj [ (lit "title", JStr (lit title)); (lit "link", JStr (lit link));
         (lit "snippet", JStr (lit snippet)) ].

(** A search result with five hits, the second without a snippet. *)
Definition busy_result : json :=
  JObj [ (lit "searchParameters", JObj [ (lit "q", JStr (lit "acme.com Acme CEO")) ]);
         (lit "organic",
          JArr [ hit "A" "https://a.example" "first";
                 JObj [ (lit "title", JStr (lit "B"));
                        (lit "link", JStr (lit "https://b.example")) ];
                 hit "C" "https://c.example" "third";
                 hit "D" "https://d.example" "fourth";
                 hit "E" "https://e.example" "fifth" ]) ].

(** The search provider: the first query finds two pages that name Clint
    Dorman under his two titles, the others fail in transport. *)
Definition clint_search (i : nat) (query : str) : http_outcome :=
  match i with
  | O =>
      Responded 200
        (Ok (JObj [ (lit "searchParameters", JObj [ (lit "q", JStr query) ]);
                    (lit "organic",
                     JArr [ hit "Clint Dorman - VP Finance - Acme"
                                "https://acme.com/team" "Clint Dorman, VP Finance";
                            hit "Acme leadership" "https://acme.com/about"
                                "Clint Dorman, VP of Finance and Operations" ]) ]))
  | _ => Failed
  end.

(** Both providers of the dedup scenario: the model returns both records. *)
Definition clint_env : company_env :=
  {| serper := clint_search; openrouter := fun _ => llm_reply both_clints |}.

(** Every search fails in transport; the model answers [content]. *)
Definition answering (content : str) : company_env :=
  {| serper := fun _ _ => Failed; openrouter := fun _ => llm_reply content |}.

(** Every search answers 200 with the body [body]; the model answers
    an empty array. *)
Definition searching (body : json) : company_env :=
  {| serper := fun _ _ => Responded 200 (Ok body);
     openrouter := fun _ => llm_reply (lit "[]") |}.

(** Row 0 gets an array of text from the model, the other rows a
    well-formed contact. *)
Definition one_bad_reply (row : nat) : company_env :=
  match row with
  | O => answering array_of_text
  | _ => answering one_contact
  end.

(** Fifteen rows. *)
Definition fifteen : list Company := repeat acme 15.

End Samples.

(* ================================================================== *)
(** * Reading the input and naming the output *)
(* ================================================================== *)

Module PyRe.

(** What [re] takes from the Unicode database for a code point above
    ASCII: whether it is a decimal digit, whether it is alphanumeric. *)
Class UnicodeDb : Type := {
  decimal_above : N -> bool;
  alnum_above : N -> bool
}.

Definition is_ascii_digit (c : N) : bool := ((48 <=? c) && (c <=? 57))%N.

Definition is_ascii_letter (c : N) : bool :=
  (((65 <=? c) && (c <=? 90)) || ((97 <=? c) && (c <=? 122)))%N.

(** The class [\d] of a [str] pattern. *)
Definition is_decimal {U : UnicodeDb} (c : N) : bool :=
  if (c <? 128)%N then is_ascii_digit c else decimal_above c.

(** The class [\w] of a [str] pattern: alphanumeric, or the underscore. *)
Definition is_word {U : UnicodeDb} (c : N) : bool :=
  if (c <? 128)%N then is_ascii_letter c || is_ascii_digit c || (c =? 95)%N
  else alnum_above c.

(** The class [[a-zA-Z0-9-_]]: the three ranges, the hyphen and the
    underscore. *)
Definition is_id_char (c : N) : bool :=
  is_ascii_letter c || is_ascii_digit c || (c =? 45)%N || (c =? 95)%N.

(** The longest prefix of [s] made of characters of a class, and the
    rest: what a greedy [+] or [*] takes. *)
Fixpoint span (p : N -> bool) (s : str) : str * str :=
  match s with
  | c :: s' => if p c then let (a, b) := span p s' in (c :: a, b) else ([], s)
  | [] => ([], [])
  end.

(** [re.search]: the match at the leftmost position that has one. *)
Fixpoint re_search {A} (match_at : str -> option A) (s : str) : option A :=
  match match_at s with
  | Some g => Some g
  | None =>
      match s with
      | [] => None
      | _ :: s' => re_search match_at s'
      end
  end.

Definition nonempty (g : str) : option str :=
  match g with [] => None | _ :: _ => Some g end.

(** The group of [/d/([a-zA-Z0-9-_]+)] matched at the head of [s]. *)
Definition id_at (s : str) : option str :=
  if startswith (lit "/d/") s then nonempty (fst (span is_id_char (skipn 3 s)))
  else None.

(** The group of [[#&]gid=(\d+)] matched at the head of [s]. *)
Definition gid_at {U : UnicodeDb} (s : str) : option str :=
  match s with
  | c :: r =>
      if ((c =? 35) || (c =? 38))%N && startswith (lit "gid=") r
      then nonempty (fst (span is_decimal (skipn 4 r)))
      else None
  | [] => None
  end.

(** The group of [<title>([^<]+)</title>] matched at the head of [s]:
    the run of characters other than [<] cannot be cut short, the
    closing tag starts with the character that ends it. *)
Definition title_at (s : str) : option str :=
  if startswith (lit "<title>") s then
    let (t, r) := span (fun c => negb (c =? 60)%N) (skipn 7 s) in
    match t with
    | [] => None
    | _ :: _ => if startswith (lit "</title>") r then Some t else None
    end
  else None.

(** [s.endswith(suffix)]. *)
Definition endswith (suffix s : str) : bool := startswith (rev suffix) (rev s).

(** [s.replace(old, new)] for a non-empty [old]: the pieces between the
    occurrences of [old], leftmost first, with [new] between them. *)
Definition replace (old new s : str) : str := join new (split old s).

End PyRe.
Export PyRe.

Section Collaborators.

Context {U : UnicodeDb}.

(** [extract_spreadsheet_info]. *)
Definition extract_spreadsheet_info (sheet_url : str) : result (str * str) :=
  match re_search id_at sheet_url with
  | None => Raise ValueError
  | Some spreadsheet_id =>
      let gid :=
        match re_search gid_at sheet_url with
        | Some g => g
        | None => lit "0"
        end in
      Ok (spreadsheet_id, gid)
  end.

(** What [requests.get] gives: an exception, or a response with its
    status code and its text. *)
Inductive page : Type :=
| NoPage
| Page (status_code : Z) (text : str).

(** The [try] block of [get_sheet_title]: the title when the page has
    one, [None] when the function falls through to its last line. *)
Definition get_sheet_title_try (get : str -> page) (sheet_url : str)
  : result (option str) :=
  info <- extract_spreadsheet_info sheet_url ;;
  match get (lit "https://docs.google.com/spreadsheets/d/" ++ fst info ++ lit "/edit") with
  | NoPage => Raise ClientError
  | Page status_code text =>
      if (status_code =? 200)%Z then
        match re_search title_at text with
        | Some title => Ok (Some (strip (replace (lit " - Google Sheets") [] title)))
        | None => Ok None
        end
      else Ok None
  end.

(** [get_sheet_title]: the [try] block under its [except Exception], and
    the default of the last line. *)
Definition get_sheet_title (get : str -> page) (sheet_url : str) : str :=
  match get_sheet_title_try get sheet_url with
  | Ok (Some title) => title
  | _ => lit "output"
  end.

(** The file name [run] makes of a sheet title:
    [re.sub(r'[^\w\s-]', '', sheet_title).strip().replace(' ', '_')]. *)
Definition safe_title (sheet_title : str) : str :=
  replace (lit " ") (lit "_")
    (strip (filter (fun c => is_word c || is_space c || (c =? 45)%N) sheet_title)).

(** The output file of [run]: the one given, or a default that depends
    on where the input comes from. *)
Definition output_file_of (get : str -> page) (input_source : str)
    (output_file : option str) : str :=
  if startswith (lit "http") input_source then
    match output_file with
    | None => safe_title (get_sheet_title get input_source) ++ lit ".csv"
    | Some f => f
    end
  else
    match output_file with
    | None => lit "output.csv"
    | Some f => f
    end.

(** A pandas DataFrame, as far as the program looks into one before the
    batch loop: the labels of its columns (those that are strings) and
    its cells, row by row. *)
Record DataFrame : Type := {
  columns : list str;
  cells : list (list json)
}.

(** The two readers of pandas, by path or URL. *)
Class Pandas : Type := {
  read_excel : str -> result DataFrame;
  read_csv : str -> result DataFrame
}.

(** ['Domain' not in df.columns or 'Company Name' not in df.columns]. *)
Definition lacks_required_columns (df : DataFrame) : bool :=
  negb (existsb (str_eqb (lit "Domain")) (columns df))
  || negb (existsb (str_eqb (lit "Company Name")) (columns df)).

(** [read_input_file]. *)
Definition read_input_file {P : Pandas} (file_path : str) : result DataFrame :=
  df <- (if endswith (lit ".xlsx") file_path || endswith (lit ".xls") file_path
         then read_excel file_path
         else if endswith (lit ".csv") file_path then read_csv file_path
         else Raise ValueError) ;;
  if lacks_required_columns df then Raise ValueError else Ok df.

(** A call that returns, raises, or ends the process ([sys.exit]). *)
Inductive outcome (A : Type) : Type :=
| Returned (a : A)
| Raised (e : exn)
| Exited (code : Z).
Arguments Raised {A} e.
Arguments Exited {A} code.

(** What the gspread calls of [read_google_sheet_authenticated] come to:
    no service-account credentials, another exception, or the records of
    the first worksheet as a DataFrame. *)
Inductive gspread_read : Type :=
| NoCredentials
| SheetFailed (e : exn)
| Sheet (df : DataFrame).

(** [read_google_sheet_authenticated]. *)
Definition read_google_sheet_authenticated (gspread : str -> gspread_read)
    (sheet_url : str) : outcome DataFrame :=
  match gspread sheet_url with
  | NoCredentials => Exited 1
  | SheetFailed e => Raised e
  | Sheet df =>
      if lacks_required_columns df then Raised ValueError else Returned df
  end.

(** The CSV export URL [read_public_google_sheet] builds. *)
Definition export_url (spreadsheet_id gid : str) : str :=
  lit "https://docs.google.com/spreadsheets/d/" ++ spreadsheet_id
    ++ lit "/export?format=csv&gid=" ++ gid.

(** The [try] block of [read_public_google_sheet]. *)
Definition read_public_google_sheet_try {P : Pandas} (sheet_url : str)
  : result DataFrame :=
  info <- extract_spreadsheet_info sheet_url ;;
  df <- read_csv (export_url (fst info) (snd info)) ;;
  if lacks_required_columns df then Raise ValueError else Ok df.

(** [read_public_google_sheet]: on any exception of the [try] block, the
    authenticated reading. *)
Definition read_public_google_sheet {P : Pandas} (gspread : str -> gspread_read)
    (sheet_url : str) : outcome DataFrame :=
  match read_public_google_sheet_try sheet_url with
  | Ok df => Returned df
  | Raise _ => read_google_sheet_authenticated gspread sheet_url
  end.

(** The reading of the input at the head of [run]. *)
Definition read_input {P : Pandas} (gspread : str -> gspread_read)
    (input_source : str) : outcome DataFrame :=
  if startswith (lit "http") input_source
  then read_public_google_sheet gspread input_source
  else match read_input_file input_source with
       | Ok df => Returned df
       | Raise e => Raised e
       end.

End Collaborators.

Arguments Raised {A} e.
Arguments Exited {A} code.

(** The Unicode tables cut down to ASCII, and sheets for the examples. *)
Module SheetSamples.

Definition ascii_only : UnicodeDb :=
  {| decimal_above := fun _ => false; alnum_above := fun _ => false |}.

Definition sheet_url : str :=
  lit "https://docs.google.com/spreadsheets/d/1aB-c_D9/edit#gid=42".

Definition titled_page (url : str) : page :=
  Page 200 (lit "<html><head><title>Q3 Leads: East/West - Google Sheets</title></head></html>").

Definition good_frame : DataFrame :=
  {| columns := [lit "Domain"; lit "Company Name"; lit "Notes"];
     cells := [[JStr (lit "acme.com"); JStr (lit "Acme"); JNull]] |}.

Definition bad_frame : DataFrame :=
  {| columns := [lit "Domain"; lit "Name"]; cells := [] |}.

(** Every path reads [good_frame]. *)
Definition good_pandas : Pandas :=
  {| read_excel := fun _ => Ok good_frame; read_csv := fun _ => Ok good_frame |}.

(** The public export lacks a column. *)
Definition bad_pandas : Pandas :=
  {| read_excel := fun _ => Ok bad_frame; read_csv := fun _ => Ok bad_frame |}.

End SheetSamples.

(* ================================================================== *)
(** * Facts about Python strings *)
(* ================================================================== *)

Unset Implicit Arguments.

Section StringFacts.

Lemma str_eqb_eq (a b : str) : str_eqb a b = true <-> a = b.
Proof.
  unfold str_eqb. destruct (list_eq_dec N.eq_dec a b); split; congruence.
Qed.

Lemma str_eqb_refl (a : str) : str_eqb a a = true.
Proof. apply str_eqb_eq. reflexivity. Qed.

Lemma str_eqb_neq (a b : str) : a <> b -> str_eqb a b = false.
Proof.
  intros H. destruct (str_eqb a b) eqn:E; [| reflexivity].
  apply str_eqb_eq in E. contradiction.
Qed.

Lemma startswith_app (p r : str) : startswith p (p ++ r) = true.
Proof.
  induction p as [| a p IH]; simpl; [reflexivity |].
  rewrite N.eqb_refl. exact IH.
Qed.

Lemma startswith_inv (p s : str) :
  startswith p s = true -> s = p ++ skipn (length p) s.
Proof.
  revert s. induction p as [| a p IH]; intros s H; simpl in *.
  - reflexivity.
  - destruct s as [| b s]; [discriminate |].
    apply andb_true_iff in H. destruct H as [Hab Hp].
    apply N.eqb_eq in Hab. subst b. simpl. f_equal. apply IH. exact Hp.
Qed.

Lemma startswith_iff (p s : str) :
  startswith p s = true <-> exists r, s = p ++ r.
Proof.
  split.
  - intros H. exists (skipn (length p) s). apply startswith_inv. exact H.
  - intros [r ->]. apply startswith_app.
Qed.

Lemma contains_unfold (sub s : str) :
  contains sub s =
  startswith sub s || match s with [] => false | _ :: s' => contains sub s' end.
Proof. destruct s; reflexivity. Qed.

(** [sub in s] holds exactly when [s] is some text, [sub], some text. *)
Lemma contains_iff (sub s : str) :
  contains sub s = true <-> exists pre post, s = pre ++ sub ++ post.
Proof.
  split.
  - induction s as [| c s IH]; rewrite contains_unfold; intros H;
      apply orb_true_iff in H; destruct H as [H | H].
    + apply startswith_iff in H. destruct H as [r Hr]. exists [], r. exact Hr.
    + discriminate.
    + apply startswith_iff in H. destruct H as [r Hr]. exists [], r. exact Hr.
    + destruct (IH H) as (pre & post & ->). exists (c :: pre), post. reflexivity.
  - intros (pre & post & ->). induction pre as [| c pre IH].
    + simpl. rewrite contains_unfold, startswith_app. reflexivity.
    + simpl. rewrite IH. apply orb_true_r.
Qed.

Lemma contains_nil_r (sub : str) : sub <> [] -> contains sub [] = false.
Proof. destruct sub; [congruence | reflexivity]. Qed.

Lemma contains_rev (sub s : str) : contains (rev sub) (rev s) = contains sub s.
Proof.
  assert (Hdir : forall a b, contains a b = true -> contains (rev a) (rev b) = true).
  { intros a b H. apply contains_iff in H. destruct H as (pre & post & ->).
    apply contains_iff. exists (rev post), (rev pre).
    rewrite !rev_app_distr, <- app_assoc. reflexivity. }
  destruct (contains sub s) eqn:E.
  - apply Hdir. exact E.
  - destruct (contains (rev sub) (rev s)) eqn:E'; [| reflexivity].
    apply Hdir in E'. rewrite !rev_involutive in E'. congruence.
Qed.

Lemma spaceless_cons (c : N) (sub : str) :
  spaceless (c :: sub) -> is_space c = false /\ spaceless sub.
Proof.
  unfold spaceless. simpl. intros H. apply andb_true_iff in H.
  destruct H as [H1 H2]. split; [| exact H2].
  destruct (is_space c); [discriminate | reflexivity].
Qed.

Lemma spaceless_rev (sub : str) : spaceless sub -> spaceless (rev sub).
Proof.
  unfold spaceless. rewrite !forallb_forall. intros H c Hc.
  apply H. apply in_rev. exact Hc.
Qed.

(** Stripping whitespace on the left keeps every occurrence of a text that
    holds no whitespace. *)
Lemma contains_lstrip (sub s : str) :
  sub <> [] -> spaceless sub -> contains sub (lstrip s) = contains sub s.
Proof.
  intros Hne Hsp. destruct sub as [| a sub]; [congruence |].
  apply spaceless_cons in Hsp. destruct Hsp as [Ha _].
  induction s as [| c s IH]; [reflexivity |].
  simpl lstrip. destruct (is_space c) eqn:Hc; [| reflexivity].
  rewrite IH. rewrite (contains_unfold (a :: sub) (c :: s)). simpl startswith.
  destruct (N.eqb_spec a c) as [-> |]; [congruence | reflexivity].
Qed.

Lemma contains_rstrip (sub s : str) :
  sub <> [] -> spaceless sub -> contains sub (rstrip s) = contains sub s.
Proof.
  intros Hne Hsp. unfold rstrip.
  rewrite <- (contains_rev sub (rev (lstrip (rev s)))), rev_involutive.
  rewrite contains_lstrip.
  - rewrite contains_rev. reflexivity.
  - intros E. apply (f_equal (@rev N)) in E. rewrite rev_involutive in E.
    simpl in E. congruence.
  - apply spaceless_rev. exact Hsp.
Qed.

Lemma contains_strip (sub s : str) :
  sub <> [] -> spaceless sub -> contains sub (strip s) = contains sub s.
Proof.
  intros Hne Hsp. unfold strip.
  rewrite contains_rstrip, contains_lstrip by assumption. reflexivity.
Qed.

(** [lstrip] removes a run of whitespace and stops at the first character
    that is not whitespace. *)
Lemma lstrip_spec (s : str) :
  exists l, s = l ++ lstrip s /\ forallb is_space l = true /\
            match lstrip s with [] => True | c :: _ => is_space c = false end.
Proof.
  induction s as [| c s (l & Hs & Hl & Hh)].
  - exists []. repeat split.
  - simpl. destruct (is_space c) eqn:Hc.
    + exists (c :: l). simpl. rewrite Hc, Hl. repeat split; [| exact Hh].
      f_equal. exact Hs.
    + exists []. repeat split. exact Hc.
Qed.

Lemma rstrip_spec (s : str) :
  exists r, s = rstrip s ++ r /\ forallb is_space r = true /\
            match rev (rstrip s) with [] => True | c :: _ => is_space c = false end.
Proof.
  unfold rstrip. destruct (lstrip_spec (rev s)) as (l & Hs & Hl & Hh).
  exists (rev l). rewrite rev_involutive. repeat split.
  - apply (f_equal (@rev N)) in Hs. rewrite rev_involutive, rev_app_distr in Hs.
    exact Hs.
  - rewrite forallb_forall in *. intros c Hc. apply Hl. apply in_rev. exact Hc.
  - exact Hh.
Qed.

(** The head of [rstrip s] is the head of [s] unless everything goes. *)
Lemma rstrip_head (s : str) :
  match s with [] => True | c :: _ => is_space c = false end ->
  match rstrip s with [] => True | c :: _ => is_space c = false end.
Proof.
  destruct (rstrip_spec s) as (r & Hs & _ & _).
  destruct (rstrip s) as [| c t]; [trivial |].
  rewrite Hs. simpl. trivial.
Qed.

(** What [strip] returns: the input between a run of leading and a run
    of trailing whitespace, with no whitespace at either end. *)
Lemma strip_spec (s : str) :
  exists l r,
    s = l ++ strip s ++ r /\
    forallb is_space l = true /\ forallb is_space r = true /\
    match strip s with [] => True | c :: _ => is_space c = false end /\
    match rev (strip s) with [] => True | c :: _ => is_space c = false end.
Proof.
  unfold strip.
  destruct (lstrip_spec s) as (l & Hs & Hl & Hh).
  destruct (rstrip_spec (lstrip s)) as (r & Hs' & Hr & Hlast).
  exists l, r. repeat split; try assumption.
  - rewrite <- Hs'. exact Hs.
  - apply rstrip_head. exact Hh.
Qed.

End StringFacts.

Section SplitFacts.

Lemma cut_app (sep s a b : str) : cut sep s = Some (a, b) -> s = a ++ sep ++ b.
Proof.
  revert a b. induction s as [| c s IH]; intros a b; simpl.
  - destruct (startswith sep []) eqn:E; [| discriminate].
    intros [= <- <-]. apply startswith_inv in E. exact E.
  - destruct (startswith sep (c :: s)) eqn:E.
    + intros [= <- <-]. apply startswith_inv in E. exact E.
    + destruct (cut sep s) as [[a' b'] |]; [| discriminate].
      intros [= <- <-]. simpl. f_equal. apply IH. reflexivity.
Qed.

Lemma cut_leftmost (sep s a b : str) :
  cut sep s = Some (a, b) -> leftmost sep s a b.
Proof.
  intros H. split; [apply cut_app; exact H |].
  revert a b H. induction s as [| c s IH]; intros a b; simpl.
  - destruct (startswith sep []); [| discriminate].
    intros [= <- <-] pre' post' _. apply Nat.le_0_l.
  - destruct (startswith sep (c :: s)) eqn:E.
    + intros [= <- <-] pre' post' _. apply Nat.le_0_l.
    + destruct (cut sep s) as [[a' b'] |] eqn:Hc; [| discriminate].
      intros [= <- <-] pre' post' Hs. destruct pre' as [| c' pre'].
      * simpl in Hs. rewrite Hs, startswith_app in E. discriminate.
      * simpl in Hs. injection Hs as _ Hs. simpl. apply le_n_S.
        apply (IH a' b' eq_refl pre' post'). exact Hs.
Qed.

Lemma cut_none (sep s : str) : cut sep s = None <-> contains sep s = false.
Proof.
  induction s as [| c s IH]; rewrite contains_unfold; simpl.
  - destruct (startswith sep []); split; intros; (discriminate || reflexivity).
  - destruct (startswith sep (c :: s)); simpl.
    + split; discriminate.
    + rewrite <- IH. destruct (cut sep s) as [[a b] |]; split;
        intros; (discriminate || reflexivity).
Qed.

Lemma cut_some (sep s : str) :
  contains sep s = true -> exists a b, cut sep s = Some (a, b).
Proof.
  intros H. destruct (cut sep s) as [[a b] |] eqn:E.
  - exists a, b. reflexivity.
  - apply cut_none in E. congruence.
Qed.

(** Two leftmost occurrences are the same one. *)
Lemma leftmost_unique (sep s a b a' b' : str) :
  leftmost sep s a b -> leftmost sep s a' b' -> a = a' /\ b = b'.
Proof.
  intros [H1 L1] [H2 L2].
  assert (Hlen : length a = length a').
  { apply Nat.le_antisymm; [apply (L1 a' b') | apply (L2 a b)]; assumption. }
  assert (Ha : a = a').
  { rewrite H1 in H2.
    apply (f_equal (firstn (length a))) in H2.
    rewrite firstn_app, Nat.sub_diag, firstn_all, firstn_O, app_nil_r in H2.
    rewrite Hlen, firstn_app, Nat.sub_diag, firstn_all, firstn_O, app_nil_r in H2.
    exact H2. }
  split; [exact Ha |]. subst a'. rewrite H1 in H2.
  apply app_inv_head in H2. apply app_inv_head in H2. exact H2.
Qed.

(** The number of cuts allowed does not matter once it reaches the
    length of the text: [split] has all the fuel it needs. *)
Lemma split_fuel_enough (sep : str) (n m : nat) (s : str) :
  sep <> [] -> length s <= n -> length s <= m ->
  split_fuel n sep s = split_fuel m sep s.
Proof.
  intros Hsep. revert m s.
  assert (Hnil : forall k, split_fuel k sep [] = [[]]).
  { intros [| k]; simpl; [reflexivity |].
    destruct sep; [congruence | reflexivity]. }
  induction n as [| n IH]; intros m s Hn Hm.
  - destruct s; [| simpl in Hn; lia]. rewrite !Hnil. reflexivity.
  - destruct m as [| m].
    + destruct s; [| simpl in Hm; lia]. rewrite !Hnil. reflexivity.
    + simpl. destruct (cut sep s) as [[a b] |] eqn:E; [| reflexivity].
      f_equal. apply cut_app in E. subst s. rewrite !length_app in Hn, Hm.
      assert (0 < length sep) by (destruct sep; [congruence | simpl; lia]).
      apply IH; lia.
Qed.

Lemma split_cut (sep s a b : str) :
  sep <> [] -> cut sep s = Some (a, b) -> split sep s = a :: split sep b.
Proof.
  intros Hsep E. unfold split.
  pose proof (cut_app _ _ _ _ E) as Hs.
  assert (0 < length sep) by (destruct sep; [congruence | simpl; lia]).
  destruct (length s) as [| n] eqn:Hn.
  - subst s. rewrite !length_app in Hn. lia.
  - simpl. rewrite E. f_equal.
    apply split_fuel_enough; [exact Hsep | | lia].
    subst s. rewrite !length_app in Hn. lia.
Qed.

Lemma split_none (sep s : str) : cut sep s = None -> split sep s = [s].
Proof.
  intros E. unfold split. destruct (length s); simpl; [| rewrite E]; reflexivity.
Qed.

(** The first piece of a split: the text before the leftmost separator,
    or the whole text when there is none. *)
Lemma split_head (sep s : str) :
  sep <> [] ->
  exists rest, split sep s = (match cut sep s with
                              | Some (a, _) => a
                              | None => s
                              end) :: rest.
Proof.
  intros Hsep. destruct (cut sep s) as [[a b] |] eqn:E.
  - exists (split sep b). apply split_cut; assumption.
  - exists []. apply split_none. exact E.
Qed.

End SplitFacts.

(* ================================================================== *)
(** * The LinkedIn validation predicate *)
(* ================================================================== *)

Section LinkedIn.

Lemma validate_nonempty (s : str) :
  s <> [] ->
  _validate_linkedin_url (JStr s) =
  if negb (contains (lit "linkedin.com/in/") (strip s)) then []
  else if existsb (fun d => contains d (strip s)) disallowed then []
  else strip s.
Proof. destruct s; [congruence | reflexivity]. Qed.

Lemma validate_not_str (url : json) :
  (forall s, url <> JStr s) -> _validate_linkedin_url url = [].
Proof.
  intros H. destruct url; try reflexivity. exfalso. apply (H s). reflexivity.
Qed.

Lemma disallowed_spaceless (d : str) : In d disallowed -> d <> [] /\ spaceless d.
Proof.
  unfold disallowed. simpl.
  intros [<- | [<- | [<- | [<- | [<- | [<- | []]]]]]];
    (split; [discriminate | reflexivity]).
Qed.

Lemma profile_spaceless :
  lit "linkedin.com/in/" <> [] /\ spaceless (lit "linkedin.com/in/").
Proof. split; [discriminate | reflexivity]. Qed.

Lemma existsb_ext_in {A} (f g : A -> bool) (l : list A) :
  (forall x, In x l -> f x = g x) -> existsb f l = existsb g l.
Proof.
  induction l as [| x l IH]; intros H; simpl; [reflexivity |].
  rewrite (H x (or_introl eq_refl)), IH; [reflexivity |].
  intros y Hy. apply H. right. exact Hy.
Qed.

(** Stripping does not change what the predicate tests. *)
Lemma validate_tests (s : str) :
  s <> [] ->
  _validate_linkedin_url (JStr s) =
  if negb (contains (lit "linkedin.com/in/") s) then []
  else if existsb (fun d => contains d s) disallowed then []
  else strip s.
Proof.
  intros Hs. rewrite (validate_nonempty s Hs).
  destruct profile_spaceless as [Hp1 Hp2].
  rewrite (contains_strip _ s Hp1 Hp2).
  rewrite (existsb_ext_in (fun d => contains d (strip s)) (fun d => contains d s)).
  - reflexivity.
  - intros d Hd. destruct (disallowed_spaceless d Hd) as [H1 H2].
    apply contains_strip; assumption.
Qed.

Lemma existsb_false {A} (f : A -> bool) (l : list A) :
  existsb f l = false <-> forall x, In x l -> f x = false.
Proof.
  split.
  - intros H x Hx. destruct (f x) eqn:E; [| reflexivity].
    assert (existsb f l = true) by (apply existsb_exists; exists x; auto).
    congruence.
  - intros H. destruct (existsb f l) eqn:E; [| reflexivity].
    apply existsb_exists in E. destruct E as (x & Hx & Hfx).
    rewrite (H x Hx) in Hfx. discriminate.
Qed.

(** When the predicate accepts, it returns the stripped input, which is
    not empty. *)
Lemma validate_accepts (s : str) :
  s <> [] ->
  contains (lit "linkedin.com/in/") s = true ->
  (forall d, In d disallowed -> contains d s = false) ->
  _validate_linkedin_url (JStr s) = strip s /\ strip s <> [].
Proof.
  intros Hs Hin Hdis. rewrite (validate_tests s Hs), Hin.
  rewrite (proj2 (existsb_false _ _) Hdis). simpl. split; [reflexivity |].
  intros E. destruct profile_spaceless as [Hp1 Hp2].
  rewrite <- (contains_strip _ s Hp1 Hp2), E in Hin.
  rewrite (contains_nil_r _ Hp1) in Hin. discriminate.
Qed.

Lemma validate_inv (url : json) :
  _validate_linkedin_url url <> [] ->
  exists s, url = JStr s /\ s <> [] /\
            contains (lit "linkedin.com/in/") s = true /\
            (forall d, In d disallowed -> contains d s = false) /\
            _validate_linkedin_url url = strip s.
Proof.
  intros H. destruct url as [| | | | s | |]; try (exfalso; apply H; reflexivity).
  exists s. assert (Hs : s <> []).
  { intros ->. apply H. reflexivity. }
  rewrite (validate_tests s Hs) in *.
  destruct (contains (lit "linkedin.com/in/") s); cbn [negb] in *;
    [| exfalso; apply H; reflexivity].
  destruct (existsb (fun d => contains d s) disallowed) eqn:E;
    [exfalso; apply H; reflexivity |].
  repeat split; try assumption. apply existsb_false. exact E.
Qed.

(** ** C4 *)

(** C4. The LinkedIn validation predicate returns a non-empty result
    exactly when its input is a non-empty string that contains
    "linkedin.com/in/" and none of the six rejected path segments; every
    other input, the empty string and the values that are not strings
    among them, gives the empty string.  It accepts
    "https://www.linkedin.com/in/jane-doe-123" and rejects
    "https://www.linkedin.com/company/acme" and
    "https://www.linkedin.com/posts/xyz". *)
Theorem linkedin_predicate_accepts_only_profiles :
  (forall url : json,
      _validate_linkedin_url url <> [] <->
      exists s, url = JStr s /\ s <> [] /\
                contains (lit "linkedin.com/in/") s = true /\
                contains (lit "linkedin.com/company/") s = false /\
                contains (lit "linkedin.com/posts/") s = false /\
                contains (lit "linkedin.com/pub/dir/") s = false /\
                contains (lit "linkedin.com/feed/") s = false /\
                contains (lit "linkedin.com/jobs/") s = false /\
                contains (lit "linkedin.com/school/") s = false) /\
  (forall url : json, (forall s, url <> JStr s) -> _validate_linkedin_url url = []) /\
  _validate_linkedin_url (JStr []) = [] /\
  _validate_linkedin_url (JStr (lit "https://www.linkedin.com/in/jane-doe-123"))
    = lit "https://www.linkedin.com/in/jane-doe-123" /\
  _validate_linkedin_url (JStr (lit "https://www.linkedin.com/company/acme")) = [] /\
  _validate_linkedin_url (JStr (lit "https://www.linkedin.com/posts/xyz")) = [].
Proof.
  split; [| split; [exact validate_not_str | repeat split; reflexivity]].
  intros url. split.
  - intros H. destruct (validate_inv url H) as (s & -> & Hs & Hin & Hdis & _).
    exists s. unfold disallowed in Hdis.
    repeat split; try assumption; apply Hdis; simpl; tauto.
  - intros (s & -> & Hs & Hin & H1 & H2 & H3 & H4 & H5 & H6).
    assert (Hdis : forall d, In d disallowed -> contains d s = false).
    { unfold disallowed. simpl.
      intros d [<- | [<- | [<- | [<- | [<- | [<- | []]]]]]]; assumption. }
    destruct (validate_accepts s Hs Hin Hdis) as [-> Hne]. exact Hne.
Qed.

End LinkedIn.

(* ================================================================== *)
(** * Ranges, slices and batches *)
(* ================================================================== *)

Section BatchFacts.

Variable A : Type.

Lemma slice_from (l : list A) (i bs : nat) :
  slice l i (i + bs) = firstn bs (skipn i l).
Proof. unfold slice. replace (i + bs - i) with bs by lia. reflexivity. Qed.

Lemma firstn_plus (l : list A) (a b : nat) :
  firstn (a + b) l = firstn a l ++ firstn b (skipn a l).
Proof.
  revert l. induction a as [| a IH]; intros l; simpl; [reflexivity |].
  destruct l as [| x l]; simpl.
  - rewrite firstn_nil. reflexivity.
  - f_equal. apply IH.
Qed.

(** The number of indices in [range(0, n, bs)]: [n / bs] rounded up. *)
Lemma py_range_0 (n bs : nat) :
  py_range 0 n bs = List.map (fun k => k * bs) (seq 0 ((n + bs - 1) / bs)).
Proof. unfold py_range. rewrite Nat.sub_0_r. reflexivity. Qed.

Lemma ceil_covers (n bs : nat) : 0 < bs -> n <= (n + bs - 1) / bs * bs.
Proof.
  intros Hbs.
  pose proof (Nat.div_mod_eq (n + bs - 1) bs) as E.
  pose proof (Nat.mod_upper_bound (n + bs - 1) bs) as U.
  nia.
Qed.

Lemma ceil_tight (n bs : nat) : 0 < bs -> 0 < n -> ((n + bs - 1) / bs - 1) * bs < n.
Proof.
  intros Hbs Hn.
  pose proof (Nat.div_mod_eq (n + bs - 1) bs) as E.
  pose proof (Nat.mod_upper_bound (n + bs - 1) bs) as U.
  nia.
Qed.

(** The first [m] slices of width [bs] make up the first [m * bs]
    elements. *)
Lemma concat_slices (l : list A) (bs m : nat) :
  concat (List.map (fun i => slice l i (i + bs))
                   (List.map (fun k => k * bs) (seq 0 m)))
  = firstn (m * bs) l.
Proof.
  induction m as [| m IH]; [reflexivity |].
  rewrite seq_S, !map_app, concat_app, IH. simpl.
  rewrite app_nil_r, slice_from.
  replace (bs + m * bs) with (m * bs + bs) by lia.
  rewrite firstn_plus. reflexivity.
Qed.

(** The slices taken at the indices of the range are a partition of the
    list into consecutive pieces. *)
Lemma concat_range_slices (l : list A) (bs : nat) :
  0 < bs ->
  concat (List.map (fun i => slice l i (i + bs)) (py_range 0 (length l) bs)) = l.
Proof.
  intros Hbs. rewrite py_range_0, concat_slices.
  apply firstn_all2. apply ceil_covers. exact Hbs.
Qed.

Lemma slice_length (l : list A) (i bs : nat) :
  length (slice l i (i + bs)) = Nat.min bs (length l - i).
Proof. rewrite slice_from, length_firstn, length_skipn. reflexivity. Qed.

Lemma nth_error_slice (l : list A) (i bs j : nat) (x : A) :
  nth_error (slice l i (i + bs)) j = Some x -> nth_error l (i + j) = Some x.
Proof.
  rewrite slice_from. intros H.
  assert (Hj : j < bs).
  { destruct (Nat.lt_ge_cases j bs) as [Hlt | Hge]; [exact Hlt |].
    assert (Hlen : length (firstn bs (skipn i l)) <= j).
    { rewrite length_firstn. lia. }
    apply nth_error_None in Hlen. congruence. }
  rewrite nth_error_firstn in H.
  destruct (Nat.ltb_spec j bs); [| lia].
  rewrite nth_error_skipn in H. exact H.
Qed.

End BatchFacts.

(* ================================================================== *)
(** * The batch scheduler *)
(* ================================================================== *)

Section SchedulerFacts.

Context {RT : Runtime}.

Lemma flatten_concat (rs : list (list json)) (acc : list json) :
  flatten rs acc = acc ++ concat rs.
Proof.
  revert acc. induction rs as [| r rs IH]; intros acc; simpl.
  - rewrite app_nil_r. reflexivity.
  - rewrite IH, app_assoc. reflexivity.
Qed.

Lemma map_seq_shift {B} (f : nat -> B) (i m : nat) :
  List.map (fun j => f (i + j)) (seq 0 m) = List.map f (seq i m).
Proof.
  induction m as [| m IH]; [reflexivity |].
  rewrite !seq_S, !map_app, IH. reflexivity.
Qed.

Lemma firstn_of_seq (n start len : nat) :
  firstn n (seq start len) = seq start (Nat.min n len).
Proof.
  revert start len. induction n as [| n IH]; intros start len; [reflexivity |].
  destruct len as [| len]; [reflexivity |]. simpl. f_equal. apply IH.
Qed.

Lemma concat_map_concat {B} (ls : list (list (list B))) :
  concat (List.map (@concat B) ls) = concat (concat ls).
Proof.
  induction ls as [| l ls IH]; simpl; [reflexivity |].
  rewrite concat_app, IH. reflexivity.
Qed.

(** When every company of a batch completes, the gathering gives their
    contact lists in the order of the batch. *)
Lemma gather_batch_ok (envs : nat -> company_env) (f : nat -> list json)
    (companies : list Company) (j0 : nat) :
  (forall j c, nth_error companies j = Some c ->
     process_company (envs (j0 + j)) (Domain c) (Company_Name c) = Ok (f (j0 + j))) ->
  gather (batch_tasks envs j0 companies)
  = Ok (List.map f (seq j0 (length companies))).
Proof.
  revert j0. induction companies as [| c cs IH]; intros j0 H; simpl.
  - reflexivity.
  - pose proof (H 0 c eq_refl) as H0. rewrite Nat.add_0_r in H0.
    rewrite H0. simpl. rewrite (IH (S j0)); [reflexivity |].
    intros j c' Hj. replace (S j0 + j) with (j0 + S j) by lia.
    apply H. exact Hj.
Qed.

Lemma process_batch_ok (envs : nat -> company_env) (f : nat -> list json)
    (companies : list Company) :
  (forall j c, nth_error companies j = Some c ->
     process_company (envs j) (Domain c) (Company_Name c) = Ok (f j)) ->
  process_batch envs companies
  = Ok (concat (List.map f (seq 0 (length companies)))).
Proof.
  intros H. unfold process_batch.
  rewrite (gather_batch_ok envs f companies 0 H). simpl.
  rewrite flatten_concat. reflexivity.
Qed.

(** One company that raises makes the gathering of its batch raise. *)
Lemma gather_batch_raises (envs : nat -> company_env) (companies : list Company)
    (j0 j : nat) (c : Company) (e : exn) :
  nth_error companies j = Some c ->
  process_company (envs (j0 + j)) (Domain c) (Company_Name c) = Raise e ->
  exists e', gather (batch_tasks envs j0 companies) = Raise e'.
Proof.
  revert j0 j. induction companies as [| c0 cs IH]; intros j0 j Hj He.
  - destruct j; discriminate.
  - simpl. destruct j as [| j].
    + injection Hj as ->. rewrite Nat.add_0_r in He. rewrite He.
      exists e. reflexivity.
    + destruct (process_company (envs j0) (Domain c0) (Company_Name c0)) as [a | e0].
      * simpl. replace (j0 + S j) with (S j0 + j) in He by lia.
        destruct (IH (S j0) j Hj He) as [e' ->]. exists e'. reflexivity.
      * exists e0. reflexivity.
Qed.

Lemma process_batch_raises (envs : nat -> company_env) (companies : list Company)
    (j : nat) (c : Company) (e : exn) :
  nth_error companies j = Some c ->
  process_company (envs j) (Domain c) (Company_Name c) = Raise e ->
  exists e', process_batch envs companies = Raise e'.
Proof.
  intros Hj He. unfold process_batch.
  destruct (gather_batch_raises envs companies 0 j c e Hj He) as [e' ->].
  exists e'. reflexivity.
Qed.

(** The loop over batches that all complete. *)
Lemma run_batches_ok (bs : nat) (env : nat -> company_env) (df : list Company)
    (g : nat -> list json) (starts : list nat) (acc : list json) (log : list event) :
  (forall i, In i starts ->
     process_batch (fun j => env (i + j)) (slice df i (i + bs)) = Ok (g i)) ->
  run_batches bs env df starts acc log
  = (log ++ concat (List.map (fun i => batch_lines bs (length df) i (length (g i))) starts),
     Ok (acc ++ concat (List.map g starts))).
Proof.
  revert acc log. induction starts as [| i rest IH]; intros acc log H; simpl.
  - rewrite !app_nil_r. reflexivity.
  - rewrite (H i (or_introl eq_refl)).
    rewrite IH by (intros i' Hi'; apply H; right; exact Hi').
    unfold batch_lines. rewrite <- !app_assoc. reflexivity.
Qed.

(** The loop stops at the first batch that raises: whatever the batches
    after it would have given, the run raises. *)
Lemma run_batches_raises (bs : nat) (env : nat -> company_env) (df : list Company)
    (starts : list nat) (acc : list json) (log : list event) (i : nat) (e : exn) :
  In i starts ->
  process_batch (fun j => env (i + j)) (slice df i (i + bs)) = Raise e ->
  exists e', snd (run_batches bs env df starts acc log) = Raise e'.
Proof.
  revert acc log. induction starts as [| i0 rest IH]; intros acc log Hi He.
  - destruct Hi.
  - simpl.
    destruct (process_batch (fun j => env (i0 + j)) (slice df i0 (i0 + bs)))
      as [r | e0] eqn:E0.
    + destruct Hi as [-> | Hi]; [congruence |]. apply IH; assumption.
    + exists e0. reflexivity.
Qed.

(** The loop over batches of which the first ones complete and the next
    one raises. *)
Lemma run_batches_stops (bs : nat) (env : nat -> company_env) (df : list Company)
    (g : nat -> list json) (before after : list nat) (i : nat) (e : exn)
    (acc : list json) (log : list event) :
  (forall j, In j before ->
     process_batch (fun k => env (j + k)) (slice df j (j + bs)) = Ok (g j)) ->
  process_batch (fun k => env (i + k)) (slice df i (i + bs)) = Raise e ->
  run_batches bs env df (before ++ i :: after) acc log
  = (log ++ concat (List.map (fun j => batch_lines bs (length df) j (length (g j)))
                            before)
         ++ [Processing_batch (i / bs + 1) ((length df + bs - 1) / bs)],
     Raise e).
Proof.
  revert acc log. induction before as [| j rest IH]; intros acc log Hb He.
  - simpl. rewrite He. reflexivity.
  - simpl. rewrite (Hb j (or_introl eq_refl)).
    rewrite IH by (try exact He; intros j' Hj'; apply Hb; right; exact Hj').
    unfold batch_lines. rewrite <- !app_assoc. reflexivity.
Qed.

(** The contacts of the batch that starts at row [i], when each company
    of row [r] gives [contacts_of r]. *)
Lemma batch_of_rows (bs : nat) (env : nat -> company_env) (df : list Company)
    (contacts_of : nat -> list json) (i : nat) :
  (forall r company, nth_error df r = Some company ->
     process_company (env r) (Domain company) (Company_Name company)
     = Ok (contacts_of r)) ->
  process_batch (fun j => env (i + j)) (slice df i (i + bs))
  = Ok (concat (slice (List.map contacts_of (seq 0 (length df))) i (i + bs))).
Proof.
  intros H.
  rewrite (process_batch_ok (fun j => env (i + j)) (fun j => contacts_of (i + j))).
  - f_equal. f_equal. rewrite map_seq_shift, slice_length, !slice_from.
    rewrite skipn_map, firstn_map, skipn_seq, firstn_of_seq. reflexivity.
  - intros j c Hj. apply H. apply (nth_error_slice _ df i bs j c Hj).
Qed.

(** The whole loop when every company completes: the contacts of the
    companies, concatenated in the order of the table. *)
Lemma run_in_order (bs : nat) (env : nat -> company_env) (df : list Company)
    (contacts_of : nat -> list json) :
  0 < bs ->
  (forall r company, nth_error df r = Some company ->
     process_company (env r) (Domain company) (Company_Name company)
     = Ok (contacts_of r)) ->
  exists found : nat -> nat,
    run_batches bs env df (py_range 0 (length df) bs) [] []
    = (concat (List.map (fun k => [ Processing_batch (k + 1) ((length df + bs - 1) / bs);
                                    Batch_complete (k + 1) (found k) ])
                        (seq 0 ((length df + bs - 1) / bs))),
       Ok (concat (List.map contacts_of (seq 0 (length df))))).
Proof.
  intros Hbs H.
  set (L := List.map contacts_of (seq 0 (length df))).
  exists (fun k => length (concat (slice L (k * bs) (k * bs + bs)))).
  rewrite (run_batches_ok bs env df (fun i => concat (slice L i (i + bs)))).
  - simpl. f_equal.
    + rewrite py_range_0, map_map. f_equal. apply map_ext. intros k.
      unfold batch_lines. rewrite Nat.div_mul by lia. reflexivity.
    + f_equal.
      rewrite <- (map_map (fun i => slice L i (i + bs)) (@concat json)).
      rewrite concat_map_concat.
      assert (HL : length L = length df).
      { unfold L. rewrite length_map, length_seq. reflexivity. }
      rewrite <- HL, (concat_range_slices _ L bs Hbs). reflexivity.
  - intros i _. apply batch_of_rows. exact H.
Qed.

(** [run] in terms of what its loop comes to. *)
Lemma run_of_loop (env : nat -> company_env) (df : list Company)
    (log : list event) (loop : result (list json)) :
  run_batches batch_size env df (py_range 0 (length df) batch_size) [] []
  = (log, loop) ->
  run env df
  = (log,
     all_results <- loop ;;
     match saved_csv all_results with
     | None => Ok all_results
     | Some results_csv => written <- to_csv results_csv ;; Ok all_results
     end).
Proof. intros H. unfold run. rewrite H. reflexivity. Qed.

(** A run that returns has written what it returns, or had nothing to
    write, after a loop that gave just that. *)
Lemma run_ok_inv (env : nat -> company_env) (df : list Company) (out : list json) :
  snd (run env df) = Ok out ->
  exists log,
    run_batches batch_size env df (py_range 0 (length df) batch_size) [] []
    = (log, Ok out).
Proof.
  destruct (run_batches batch_size env df (py_range 0 (length df) batch_size) [] [])
    as [log loop] eqn:E.
  rewrite (run_of_loop env df log loop E). cbn [snd].
  destruct loop as [all_results | e]; cbn [bind]; [| discriminate].
  intros H. exists log. f_equal. f_equal.
  destruct (saved_csv all_results) as [results_csv |].
  - destruct (to_csv results_csv); cbn [bind] in H; congruence.
  - congruence.
Qed.

End SchedulerFacts.

(* ================================================================== *)
(** * The contact normalizer *)
(* ================================================================== *)

Section NormalizerFacts.

Lemma dict_get_set_same (k : str) (v : json) (d : dict) :
  dict_get k (dict_set k v d) = Some v.
Proof.
  induction d as [| [k' v'] d IH]; simpl.
  - rewrite str_eqb_refl. reflexivity.
  - destruct (str_eqb k k') eqn:E; simpl; rewrite E; [reflexivity | exact IH].
Qed.

Lemma dict_get_set_other (k k' : str) (v : json) (d : dict) :
  k <> k' -> dict_get k' (dict_set k v d) = dict_get k' d.
Proof.
  intros Hne. induction d as [| [k0 v0] d IH]; simpl.
  - rewrite (str_eqb_neq k' k); [reflexivity | congruence].
  - destruct (str_eqb k k0) eqn:E; simpl.
    + apply str_eqb_eq in E. subst k0.
      rewrite (str_eqb_neq k' k); [reflexivity | congruence].
    + rewrite IH. reflexivity.
Qed.

(** Setting a key keeps the keys in place and puts a new one last. *)
Lemma dict_set_keys (k : str) (v : json) (d : dict) :
  List.map fst (dict_set k v d) =
  if is_some (dict_get k d) then List.map fst d else List.map fst d ++ [k].
Proof.
  induction d as [| [k0 v0] d IH]; simpl; [reflexivity |].
  destruct (str_eqb k k0); simpl; [reflexivity |].
  rewrite IH. destruct (is_some (dict_get k d)); reflexivity.
Qed.

(** What is not a dict cannot be normalized: the first assignment
    raises. *)
Lemma normalize_contact_not_dict (domain company_name : str) (contact : json) :
  (forall d, contact <> JObj d) ->
  normalize_contact domain company_name contact = Raise TypeError.
Proof.
  intros H. destruct contact; try reflexivity. exfalso. apply (H items). reflexivity.
Qed.

(** The normalized dict of a contact, field by field. *)
Lemma normalize_contact_dict (domain company_name : str) (d : dict) :
  exists d',
    normalize_contact domain company_name (JObj d) = Ok (JObj d') /\
    dict_get (lit "domain") d' = Some (JStr domain) /\
    dict_get (lit "company_name") d' = Some (JStr company_name) /\
    dict_get (lit "linkedin_url") d'
      = Some (JStr (_validate_linkedin_url
                      (match dict_get (lit "linkedin_url") d with
                       | Some u => u
                       | None => JStr []
                       end))) /\
    dict_get (lit "generic_email") d'
      = Some (match dict_get (lit "generic_email") d with
              | Some e => e
              | None => JStr []
              end) /\
    (forall k, k <> lit "domain" -> k <> lit "company_name" ->
               k <> lit "linkedin_url" -> k <> lit "generic_email" ->
               dict_get k d' = dict_get k d).
Proof.
  set (d1 := dict_set (lit "domain") (JStr domain) d).
  set (d2 := dict_set (lit "company_name") (JStr company_name) d1).
  set (u := match dict_get (lit "linkedin_url") d2 with
            | Some u => u
            | None => JStr []
            end).
  set (d3 := dict_set (lit "linkedin_url") (JStr (_validate_linkedin_url u)) d2).
  assert (Hu : dict_get (lit "linkedin_url") d2 = dict_get (lit "linkedin_url") d).
  { unfold d2, d1. rewrite !dict_get_set_other by discriminate. reflexivity. }
  assert (Hg : dict_get (lit "generic_email") d3 = dict_get (lit "generic_email") d).
  { unfold d3, d2, d1. rewrite !dict_get_set_other by discriminate. reflexivity. }
  assert (Hdom : dict_get (lit "domain") d3 = Some (JStr domain)).
  { unfold d3, d2, d1. rewrite !dict_get_set_other by discriminate.
    apply dict_get_set_same. }
  assert (Hname : dict_get (lit "company_name") d3 = Some (JStr company_name)).
  { unfold d3, d2. rewrite dict_get_set_other by discriminate.
    apply dict_get_set_same. }
  assert (Hurl : dict_get (lit "linkedin_url") d3
                 = Some (JStr (_validate_linkedin_url
                                 (match dict_get (lit "linkedin_url") d with
                                  | Some u => u
                                  | None => JStr []
                                  end)))).
  { unfold d3. rewrite dict_get_set_same. unfold u. rewrite Hu. reflexivity. }
  assert (Hframe : forall k, k <> lit "domain" -> k <> lit "company_name" ->
                             k <> lit "linkedin_url" ->
                             dict_get k d3 = dict_get k d).
  { intros k H1 H2 H3. unfold d3, d2, d1.
    rewrite !dict_get_set_other by congruence. reflexivity. }
  assert (Hrun : normalize_contact domain company_name (JObj d)
                 = if negb (is_some (dict_get (lit "generic_email") d3))
                   then Ok (JObj (dict_set (lit "generic_email") (JStr []) d3))
                   else Ok (JObj d3)).
  { reflexivity. }
  rewrite Hrun, Hg.
  destruct (dict_get (lit "generic_email") d) as [e |] eqn:He; cbn [negb is_some].
  - exists d3. rewrite Hg. repeat split; try assumption.
    intros k H1 H2 H3 _. apply Hframe; assumption.
  - exists (dict_set (lit "generic_email") (JStr []) d3).
    rewrite dict_get_set_same, !dict_get_set_other by discriminate.
    repeat split; try assumption.
    intros k H1 H2 H3 H4. rewrite dict_get_set_other by congruence.
    apply Hframe; assumption.
Qed.

(** The loop over the contacts normalizes each one, in order. *)
Lemma normalize_contacts_each (domain company_name : str) (contacts out : list json) :
  normalize_contacts domain company_name contacts = Ok out ->
  Forall2 (fun c c' => normalize_contact domain company_name c = Ok c') contacts out.
Proof.
  revert out. induction contacts as [| c cs IH]; intros out; simpl.
  - intros [= <-]. constructor.
  - destruct (normalize_contact domain company_name c) as [c' | e] eqn:E;
      simpl; [| discriminate].
    destruct (normalize_contacts domain company_name cs) as [r | e] eqn:Er;
      simpl; [| discriminate].
    intros [= <-]. constructor; [exact E | apply IH; reflexivity].
Qed.

Lemma normalize_contacts_dicts (domain company_name : str) (contacts : list json) :
  Forall (fun c => exists d, c = JObj d) contacts ->
  exists out, normalize_contacts domain company_name contacts = Ok out.
Proof.
  induction 1 as [| c cs [d ->] _ [out IH]]; simpl.
  - exists []. reflexivity.
  - destruct (normalize_contact_dict domain company_name d) as (d' & -> & _).
    simpl. rewrite IH. simpl. eexists. reflexivity.
Qed.

(** Normalization does not touch the name of the person. *)
Lemma normalize_keeps_person (domain company_name first last : str) (c c' : json) :
  normalize_contact domain company_name c = Ok c' ->
  is_person first last c' = is_person first last c.
Proof.
  intros H. destruct c as [| | | | | | d]; try discriminate.
  destruct (normalize_contact_dict domain company_name d) as (d' & E & _ & _ & _ & _ & Hf).
  rewrite E in H. injection H as <-. unfold is_person.
  rewrite !Hf by discriminate. reflexivity.
Qed.

Lemma normalize_keeps_count (domain company_name first last : str)
    (contacts out : list json) :
  Forall2 (fun c c' => normalize_contact domain company_name c = Ok c') contacts out ->
  length out = length contacts /\
  count_person first last out = count_person first last contacts.
Proof.
  unfold count_person. induction 1 as [| c c' cs cs' Hc _ [IHl IHc]]; simpl.
  - split; reflexivity.
  - rewrite (normalize_keeps_person _ _ first last c c' Hc).
    split; [lia |]. destruct (is_person first last c); simpl; lia.
Qed.

End NormalizerFacts.

(* ================================================================== *)
(** * The result formatter and the search client *)
(* ================================================================== *)

Section FormatterFacts.

Context {RT : Runtime}.

Lemma has_all_fields_dict (d : dict) :
  has_all_fields (JObj d) = Ok (complete_hit (JObj d)).
Proof.
  unfold has_all_fields, complete_hit. simpl.
  destruct (is_some (dict_get (lit "title") d)); simpl; [| reflexivity].
  destruct (is_some (dict_get (lit "link") d)); reflexivity.
Qed.

Lemma render_hit_complete (d : dict) :
  complete_hit (JObj d) = true -> render_hit (JObj d) = Ok (hit_text (JObj d)).
Proof.
  unfold complete_hit, render_hit, hit_text, field_text. simpl. intros H.
  apply andb_true_iff in H. destruct H as [H Hs].
  apply andb_true_iff in H. destruct H as [Ht Hl].
  destruct (dict_get (lit "title") d); [| discriminate].
  destruct (dict_get (lit "link") d); [| discriminate].
  destruct (dict_get (lit "snippet") d); [| discriminate].
  reflexivity.
Qed.

(** The inner loop on hits that are objects: the complete ones are
    rendered and appended in order, the others are skipped. *)
Lemma format_items_dicts (items : list json) (acc : list str) :
  forallb is_dict items = true ->
  format_items items acc
  = Ok (acc ++ List.map hit_text (filter complete_hit items)).
Proof.
  revert acc. induction items as [| item items IH]; intros acc H.
  - simpl. rewrite app_nil_r. reflexivity.
  - cbn [forallb] in H. apply andb_true_iff in H. destruct H as [Hd H].
    destruct item as [| | | | | | d]; try discriminate.
    cbn [format_items filter]. rewrite has_all_fields_dict. cbn [bind].
    destruct (complete_hit (JObj d)) eqn:E.
    + rewrite (render_hit_complete d E). cbn [bind List.map].
      rewrite (IH _ H), <- app_assoc. reflexivity.
    + apply IH. exact H.
Qed.

Lemma forallb_firstn {B} (f : B -> bool) (n : nat) (l : list B) :
  forallb f l = true -> forallb f (firstn n l) = true.
Proof.
  revert l. induction n as [| n IH]; intros l H; [reflexivity |].
  destruct l as [| x l]; [reflexivity |]. simpl in *.
  apply andb_true_iff in H. destruct H as [Hx H].
  rewrite Hx, (IH l H). reflexivity.
Qed.

(** The section of a SearchResult is its block. *)
Lemma format_section_block (r : json) :
  is_search_result r = true -> format_section r = Ok (block_text r).
Proof.
  destruct r as [| | | | | | d]; try discriminate.
  unfold is_search_result, format_section, block_text, shown_hits, query_of, hits_of.
  intros H. apply andb_true_iff in H. destruct H as [Hp Ho].
  cbn [py_get bind].
  destruct (dict_get (lit "searchParameters") d) as [[| | | | | | params] |];
    try discriminate;
    (destruct (dict_get (lit "organic") d) as [[| | | | | hits |] |];
     try discriminate; cbn [py_get bind py_slice_items];
     [ rewrite (format_items_dicts (firstn 4 hits) [] (forallb_firstn _ 4 _ Ho));
       reflexivity
     | reflexivity ]).
Qed.

(** The outer loop on SearchResults: one block each, in order. *)
Lemma format_sections_blocks (results : list json) (acc : list str) :
  forallb is_search_result results = true ->
  format_sections results acc = Ok (acc ++ List.map block_text results).
Proof.
  revert acc. induction results as [| r results IH]; intros acc H; simpl.
  - rewrite app_nil_r. reflexivity.
  - simpl in H. apply andb_true_iff in H. destruct H as [Hr H].
    rewrite (format_section_block r Hr). simpl bind.
    rewrite (IH _ H), <- app_assoc. reflexivity.
Qed.

Lemma format_search_results_blocks (results : list json) :
  forallb is_search_result results = true ->
  format_search_results results
  = Ok (join section_separator (List.map block_text results)).
Proof.
  intros H. unfold format_search_results.
  rewrite (format_sections_blocks results [] H). reflexivity.
Qed.

Lemma shown_hits_bound (r : json) : length (shown_hits r) <= 4.
Proof.
  unfold shown_hits.
  etransitivity; [apply filter_length_le |]. apply firstn_le_length.
Qed.

Lemma empty_search_block (query : str) :
  is_search_result (empty_search query) = true /\
  query_of (empty_search query) = JStr query /\
  hits_of (empty_search query) = [] /\
  block_text (empty_search query) = header ++ query ++ nl ++ nl.
Proof. repeat split. Qed.

Lemma search_serper_failed (o : http_outcome) (query : str) :
  call_failed o -> search_serper o query = empty_search query.
Proof.
  destruct o as [| status body]; simpl; intros H; [reflexivity |].
  unfold search_serper, search_serper_try.
  destruct (Z.eqb_spec status 200) as [E | E]; [| reflexivity].
  destruct H as [H | [e ->]]; [contradiction | reflexivity].
Qed.

End FormatterFacts.

(* ================================================================== *)
(** * The contact extractor *)
(* ================================================================== *)

Section ExtractorFacts.

Context {RT : Runtime}.

(** The text before the leftmost separator holds no separator. *)
Lemma cut_prefix_free (sep s a b : str) :
  sep <> [] -> cut sep s = Some (a, b) -> contains sep a = false.
Proof.
  intros Hsep E. destruct (contains sep a) eqn:C; [| reflexivity].
  apply contains_iff in C. destruct C as (p & q & Ha).
  destruct (cut_leftmost sep s a b E) as [Hs Hmin].
  assert (Hlen : length a <= length p).
  { apply (Hmin p (q ++ sep ++ b)). rewrite Hs, Ha, <- !app_assoc. reflexivity. }
  rewrite Ha, !length_app in Hlen.
  assert (0 < length sep) by (destruct sep; [congruence | simpl; lia]).
  lia.
Qed.

Lemma upto_cut (sep s : str) :
  upto sep s (match cut sep s with Some (x, _) => x | None => s end).
Proof.
  destruct (cut sep s) as [[a b] |] eqn:E.
  - left. exists b. apply cut_leftmost. exact E.
  - right. split; [apply cut_none; exact E | reflexivity].
Qed.

Lemma py_nth_split_0 (sep s : str) :
  sep <> [] ->
  py_nth (split sep s) 0 = Ok (match cut sep s with Some (x, _) => x | None => s end).
Proof. intros Hsep. destruct (split_head sep s Hsep) as [rest ->]. reflexivity. Qed.

Lemma py_nth_split_1 (sep s a b : str) :
  sep <> [] -> cut sep s = Some (a, b) ->
  py_nth (split sep s) 1 = Ok (match cut sep b with Some (x, _) => x | None => b end).
Proof.
  intros Hsep E. rewrite (split_cut sep s a b Hsep E).
  destruct (split_head sep b Hsep) as [rest ->]. reflexivity.
Qed.

Lemma fence_json_nonempty : fence_json <> [].
Proof. discriminate. Qed.

Lemma fence_nonempty : fence <> [].
Proof. discriminate. Qed.

(** What is left of a reply once its fence is removed. *)
Lemma strip_fence_str (content : str) :
  exists payload : str,
    strip_fence (JStr content) = Ok (JStr payload) /\
    (contains fence_json content = true ->
     exists pre rest piece inner,
       leftmost fence_json content pre rest /\ upto fence_json rest piece /\
       upto fence piece inner /\ payload = strip inner) /\
    (contains fence_json content = false -> contains fence content = true ->
     exists pre rest inner,
       leftmost fence content pre rest /\ upto fence rest inner /\
       payload = strip inner) /\
    (contains fence content = false -> payload = content).
Proof.
  assert (Hsub : contains fence_json content = true -> contains fence content = true).
  { intros H. apply contains_iff in H. destruct H as (p & q & ->).
    apply contains_iff. exists p, (lit "json" ++ q). reflexivity. }
  unfold strip_fence. cbn [py_in bind].
  destruct (contains fence_json content) eqn:Cj.
  - destruct (cut_some fence_json content Cj) as (a & b & E).
    cbn [py_split bind].
    rewrite (py_nth_split_1 fence_json content a b fence_json_nonempty E).
    cbn [bind]. rewrite (py_nth_split_0 fence _ fence_nonempty). cbn [bind].
    eexists. split; [reflexivity |]. repeat split.
    + intros _. exists a, b. eexists. eexists.
      split; [apply cut_leftmost; exact E |].
      split; [apply upto_cut |]. split; [apply upto_cut | reflexivity].
    + discriminate.
    + intros H. rewrite (Hsub eq_refl) in H. discriminate.
  - destruct (contains fence content) eqn:Cf.
    + destruct (cut_some fence content Cf) as (a & b & E).
      cbn [py_split bind].
      rewrite (py_nth_split_1 fence content a b fence_nonempty E).
      cbn [bind]. rewrite (py_nth_split_0 fence _ fence_nonempty). cbn [bind].
      assert (Hinner :
                match cut fence (match cut fence b with
                                 | Some (x, _) => x
                                 | None => b
                                 end) with
                | Some (x, _) => x
                | None => match cut fence b with Some (x, _) => x | None => b end
                end
                = match cut fence b with Some (x, _) => x | None => b end).
      { destruct (cut fence b) as [[x y] |] eqn:Eb.
        - rewrite (proj2 (cut_none fence x)
                     (cut_prefix_free fence b x y fence_nonempty Eb)).
          reflexivity.
        - rewrite Eb. reflexivity. }
      rewrite Hinner.
      eexists. split; [reflexivity |]. repeat split.
      * discriminate.
      * intros _ _. exists a, b. eexists. split; [apply cut_leftmost; exact E |].
        split; [apply upto_cut | reflexivity].
      * discriminate.
    + eexists. split; [reflexivity |]. repeat split; discriminate.
Qed.

(** A completion is read down to its message text. *)
Lemma extract_llm_reply (content : str) :
  extract_all_contacts (llm_reply content)
  = match parse_contacts (JStr content) with
    | Ok contacts => contacts
    | Raise _ => []
    end.
Proof. reflexivity. Qed.

(** Decoding the payload: the array when there is one, nothing
    otherwise, and never an exception. *)
Lemma extract_decodes (content payload : str) :
  strip_fence (JStr content) = Ok (JStr payload) ->
  extract_all_contacts (llm_reply content)
  = match json_loads payload with
    | Ok (JArr contacts) => contacts
    | _ => []
    end.
Proof.
  intros H. rewrite extract_llm_reply. unfold parse_contacts, parse_contacts_try.
  rewrite H. cbn [bind loads].
  destruct (json_loads payload) as [[| | | | | |] | []]; reflexivity.
Qed.

End ExtractorFacts.

(** ** C1 *)

(** C1. For every reply text of the language model, the extractor takes
    the text after the first json-tagged fence when the reply has one,
    otherwise the text after the first bare fence when it has one, in
    both cases up to the next fence and stripped, otherwise the reply as
    it is; it decodes that as JSON and returns the array decoded, and the
    empty sequence when decoding fails or gives anything but an array,
    without raising.  The reply made of a json-tagged fence around an
    empty array gives the empty contact list. *)
Theorem fenced_reply_is_parsed_or_empty :
  (forall (RT : Runtime) (content : str),
      exists payload : str,
        strip_fence (JStr content) = Ok (JStr payload) /\
        (contains fence_json content = true ->
         exists pre rest piece inner,
           leftmost fence_json content pre rest /\ upto fence_json rest piece /\
           upto fence piece inner /\ payload = strip inner) /\
        (contains fence_json content = false -> contains fence content = true ->
         exists pre rest inner,
           leftmost fence content pre rest /\ upto fence rest inner /\
           payload = strip inner) /\
        (contains fence content = false -> payload = content) /\
        extract_all_contacts (llm_reply content)
        = match json_loads payload with
          | Ok (JArr contacts) => contacts
          | _ => []
          end) /\
  strip_fence (JStr Samples.fenced_empty_array) = Ok (JStr (lit "[]")) /\
  (forall RT : Runtime,
      json_loads (lit "[]") = Ok (JArr []) ->
      extract_all_contacts (llm_reply Samples.fenced_empty_array) = []) /\
  @extract_all_contacts reference_runtime (llm_reply Samples.fenced_empty_array) = [].
Proof.
  split; [| split; [reflexivity | split; [| reflexivity]]].
  - intros RT content.
    destruct (strip_fence_str content) as (payload & H & H1 & H2 & H3).
    exists payload. repeat split; try assumption.
    apply extract_decodes. exact H.
  - intros RT H.
    rewrite (extract_decodes Samples.fenced_empty_array (lit "[]") eq_refl), H.
    reflexivity.
Qed.

(** The scenario of C1 on the reference decoder. *)
Lemma fenced_reply_witness :
  @json_loads reference_runtime (lit "[]") = Ok (JArr []) /\
  @extract_all_contacts reference_runtime (llm_reply Samples.fenced_empty_array) = [].
Proof.
  split; [reflexivity |].
  apply (proj1 (proj2 (proj2 fenced_reply_is_parsed_or_empty)) reference_runtime).
  reflexivity.
Defined.

(** ** C2 *)

(** C2. For every query, a search call that meets a transport error, a
    status other than 200 or a body it cannot read returns, without
    raising, the search result with no hit and with the query it was
    given; formatted alone or among other results, it gives the header of
    that query followed by no hit. *)
Theorem search_client_fails_soft :
  forall (RT : Runtime) (o : http_outcome) (query : str),
    call_failed o ->
    search_serper o query
    = JObj [ (lit "organic", JArr []);
             (lit "searchParameters", JObj [ (lit "q", JStr query) ]) ] /\
    hits_of (search_serper o query) = [] /\
    query_of (search_serper o query) = JStr query /\
    format_search_results [search_serper o query]
    = Ok (lit "**Search Query:** " ++ query ++ nl ++ nl) /\
    (forall before after : list json,
        forallb is_search_result before = true ->
        forallb is_search_result after = true ->
        format_search_results (before ++ search_serper o query :: after)
        = Ok (join section_separator
                (List.map block_text before
                   ++ (lit "**Search Query:** " ++ query ++ nl ++ nl)
                   :: List.map block_text after))).
Proof.
  intros RT o query H. rewrite (search_serper_failed o query H).
  destruct (empty_search_block query) as (Hw & Hq & Hh & Hb).
  repeat split.
  intros before after Hbefore Hafter.
  rewrite format_search_results_blocks.
  - rewrite map_app. cbn [List.map]. rewrite Hb. reflexivity.
  - rewrite forallb_app. cbn [forallb]. rewrite Hbefore, Hafter, Hw. reflexivity.
Qed.

(** A transport error on a query of Acme. *)
Lemma search_client_witness :
  call_failed Failed /\
  @format_search_results reference_runtime [search_serper Failed (lit "acme.com Acme CEO")]
  = Ok (lit "**Search Query:** acme.com Acme CEO" ++ nl ++ nl).
Proof.
  split; [exact I |].
  exact (proj1 (proj2 (proj2 (proj2
           (search_client_fails_soft reference_runtime Failed
              (lit "acme.com Acme CEO") I))))).
Defined.

(** ** C5 *)

(** C5. For every sequence of SearchResults, the formatter returns the
    blocks of the results, one block per result and in the order of the
    input, joined by three newlines.  A block is the header
    "**Search Query:** " with the query, a blank line, and the hits it
    shows, each as title, link and snippet, joined by a newline, three
    dashes and a newline.  The hits shown are those of the first four
    that have a title, a link and a snippet: at most four, the others
    skipped without an error. *)
Theorem formatter_one_block_per_result :
  forall (RT : Runtime) (results : list json),
    forallb is_search_result results = true ->
    exists blocks : list str,
      format_search_results results = Ok (join (nl ++ nl ++ nl) blocks) /\
      length blocks = length results /\
      forall (i : nat) (r : json),
        nth_error results i = Some r ->
        exists shown : list json,
          shown = filter complete_hit (firstn 4 (hits_of r)) /\
          length shown <= 4 /\
          nth_error blocks i
          = Some (lit "**Search Query:** " ++ to_text (query_of r) ++ nl ++ nl
                    ++ join (nl ++ lit "---" ++ nl) (List.map hit_text shown)).
Proof.
  intros RT results H. exists (List.map block_text results).
  split; [apply format_search_results_blocks; exact H |].
  split; [apply length_map |].
  intros i r Hi. exists (shown_hits r).
  split; [reflexivity |]. split; [apply shown_hits_bound |].
  rewrite nth_error_map, Hi. reflexivity.
Qed.

(** A failed search and a search with five hits, one incomplete. *)
Lemma formatter_witness :
  forallb is_search_result [empty_search (lit "q"); Samples.busy_result] = true /\
  exists blocks : list str,
    @format_search_results reference_runtime
      [empty_search (lit "q"); Samples.busy_result]
    = Ok (join (nl ++ nl ++ nl) blocks) /\
    length blocks = 2.
Proof.
  split; [reflexivity |].
  destruct (formatter_one_block_per_result reference_runtime
              [empty_search (lit "q"); Samples.busy_result] eq_refl)
    as (blocks & Hout & Hlen & _).
  exists blocks. split; [exact Hout | exact Hlen].
Defined.

(** ** C7 *)

(** C7. For every extracted contact record, normalization sets domain
    and company_name to the values of the company, whatever they were,
    puts the validated linkedin_url in place of the one found (of the
    empty string when there was none), adds generic_email with the empty
    string when the key is absent and keeps it otherwise, and leaves
    every other field as it was.  The contacts a company returns are the
    records normalized, one for one and in order, and a batch only
    concatenates what its companies return. *)
Theorem normalizer_sets_four_fields_only :
  (forall (domain company_name : str) (d : dict),
      exists d' : dict,
        normalize_contact domain company_name (JObj d) = Ok (JObj d') /\
        dict_get (lit "domain") d' = Some (JStr domain) /\
        dict_get (lit "company_name") d' = Some (JStr company_name) /\
        dict_get (lit "linkedin_url") d'
        = Some (JStr (_validate_linkedin_url
                        (match dict_get (lit "linkedin_url") d with
                         | Some u => u
                         | None => JStr []
                         end))) /\
        dict_get (lit "generic_email") d'
        = Some (match dict_get (lit "generic_email") d with
                | Some e => e
                | None => JStr []
                end) /\
        (forall k : str,
            k <> lit "domain" -> k <> lit "company_name" ->
            k <> lit "linkedin_url" -> k <> lit "generic_email" ->
            dict_get k d' = dict_get k d) /\
        dict_get (lit "first_name") d' = dict_get (lit "first_name") d /\
        dict_get (lit "last_name") d' = dict_get (lit "last_name") d /\
        dict_get (lit "title") d' = dict_get (lit "title") d /\
        dict_get (lit "source_url") d' = dict_get (lit "source_url") d /\
        dict_get (lit "company_phone") d' = dict_get (lit "company_phone") d) /\
  (forall (RT : Runtime) (env : company_env) (domain company_name : str)
          (out : list json),
      process_company env domain company_name = Ok out ->
      exists summary : str,
        Forall2 (fun c c' => normalize_contact domain company_name c = Ok c')
                (extract_all_contacts (openrouter env summary)) out) /\
  (forall (RT : Runtime) (envs : nat -> company_env) (companies : list Company)
          (out : list json),
      process_batch envs companies = Ok out ->
      exists per_company : list (list json),
        gather (batch_tasks envs 0 companies) = Ok per_company /\
        out = concat per_company).
Proof.
  split; [| split].
  - intros domain company_name d.
    destruct (normalize_contact_dict domain company_name d)
      as (d' & H & Hd & Hn & Hu & Hg & Hf).
    exists d'. repeat split; try assumption; apply Hf; discriminate.
  - intros RT env domain company_name out. unfold process_company.
    destruct (company_queries domain company_name) as [queries | e];
      [| discriminate].
    cbn [bind].
    destruct (format_search_results (search_all env 0 queries)) as [summary | e];
      [| discriminate].
    cbn [bind]. intros H. exists summary.
    apply normalize_contacts_each. exact H.
  - intros RT envs companies out. unfold process_batch.
    destruct (gather (batch_tasks envs 0 companies)) as [rs | e]; [| discriminate].
    cbn [bind]. intros [= <-]. exists rs. split; [reflexivity |].
    apply flatten_concat.
Qed.

(** The company of the second row of the sample table, whose reply holds
    one contact. *)
Lemma normalizer_witness :
  exists out,
    @process_company reference_runtime (Samples.one_bad_reply 1)
      (lit "globex.com") (lit "Globex") = Ok out /\
    exists summary,
      Forall2 (fun c c' => normalize_contact (lit "globex.com") (lit "Globex") c = Ok c')
              (@extract_all_contacts reference_runtime
                 (openrouter (Samples.one_bad_reply 1) summary)) out.
Proof.
  eexists. split; [reflexivity |].
  apply (proj1 (proj2 normalizer_sets_four_fields_only) reference_runtime).
  reflexivity.
Defined.

(** ** C10 *)

(** C10. Whenever the LinkedIn predicate accepts, its input is a string
    and the value returned is that string without its leading and
    trailing whitespace: the input is whitespace, the value, whitespace,
    and the value neither starts nor ends with whitespace.  So the
    linkedin_url of a normalized contact is empty or trimmed, and a valid
    URL between whitespace is accepted in trimmed form. *)
Theorem linkedin_accepted_value_is_trimmed :
  (forall url : json,
      _validate_linkedin_url url <> [] ->
      exists s l r : str,
        url = JStr s /\
        _validate_linkedin_url url = strip s /\
        s = l ++ _validate_linkedin_url url ++ r /\
        forallb is_space l = true /\ forallb is_space r = true /\
        match _validate_linkedin_url url with
        | [] => True
        | c :: _ => is_space c = false
        end /\
        match rev (_validate_linkedin_url url) with
        | [] => True
        | c :: _ => is_space c = false
        end) /\
  (forall (domain company_name : str) (d : dict) (c' : json),
      normalize_contact domain company_name (JObj d) = Ok c' ->
      exists (d' : dict) (u : str),
        c' = JObj d' /\ dict_get (lit "linkedin_url") d' = Some (JStr u) /\
        match u with [] => True | c :: _ => is_space c = false end /\
        match rev u with [] => True | c :: _ => is_space c = false end) /\
  _validate_linkedin_url
    (JStr (lit "  https://www.linkedin.com/in/jane-doe-123 " ++ nl))
  = lit "https://www.linkedin.com/in/jane-doe-123".
Proof.
  assert (Htrim : forall url,
             match _validate_linkedin_url url with
             | [] => True
             | c :: _ => is_space c = false
             end /\
             match rev (_validate_linkedin_url url) with
             | [] => True
             | c :: _ => is_space c = false
             end).
  { intros url. destruct (_validate_linkedin_url url) as [| c0 t] eqn:E.
    - split; exact I.
    - assert (Hne : _validate_linkedin_url url <> []) by congruence.
      destruct (validate_inv url Hne) as (s & _ & _ & _ & _ & Hv).
      destruct (strip_spec s) as (l & r & _ & _ & _ & Hh & Hl).
      rewrite <- Hv, E in Hh, Hl. split; assumption. }
  split; [| split; [| reflexivity]].
  - intros url H.
    destruct (validate_inv url H) as (s & Hs & _ & _ & _ & Hv).
    destruct (strip_spec s) as (l & r & Hsplit & Hl & Hr & Hh & Hlast).
    exists s, l, r. rewrite Hv. repeat split; assumption.
  - intros domain company_name d c' H.
    destruct (normalize_contact_dict domain company_name d)
      as (d' & E & _ & _ & Hu & _).
    rewrite E in H. injection H as <-.
    eexists. eexists. split; [reflexivity |]. split; [exact Hu |]. apply Htrim.
Qed.

(** A profile URL between spaces and a newline. *)
Lemma linkedin_trimmed_witness :
  _validate_linkedin_url
    (JStr (lit "  https://www.linkedin.com/in/jane-doe-123 " ++ nl)) <> [] /\
  exists s l r : str,
    JStr (lit "  https://www.linkedin.com/in/jane-doe-123 " ++ nl) = JStr s /\
    _validate_linkedin_url
      (JStr (lit "  https://www.linkedin.com/in/jane-doe-123 " ++ nl)) = strip s /\
    forallb is_space l = true /\ forallb is_space r = true.
Proof.
  assert (H : _validate_linkedin_url
                (JStr (lit "  https://www.linkedin.com/in/jane-doe-123 " ++ nl)) <> [])
    by discriminate.
  split; [exact H |].
  destruct (proj1 linkedin_accepted_value_is_trimmed _ H)
    as (s & l & r & Hs & Hv & _ & Hl & Hr & _).
  exists s, l, r. repeat split; assumption.
Defined.

(** ** C8 *)

(** C8. For every company, the query generator returns, without
    failing, exactly five queries, one per template in the order of the
    templates, each made of the domain, a space, the company name and the
    words of its role; so each holds the domain and the company name as
    they are. *)
Theorem five_queries_per_company :
  forall domain company_name : str,
    company_queries domain company_name
    = Ok [ domain ++ lit " " ++ company_name ++ lit " CEO -zoominfo -dnb";
           domain ++ lit " " ++ company_name ++ lit " Founder owner -zoominfo -dnb";
           domain ++ lit " " ++ company_name ++ lit " president chairman -zoominfo -dnb";
           domain ++ lit " " ++ company_name ++ lit " partner -zoominfo -dnb";
           domain ++ lit " " ++ company_name ++ lit " contact email" ] /\
    exists queries : list str,
      company_queries domain company_name = Ok queries /\
      length queries = 5 /\ length queries = length search_queries /\
      forall q, In q queries ->
                contains domain q = true /\ contains company_name q = true.
Proof.
  intros domain company_name.
  assert (E : company_queries domain company_name
              = Ok [ domain ++ lit " " ++ company_name ++ lit " CEO -zoominfo -dnb";
                     domain ++ lit " " ++ company_name ++ lit " Founder owner -zoominfo -dnb";
                     domain ++ lit " " ++ company_name
                       ++ lit " president chairman -zoominfo -dnb";
                     domain ++ lit " " ++ company_name ++ lit " partner -zoominfo -dnb";
                     domain ++ lit " " ++ company_name ++ lit " contact email" ])
    by reflexivity.
  split; [exact E |]. eexists. split; [exact E |].
  split; [reflexivity |]. split; [reflexivity |].
  intros q Hq. simpl in Hq.
  destruct Hq as [<- | [<- | [<- | [<- | [<- | []]]]]];
    (split; apply contains_iff;
     [ exists []; eexists; reflexivity
     | exists (domain ++ lit " "); eexists; rewrite <- app_assoc; reflexivity ]).
Qed.

(* ================================================================== *)
(** * The run over a whole table *)
(* ================================================================== *)

Section RunFacts.

Context {RT : Runtime}.

Lemma nth_error_map_seq {B} (f : nat -> B) (q k : nat) :
  nth_error (List.map f (seq 0 q)) k = if k <? q then Some (f k) else None.
Proof.
  induction q as [| q IH].
  - destruct k; reflexivity.
  - rewrite seq_S, map_app. simpl.
    destruct (Nat.ltb_spec k q) as [Hlt | Hge].
    + rewrite nth_error_app1 by (rewrite length_map, length_seq; exact Hlt).
      rewrite IH. destruct (Nat.ltb_spec k q); [| lia].
      destruct (Nat.ltb_spec k (S q)); [reflexivity | lia].
    + rewrite nth_error_app2 by (rewrite length_map, length_seq; exact Hge).
      rewrite length_map, length_seq.
      destruct (Nat.ltb_spec k (S q)) as [Hlt' | Hge'].
      * replace k with q by lia. rewrite Nat.sub_diag. reflexivity.
      * destruct (k - q) as [| m] eqn:Ekq; [lia |]. destruct m; reflexivity.
Qed.

Lemma batches_length (bs : nat) (df : list Company) :
  length (batches bs df) = (length df + bs - 1) / bs.
Proof.
  unfold batches. rewrite length_map, py_range_0, length_map, length_seq.
  reflexivity.
Qed.

(** The [k]-th batch: the rows from [k * bs] on, [bs] of them while the
    table lasts. *)
Lemma batches_nth (bs : nat) (df : list Company) (k : nat) (chunk : list Company) :
  0 < bs ->
  nth_error (batches bs df) k = Some chunk ->
  chunk = slice df (k * bs) (k * bs + bs) /\
  length chunk = Nat.min bs (length df - k * bs) /\
  1 <= length chunk <= bs /\
  (S k < length (batches bs df) -> length chunk = bs).
Proof.
  intros Hbs H. rewrite batches_length. unfold batches in H.
  rewrite py_range_0, map_map, nth_error_map_seq in H.
  destruct (Nat.ltb_spec k ((length df + bs - 1) / bs)) as [Hk | Hk];
    [| discriminate].
  injection H as <-. split; [reflexivity |]. rewrite slice_length.
  assert (Hn : 0 < length df).
  { destruct (length df) as [| n]; [| lia].
    rewrite Nat.div_small in Hk; lia. }
  pose proof (ceil_tight (length df) bs Hbs Hn) as Ht.
  assert (Hkn : k * bs < length df) by nia.
  split; [reflexivity |]. split; [lia |].
  intros Hlast. assert (S k * bs < length df) by nia. lia.
Qed.

Lemma nth_error_slice_lt {B} (l : list B) (i bs j : nat) :
  j < bs -> nth_error (slice l i (i + bs)) j = nth_error l (i + j).
Proof.
  intros Hj. rewrite slice_from, nth_error_firstn.
  destruct (Nat.ltb_spec j bs); [| lia]. apply nth_error_skipn.
Qed.

(** One company that raises makes the loop raise, wherever its row is and
    whatever the other companies give. *)
Lemma run_batches_raises_any (bs : nat) (env : nat -> company_env)
    (df : list Company) (r : nat) (company : Company) (e : exn) :
  0 < bs ->
  nth_error df r = Some company ->
  process_company (env r) (Domain company) (Company_Name company) = Raise e ->
  exists e', snd (run_batches bs env df (py_range 0 (length df) bs) [] []) = Raise e'.
Proof.
  intros Hbs Hr He.
  assert (Hlt : r < length df) by (apply nth_error_Some; congruence).
  pose proof (Nat.div_mod_eq r bs) as Hdm.
  pose proof (Nat.mod_upper_bound r bs ltac:(lia)) as Hmod.
  assert (Hrow : r / bs * bs + r mod bs = r) by lia.
  assert (Hin : In (r / bs * bs) (py_range 0 (length df) bs)).
  { rewrite py_range_0.
    apply (in_map (fun k => k * bs) (seq 0 ((length df + bs - 1) / bs)) (r / bs)).
    apply in_seq. split; [lia |]. simpl.
    apply Nat.Div0.div_lt_upper_bound.
    pose proof (ceil_covers (length df) bs Hbs). lia. }
  destruct (process_batch_raises (fun j => env (r / bs * bs + j))
              (slice df (r / bs * bs) (r / bs * bs + bs)) (r mod bs) company e)
    as [e1 He1].
  - rewrite nth_error_slice_lt by exact Hmod. rewrite Hrow. exact Hr.
  - rewrite Hrow. exact He.
  - apply (run_batches_raises bs env df _ [] [] (r / bs * bs) e1 Hin He1).
Qed.

Lemma run_raises_any (env : nat -> company_env) (df : list Company)
    (r : nat) (company : Company) (e : exn) :
  nth_error df r = Some company ->
  process_company (env r) (Domain company) (Company_Name company) = Raise e ->
  exists e', snd (run env df) = Raise e'.
Proof.
  intros Hr He.
  destruct (run_batches_raises_any batch_size env df r company e) as [e' He'];
    try assumption; [unfold batch_size; lia |].
  destruct (run_batches batch_size env df (py_range 0 (length df) batch_size) [] [])
    as [log loop] eqn:E.
  rewrite (run_of_loop env df log loop E). cbn [snd] in *. subst loop.
  exists e'. reflexivity.
Qed.

Lemma search_all_results (env : company_env) (i : nat) (queries : list str) :
  (forall k q, is_search_result (search_serper (serper env k q) q) = true) ->
  forallb is_search_result (search_all env i queries) = true.
Proof.
  intros H. revert i. induction queries as [| q qs IH]; intros i; simpl.
  - reflexivity.
  - rewrite (H i q), (IH (S i)). reflexivity.
Qed.

(** A company completes whenever what its searches return are
    SearchResults and the array the model replies holds objects only:
    the failures of the calls themselves are absorbed where they occur. *)
Lemma process_company_completes (env : company_env) (domain company_name : str) :
  (forall k q, is_search_result (search_serper (serper env k q) q) = true) ->
  (forall summary,
      Forall (fun c => exists d, c = JObj d)
             (extract_all_contacts (openrouter env summary))) ->
  exists out, process_company env domain company_name = Ok out.
Proof.
  intros Hs Hc. unfold process_company.
  destruct (company_queries domain company_name) as [queries | e] eqn:Eq.
  - cbn [bind].
    rewrite (format_search_results_blocks _ (search_all_results env 0 queries Hs)).
    cbn [bind]. apply normalize_contacts_dicts. apply Hc.
  - exfalso. revert Eq. unfold company_queries. cbn. discriminate.
Qed.

End RunFacts.

(* ================================================================== *)
(** * The batches of a run *)
(* ================================================================== *)

Section ChunkFacts.

Context {RT : Runtime}.

Lemma batches_nth_some (bs : nat) (df : list Company) (k : nat) :
  k < (length df + bs - 1) / bs ->
  nth_error (batches bs df) k = Some (slice df (k * bs) (k * bs + bs)).
Proof.
  intros Hk. unfold batches. rewrite py_range_0, map_map, nth_error_map_seq.
  destruct (Nat.ltb_spec k ((length df + bs - 1) / bs)); [reflexivity | lia].
Qed.

Lemma batches_nth_lt (bs : nat) (df : list Company) (k : nat) (chunk : list Company) :
  nth_error (batches bs df) k = Some chunk -> k < (length df + bs - 1) / bs.
Proof.
  intros H. rewrite <- batches_length. apply nth_error_Some. congruence.
Qed.

(** The lines of the batches numbered from 1 to [n], of [q] in all. *)
Lemma lines_of_starts (bs n q : nat) (count : nat -> nat) (m : nat) :
  0 < bs ->
  concat (List.map (fun i => [ Processing_batch (i / bs + 1) q;
                               Batch_complete (i / bs + 1) (count (i / bs)) ])
                   (List.map (fun k => k * bs) (seq 0 m)))
  = concat (List.map (fun k => [ Processing_batch (k + 1) q;
                                 Batch_complete (k + 1) (count k) ])
                     (seq 0 m)).
Proof.
  intros Hbs. rewrite map_map. f_equal. apply map_ext. intros k.
  rewrite Nat.div_mul by lia. reflexivity.
Qed.

(** The loop when every batch completes: each batch is handed to
    [process_batch] in turn, and its contacts are counted and kept. *)
Lemma run_batches_chunks_ok (bs : nat) (env : nat -> company_env)
    (df : list Company) (results_of : nat -> list json) :
  0 < bs ->
  (forall k chunk,
      nth_error (batches bs df) k = Some chunk ->
      process_batch (fun j => env (k * bs + j)) chunk = Ok (results_of k)) ->
  run_batches bs env df (py_range 0 (length df) bs) [] []
  = (concat (List.map
               (fun k => [ Processing_batch (k + 1) ((length df + bs - 1) / bs);
                           Batch_complete (k + 1) (length (results_of k)) ])
               (seq 0 ((length df + bs - 1) / bs))),
     Ok (concat (List.map results_of (seq 0 ((length df + bs - 1) / bs))))).
Proof.
  intros Hbs H.
  rewrite (run_batches_ok bs env df (fun i => results_of (i / bs))).
  - rewrite py_range_0. unfold batch_lines. cbn [app].
    rewrite (lines_of_starts bs (length df) _ (fun k => length (results_of k)) _ Hbs).
    f_equal. f_equal. f_equal. rewrite map_map. apply map_ext. intros k.
    rewrite Nat.div_mul by lia. reflexivity.
  - intros i Hi. rewrite py_range_0 in Hi. apply in_map_iff in Hi.
    destruct Hi as (k & <- & Hk). apply in_seq in Hk.
    rewrite Nat.div_mul by lia. apply H. apply batches_nth_some. lia.
Qed.

(** The loop when the batches before the [n]-th complete and the [n]-th
    raises. *)
Lemma run_batches_chunks_stop (bs : nat) (env : nat -> company_env)
    (df : list Company) (results_of : nat -> list json) (n : nat)
    (chunk : list Company) (e : exn) :
  0 < bs ->
  nth_error (batches bs df) n = Some chunk ->
  (forall k chunk_k,
      k < n -> nth_error (batches bs df) k = Some chunk_k ->
      process_batch (fun j => env (k * bs + j)) chunk_k = Ok (results_of k)) ->
  process_batch (fun j => env (n * bs + j)) chunk = Raise e ->
  run_batches bs env df (py_range 0 (length df) bs) [] []
  = (concat (List.map
               (fun k => [ Processing_batch (k + 1) ((length df + bs - 1) / bs);
                           Batch_complete (k + 1) (length (results_of k)) ])
               (seq 0 n))
       ++ [Processing_batch (n + 1) ((length df + bs - 1) / bs)],
     Raise e).
Proof.
  intros Hbs Hn Hbefore He.
  pose proof (batches_nth_lt bs df n chunk Hn) as Hlt.
  rewrite (batches_nth_some bs df n Hlt) in Hn. injection Hn as <-.
  rewrite py_range_0.
  replace ((length df + bs - 1) / bs)
    with (n + S ((length df + bs - 1) / bs - S n)) at 1 by lia.
  rewrite seq_app, map_app. cbn [seq List.map].
  rewrite (run_batches_stops bs env df (fun i => results_of (i / bs))
             (List.map (fun k => k * bs) (seq 0 n)) _ (n * bs) e [] []).
  - cbn [app]. unfold batch_lines.
    rewrite (lines_of_starts bs (length df) _ (fun k => length (results_of k)) _ Hbs).
    rewrite Nat.div_mul by lia. reflexivity.
  - intros i Hi. apply in_map_iff in Hi. destruct Hi as (k & <- & Hk).
    apply in_seq in Hk. rewrite Nat.div_mul by lia.
    apply Hbefore; [lia |]. apply batches_nth_some. lia.
  - exact He.
Qed.

Lemma slice_map_seq {B} (f : nat -> B) (n i bs : nat) :
  slice (List.map f (seq 0 n)) i (i + bs)
  = List.map f (seq i (Nat.min bs (n - i))).
Proof.
  rewrite slice_from, skipn_map, firstn_map, skipn_seq, firstn_of_seq. reflexivity.
Qed.

End ChunkFacts.

(** ** C6 *)

(** C6. For every table of companies, the batches of the scheduler are
    consecutive pieces of the table, fourteen rows each but for the last,
    which has between one and fourteen; there are as many as the length
    divided by fourteen, rounded up, and fifteen rows give two batches of
    fourteen and one.  The run hands these batches to [process_batch]
    one after the other, each complete before the next begins: when they
    all complete it has printed, batch by batch, the line that starts the
    batch and the line that counts its contacts, and goes on to write
    and return the contacts of the batches in order; when one raises,
    the batches after it are not started.  When every company completes,
    each batch gives the contacts of its companies in their order, and
    the contacts the run writes and returns are those of the companies
    in the order of the table. *)
Theorem batch_scheduler_keeps_order :
  forall (RT : Runtime) (df : list Company),
    concat (batches batch_size df) = df /\
    length (batches batch_size df) = (length df + 13) / 14 /\
    (forall (k : nat) (chunk : list Company),
        nth_error (batches batch_size df) k = Some chunk ->
        chunk = slice df (k * 14) (k * 14 + 14) /\
        length chunk = Nat.min 14 (length df - k * 14) /\
        1 <= length chunk <= 14 /\
        (S k < length (batches batch_size df) -> length chunk = 14)) /\
    (length df = 15 -> List.map (@length Company) (batches batch_size df) = [14; 1]) /\
    (forall (env : nat -> company_env) (results_of : nat -> list json),
        (forall k chunk,
            nth_error (batches batch_size df) k = Some chunk ->
            process_batch (fun j => env (k * 14 + j)) chunk = Ok (results_of k)) ->
        run env df
        = (concat (List.map
                     (fun k => [ Processing_batch (k + 1) (length (batches batch_size df));
                                 Batch_complete (k + 1) (length (results_of k)) ])
                     (seq 0 (length (batches batch_size df)))),
           all_results <-
             Ok (concat (List.map results_of
                           (seq 0 (length (batches batch_size df))))) ;;
           match saved_csv all_results with
           | None => Ok all_results
           | Some results_csv => written <- to_csv results_csv ;; Ok all_results
           end)) /\
    (forall (env : nat -> company_env) (results_of : nat -> list json)
            (n : nat) (chunk : list Company) (e : exn),
        nth_error (batches batch_size df) n = Some chunk ->
        (forall k chunk_k,
            k < n -> nth_error (batches batch_size df) k = Some chunk_k ->
            process_batch (fun j => env (k * 14 + j)) chunk_k = Ok (results_of k)) ->
        process_batch (fun j => env (n * 14 + j)) chunk = Raise e ->
        run env df
        = (concat (List.map
                     (fun k => [ Processing_batch (k + 1) (length (batches batch_size df));
                                 Batch_complete (k + 1) (length (results_of k)) ])
                     (seq 0 n))
             ++ [Processing_batch (n + 1) (length (batches batch_size df))],
           Raise e)) /\
    (forall (env : nat -> company_env) (contacts_of : nat -> list json),
        (forall r company,
            nth_error df r = Some company ->
            process_company (env r) (Domain company) (Company_Name company)
            = Ok (contacts_of r)) ->
        (forall k chunk,
            nth_error (batches batch_size df) k = Some chunk ->
            process_batch (fun j => env (k * 14 + j)) chunk
            = Ok (concat (List.map contacts_of (seq (k * 14) (length chunk))))) /\
        snd (run env df)
        = (all_results <- Ok (concat (List.map contacts_of (seq 0 (length df)))) ;;
           match saved_csv all_results with
           | None => Ok all_results
           | Some results_csv => written <- to_csv results_csv ;; Ok all_results
           end)).
Proof.
  intros RT df.
  assert (Hbs : 0 < batch_size) by (unfold batch_size; lia).
  split; [apply (concat_range_slices _ df batch_size Hbs) |].
  split; [rewrite batches_length; unfold batch_size;
          replace (length df + 14 - 1) with (length df + 13) by lia; reflexivity |].
  split; [intros k chunk H; apply (batches_nth batch_size df k chunk Hbs H) |].
  split.
  { intros H15. unfold batches. rewrite H15.
    change (py_range 0 15 batch_size) with [0; 14]. cbn [List.map].
    rewrite !slice_length, H15. reflexivity. }
  assert (Hchunks : forall (env : nat -> company_env) (contacts_of : nat -> list json),
             (forall r company,
                 nth_error df r = Some company ->
                 process_company (env r) (Domain company) (Company_Name company)
                 = Ok (contacts_of r)) ->
             forall k chunk,
               nth_error (batches batch_size df) k = Some chunk ->
               process_batch (fun j => env (k * batch_size + j)) chunk
               = Ok (concat (List.map contacts_of (seq (k * batch_size) (length chunk))))).
  { intros env contacts_of H k chunk Hk.
    destruct (batches_nth batch_size df k chunk Hbs Hk) as (-> & _).
    rewrite (batch_of_rows batch_size env df contacts_of (k * batch_size) H).
    rewrite slice_map_seq, slice_length. reflexivity. }
  split; [| split].
  - intros env results_of H. rewrite batches_length.
    apply run_of_loop. apply (run_batches_chunks_ok batch_size env df results_of Hbs H).
  - intros env results_of n chunk e Hn Hbefore He. rewrite batches_length.
    rewrite (run_of_loop env df _ _
               (run_batches_chunks_stop batch_size env df results_of n chunk e
                  Hbs Hn Hbefore He)).
    reflexivity.
  - intros env contacts_of H. split; [apply (Hchunks env contacts_of H) |].
    destruct (run_in_order batch_size env df contacts_of Hbs H) as [found Hrun].
    rewrite (run_of_loop env df _ _ Hrun). reflexivity.
Qed.

(** Fifteen rows whose companies all give no contact. *)
Lemma batch_scheduler_witness :
  (forall k chunk,
      nth_error (batches batch_size Samples.fifteen) k = Some chunk ->
      @process_batch reference_runtime
        (fun j => Samples.answering (lit "[]")) chunk = Ok []) /\
  @run reference_runtime (fun _ => Samples.answering (lit "[]")) Samples.fifteen
  = ([ Processing_batch 1 2; Batch_complete 1 0;
       Processing_batch 2 2; Batch_complete 2 0 ], Ok []).
Proof.
  assert (H : forall k chunk,
             nth_error (batches batch_size Samples.fifteen) k = Some chunk ->
             @process_batch reference_runtime
               (fun j => Samples.answering (lit "[]")) chunk = Ok []).
  { intros [| [| k]] chunk Hk; vm_compute in Hk;
      [injection Hk as <- | injection Hk as <- | destruct k; discriminate];
      vm_compute; reflexivity. }
  split; [exact H |].
  exact (proj1 (proj2 (proj2 (proj2 (proj2
           (batch_scheduler_keeps_order reference_runtime Samples.fifteen)))))
           (fun _ => Samples.answering (lit "[]")) (fun _ => []) H).
Defined.

(** ** C9 *)

(** C9, as the code has it.  The merge of the records of one person is
    asked of the language model by the system prompt; the program merges
    nothing.  What a company returns has one record for each record of
    the array the model replied, in the same order, and as many records
    of a given first and last name as that array has. *)
Theorem program_performs_no_merge :
  forall (RT : Runtime) (env : company_env) (domain company_name : str)
         (out : list json),
    process_company env domain company_name = Ok out ->
    exists summary : str,
      Forall2 (fun c c' => normalize_contact domain company_name c = Ok c')
              (extract_all_contacts (openrouter env summary)) out /\
      length out = length (extract_all_contacts (openrouter env summary)) /\
      forall first last : str,
        count_person first last out
        = count_person first last (extract_all_contacts (openrouter env summary)).
Proof.
  intros RT env domain company_name out. unfold process_company.
  destruct (company_queries domain company_name) as [queries | e]; [| discriminate].
  cbn [bind].
  destruct (format_search_results (search_all env 0 queries)) as [summary | e];
    [| discriminate].
  cbn [bind]. intros H. exists summary.
  pose proof (normalize_contacts_each domain company_name _ out H) as HF.
  split; [exact HF |].
  split; [apply (normalize_keeps_count domain company_name [] [] _ out HF) |].
  intros first last.
  apply (normalize_keeps_count domain company_name first last _ out HF).
Qed.

(** The company whose pages name Clint Dorman under two titles, with a
    model that returns both records. *)
Lemma no_merge_witness :
  exists out,
    @process_company reference_runtime Samples.clint_env (lit "acme.com") (lit "Acme")
    = Ok out /\
    exists summary : str,
      length out
      = length (@extract_all_contacts reference_runtime
                  (openrouter Samples.clint_env summary)).
Proof.
  eexists. split; [reflexivity |].
  destruct (program_performs_no_merge reference_runtime Samples.clint_env
              (lit "acme.com") (lit "Acme") _ eq_refl)
    as (summary & _ & Hlen & _).
  exists summary. exact Hlen.
Defined.

(** The scenario of C9 with a model that returns both records: the pages
    found name Clint Dorman under both titles, the summary sent to the
    model holds both, the reply decodes to the two records, and the run
    returns two records of Clint Dorman, not one. *)
Lemma both_records_reach_the_output :
  exists (summary : str) (short long : json) (out : list json),
    (queries <- company_queries (lit "acme.com") (lit "Acme") ;;
     @format_search_results reference_runtime
       (search_all Samples.clint_env 0 queries)) = Ok summary /\
    contains (lit "Clint Dorman, VP Finance") summary = true /\
    contains (lit "Clint Dorman, VP of Finance and Operations") summary = true /\
    @extract_all_contacts reference_runtime (openrouter Samples.clint_env summary)
    = [short; long] /\
    snd (@run reference_runtime (fun _ => Samples.clint_env) [Samples.acme]) = Ok out /\
    count_person (lit "Clint") (lit "Dorman") out = 2 /\
    count_person (lit "Clint") (lit "Dorman") out <> 1.
Proof.
  eexists. eexists. eexists. eexists.
  split; [vm_compute; reflexivity |].
  split; [vm_compute; reflexivity |].
  split; [vm_compute; reflexivity |].
  split; [vm_compute; reflexivity |].
  split; [vm_compute; reflexivity |].
  split; [vm_compute; reflexivity | vm_compute; discriminate].
Qed.

(** ** C3 *)

(** C3 at a failing input.  The table has two companies.  For the first
    the model replies a JSON array holding a text, for the second an
    array holding one contact.  The second company alone completes with
    its contact; the first raises in the normalization loop, the
    exception passes the gathering of the batch, and the run raises: the
    contact of the second company is lost with it.  A search answered
    with status 200 and a body that is an array, or whose hits are null,
    aborts the company the same way. *)
Theorem one_bad_reply_aborts_the_run :
  @extract_all_contacts reference_runtime (llm_reply Samples.array_of_text)
  = [JStr (lit "No contacts found")] /\
  @process_company reference_runtime (Samples.one_bad_reply 0)
    (Domain Samples.acme) (Company_Name Samples.acme) = Raise TypeError /\
  (exists contact,
      @process_company reference_runtime (Samples.one_bad_reply 1)
        (Domain Samples.globex) (Company_Name Samples.globex) = Ok [contact]) /\
  @run reference_runtime Samples.one_bad_reply [Samples.acme; Samples.globex]
  = ([Processing_batch 1 1], Raise TypeError) /\
  @process_company reference_runtime (Samples.searching (JArr []))
    (Domain Samples.acme) (Company_Name Samples.acme) = Raise AttributeError /\
  @process_company reference_runtime
    (Samples.searching (JObj [ (lit "organic", JNull) ]))
    (Domain Samples.acme) (Company_Name Samples.acme) = Raise TypeError.
Proof.
  split; [vm_compute; reflexivity |].
  split; [vm_compute; reflexivity |].
  split; [eexists; vm_compute; reflexivity |].
  split; [vm_compute; reflexivity |].
  split; vm_compute; reflexivity.
Qed.

(* ================================================================== *)
(** * Searching with a pattern *)
(* ================================================================== *)

Section ReFacts.

Lemma span_app (p : N -> bool) (s : str) : s = fst (span p s) ++ snd (span p s).
Proof.
  induction s as [| c s IH]; simpl; [reflexivity |].
  destruct (p c); [| reflexivity].
  destruct (span p s) as [a b]. simpl in *. f_equal. exact IH.
Qed.

Lemma span_all (p : N -> bool) (s : str) : forallb p (fst (span p s)) = true.
Proof.
  induction s as [| c s IH]; simpl; [reflexivity |].
  destruct (p c) eqn:E; [| reflexivity].
  destruct (span p s) as [a b]. simpl in *. rewrite E, IH. reflexivity.
Qed.

(** A run of the class followed by a character outside it, or by the
    end, is what a greedy repetition takes. *)
Lemma span_exact (p : N -> bool) (a r : str) :
  forallb p a = true ->
  match r with [] => True | c :: _ => p c = false end ->
  span p (a ++ r) = (a, r).
Proof.
  intros Ha Hr. induction a as [| c a IH]; simpl.
  - destruct r as [| c r]; [reflexivity |]. simpl. rewrite Hr. reflexivity.
  - simpl in Ha. apply andb_true_iff in Ha. destruct Ha as [Hc Ha].
    rewrite Hc, (IH Ha). reflexivity.
Qed.

Lemma re_search_cons_none {A} (m : str -> option A) (c : N) (s : str) :
  m (c :: s) = None -> re_search m (c :: s) = re_search m s.
Proof. intros H. simpl. rewrite H. reflexivity. Qed.

Lemma re_search_here {A} (m : str -> option A) (s : str) (g : A) :
  m s = Some g -> re_search m s = Some g.
Proof. intros H. destruct s; simpl; rewrite H; reflexivity. Qed.

(** The match found is a match at some position of the text. *)
Lemma re_search_some {A} (m : str -> option A) (s : str) (g : A) :
  re_search m s = Some g -> exists pre post, s = pre ++ post /\ m post = Some g.
Proof.
  induction s as [| c s IH]; simpl.
  - destruct (m []) eqn:E; [| discriminate].
    intros [= <-]. exists [], []. split; [reflexivity | exact E].
  - destruct (m (c :: s)) eqn:E.
    + intros [= <-]. exists [], (c :: s). split; [reflexivity | exact E].
    + intros H. destruct (IH H) as (pre & post & -> & Hm).
      exists (c :: pre), post. split; [reflexivity | exact Hm].
Qed.

(** No match is found exactly when no position has one. *)
Lemma re_search_none {A} (m : str -> option A) (s : str) :
  re_search m s = None <-> forall pre post, s = pre ++ post -> m post = None.
Proof.
  split.
  - induction s as [| c s IH]; simpl; intros H pre post Hs.
    + destruct pre; [| discriminate]. simpl in Hs. subst post.
      destruct (m []); [discriminate | reflexivity].
    + destruct (m (c :: s)) eqn:E; [discriminate |].
      destruct pre as [| c' pre]; simpl in Hs.
      * subst post. exact E.
      * injection Hs as _ Hs. apply (IH H pre post Hs).
  - intros H. induction s as [| c s IH]; simpl.
    + rewrite (H [] [] eq_refl). reflexivity.
    + rewrite (H [] (c :: s) eq_refl). apply IH.
      intros pre post Hs. apply (H (c :: pre) post). simpl. f_equal. exact Hs.
Qed.

(** Characters that cannot start a match are passed over. *)
Lemma re_search_skip {A} (m : str -> option A) (pre rest : str) :
  (forall c s, In c pre -> m (c :: s) = None) ->
  re_search m (pre ++ rest) = re_search m rest.
Proof.
  intros H. induction pre as [| c pre IH]; [reflexivity |].
  simpl app. rewrite re_search_cons_none by (apply H; left; reflexivity).
  apply IH. intros c' s Hc. apply H. right. exact Hc.
Qed.

Lemma nonempty_some (g x : str) : nonempty g = Some x -> x = g /\ g <> [].
Proof. destruct g; [discriminate |]. intros [= <-]. split; [reflexivity | discriminate]. Qed.

Lemma id_at_some (s g : str) :
  id_at s = Some g ->
  g <> [] /\ forallb is_id_char g = true /\ exists r, s = lit "/d/" ++ g ++ r.
Proof.
  unfold id_at. destruct (startswith (lit "/d/") s) eqn:E; [| discriminate].
  intros H. apply nonempty_some in H. destruct H as [-> Hne].
  split; [exact Hne |]. split; [apply span_all |].
  exists (snd (span is_id_char (skipn 3 s))).
  rewrite <- span_app. apply (startswith_inv _ _ E).
Qed.

Lemma id_at_none (s : str) :
  id_at s = None <->
  forall c r, is_id_char c = true -> s <> lit "/d/" ++ c :: r.
Proof.
  unfold id_at. split.
  - intros H c r Hc ->. rewrite startswith_app in H.
    change (skipn 3 (lit "/d/" ++ c :: r)) with (c :: r) in H.
    simpl span in H. rewrite Hc in H. destruct (span is_id_char r). discriminate.
  - intros H. destruct (startswith (lit "/d/") s) eqn:E; [| reflexivity].
    apply startswith_inv in E. change (length (lit "/d/")) with 3 in E.
    destruct (skipn 3 s) as [| c r] eqn:Er; [reflexivity |].
    simpl span. destruct (is_id_char c) eqn:Hc; [| reflexivity].
    exfalso. apply (H c r Hc). exact E.
Qed.

Context {U : UnicodeDb}.

Lemma gid_at_some (s g : str) :
  gid_at s = Some g ->
  g <> [] /\ forallb is_decimal g = true /\
  exists r, s = lit "#gid=" ++ g ++ r \/ s = lit "&gid=" ++ g ++ r.
Proof.
  unfold gid_at. destruct s as [| c s]; [discriminate |].
  destruct (((c =? 35) || (c =? 38))%N && startswith (lit "gid=") s) eqn:E;
    [| discriminate].
  apply andb_true_iff in E. destruct E as [Hc Hs].
  intros H. apply nonempty_some in H. destruct H as [-> Hne].
  split; [exact Hne |]. split; [apply span_all |].
  exists (snd (span is_decimal (skipn 4 s))).
  apply startswith_inv in Hs. change (length (lit "gid=")) with 4 in Hs.
  rewrite <- span_app.
  apply orb_true_iff in Hc. destruct Hc as [Hc | Hc]; apply N.eqb_eq in Hc; subst c.
  - left. change (lit "#gid=" ++ skipn 4 s) with (35%N :: lit "gid=" ++ skipn 4 s).
    f_equal. exact Hs.
  - right. change (lit "&gid=" ++ skipn 4 s) with (38%N :: lit "gid=" ++ skipn 4 s).
    f_equal. exact Hs.
Qed.

Lemma id_char_not_mark (c : N) :
  is_id_char c = true -> ((c =? 35) || (c =? 38))%N = false.
Proof.
  intros H. destruct (N.eqb_spec c 35) as [-> |]; [discriminate |].
  destruct (N.eqb_spec c 38) as [-> |]; [discriminate | reflexivity].
Qed.

Lemma gid_at_id_char (c : N) (s : str) : is_id_char c = true -> gid_at (c :: s) = None.
Proof. intros H. unfold gid_at. rewrite (id_char_not_mark c H). reflexivity. Qed.

Lemma forallb_In {B} (f : B -> bool) (l : list B) (x : B) :
  forallb f l = true -> In x l -> f x = true.
Proof. intros H Hx. rewrite forallb_forall in H. apply H. exact Hx. Qed.

End ReFacts.

(* ================================================================== *)
(** * The spreadsheet id and the sheet id of a URL *)
(* ================================================================== *)

Section SheetUrlFacts.

Context {U : UnicodeDb}.

Lemma contains_intro (sub s pre post : str) :
  s = pre ++ sub ++ post -> contains sub s = true.
Proof. intros H. apply contains_iff. exists pre, post. exact H. Qed.

(** The fixed text before the spreadsheet id holds no earlier match of
    either pattern. *)
Lemma id_search_of_sheets_url (rest : str) :
  re_search id_at (lit "https://docs.google.com/spreadsheets/d/" ++ rest)
  = re_search id_at (lit "/d/" ++ rest).
Proof.
  change (lit "https://docs.google.com/spreadsheets/d/" ++ rest)
    with (lit "https://docs.google.com/spreadsheets" ++ lit "/d/" ++ rest).
  let x := eval vm_compute in (lit "https://docs.google.com/spreadsheets") in
  change (lit "https://docs.google.com/spreadsheets") with x.
  cbn [app]. repeat (rewrite re_search_cons_none by reflexivity). reflexivity.
Qed.

Lemma gid_search_of_sheets_url (rest : str) :
  re_search gid_at (lit "https://docs.google.com/spreadsheets/d/" ++ rest)
  = re_search gid_at rest.
Proof.
  let x := eval vm_compute in (lit "https://docs.google.com/spreadsheets/d/") in
  change (lit "https://docs.google.com/spreadsheets/d/") with x.
  cbn [app]. repeat (rewrite re_search_cons_none by reflexivity). reflexivity.
Qed.

Lemma id_search_here (spreadsheet_id rest : str) :
  spreadsheet_id <> [] -> forallb is_id_char spreadsheet_id = true ->
  re_search id_at (lit "/d/" ++ spreadsheet_id ++ 47%N :: rest) = Some spreadsheet_id.
Proof.
  intros Hne Hid.
  assert (E : id_at (lit "/d/" ++ spreadsheet_id ++ 47%N :: rest) = Some spreadsheet_id).
  { unfold id_at. rewrite startswith_app.
    change (skipn 3 (lit "/d/" ++ spreadsheet_id ++ 47%N :: rest))
      with (spreadsheet_id ++ 47%N :: rest).
    rewrite (span_exact is_id_char spreadsheet_id (47%N :: rest) Hid eq_refl).
    destruct spreadsheet_id; [congruence | reflexivity]. }
  apply re_search_here. exact E.
Qed.

Lemma gid_search_here (gid : str) :
  gid <> [] -> forallb is_decimal gid = true ->
  re_search gid_at (lit "/export?format=csv&gid=" ++ gid) = Some gid.
Proof.
  intros Hne Hd.
  change (lit "/export?format=csv&gid=" ++ gid)
    with (lit "/export?format=csv" ++ lit "&gid=" ++ gid).
  let x := eval vm_compute in (lit "/export?format=csv") in
  change (lit "/export?format=csv") with x.
  cbn [app]. repeat (rewrite re_search_cons_none by reflexivity).
  assert (E : gid_at (lit "&gid=" ++ gid) = Some gid).
  { change (lit "&gid=" ++ gid) with (38%N :: lit "gid=" ++ gid).
    unfold gid_at. rewrite startswith_app.
    change (skipn 4 (lit "gid=" ++ gid)) with gid.
    rewrite <- (app_nil_r gid) at 1.
    rewrite (span_exact is_decimal gid [] Hd I).
    destruct gid; [congruence | reflexivity]. }
  apply re_search_here. exact E.
Qed.

End SheetUrlFacts.

(** ** X1 *)

(** X1. When [extract_spreadsheet_info] returns, the spreadsheet id is
    not empty, is made of letters, digits, hyphens and underscores, and
    stands in the URL right after "/d/"; the sheet id is not empty, and
    is either the default "0" or a run of decimal digits that stands in
    the URL right after "#gid=" or "&gid=". *)
Theorem spreadsheet_info_comes_from_the_url :
  forall (U : UnicodeDb) (sheet_url spreadsheet_id gid : str),
    extract_spreadsheet_info sheet_url = Ok (spreadsheet_id, gid) ->
    spreadsheet_id <> [] /\
    forallb is_id_char spreadsheet_id = true /\
    contains (lit "/d/" ++ spreadsheet_id) sheet_url = true /\
    gid <> [] /\
    (gid = lit "0" \/
     forallb is_decimal gid = true /\
     (contains (lit "#gid=" ++ gid) sheet_url = true \/
      contains (lit "&gid=" ++ gid) sheet_url = true)).
Proof.
  intros U sheet_url spreadsheet_id gid. unfold extract_spreadsheet_info.
  destruct (re_search id_at sheet_url) as [g |] eqn:Eid; [| discriminate].
  intros [= -> Hgid].
  destruct (re_search_some _ _ _ Eid) as (pre & post & Hs & Hm).
  destruct (id_at_some _ _ Hm) as (Hne & Hall & r & Hpost).
  split; [exact Hne |]. split; [exact Hall |].
  split.
  { apply (contains_intro _ _ pre r). rewrite Hs, Hpost, <- app_assoc. reflexivity. }
  destruct (re_search gid_at sheet_url) as [g |] eqn:Eg.
  - subst g. destruct (re_search_some _ _ _ Eg) as (pre' & post' & Hs' & Hm').
    destruct (gid_at_some _ _ Hm') as (Hne' & Hall' & r' & Hpost').
    split; [exact Hne' |]. right. split; [exact Hall' |].
    destruct Hpost' as [Hp | Hp]; [left | right];
      apply (contains_intro _ _ pre' r'); rewrite Hs', Hp, <- app_assoc; reflexivity.
  - subst gid. split; [discriminate | left; reflexivity].
Qed.

(** The URL of a sheet opened in the browser. *)
Lemma spreadsheet_info_witness :
  @extract_spreadsheet_info SheetSamples.ascii_only SheetSamples.sheet_url
  = Ok (lit "1aB-c_D9", lit "42") /\
  contains (lit "/d/" ++ lit "1aB-c_D9") SheetSamples.sheet_url = true.
Proof.
  split; [reflexivity |].
  exact (proj1 (proj2 (proj2
           (spreadsheet_info_comes_from_the_url SheetSamples.ascii_only
              SheetSamples.sheet_url (lit "1aB-c_D9") (lit "42") eq_refl)))).
Defined.

(** ** X2 *)

(** X2. [extract_spreadsheet_info] raises exactly when the URL has no
    "/d/" followed by a letter, a digit, a hyphen or an underscore, and
    what it raises is [ValueError]. *)
Theorem spreadsheet_info_fails_without_id :
  forall (U : UnicodeDb) (sheet_url : str),
    (extract_spreadsheet_info sheet_url = Raise ValueError <->
     forall c : N, is_id_char c = true ->
                   contains (lit "/d/" ++ [c]) sheet_url = false) /\
    (forall e, extract_spreadsheet_info sheet_url = Raise e -> e = ValueError).
Proof.
  intros U sheet_url. unfold extract_spreadsheet_info. split; [split |].
  - destruct (re_search id_at sheet_url) as [g |] eqn:E; [discriminate |].
    intros _ c Hc. destruct (contains (lit "/d/" ++ [c]) sheet_url) eqn:C;
      [| reflexivity].
    apply contains_iff in C. destruct C as (pre & post & Hs).
    pose proof (proj1 (re_search_none id_at sheet_url) E pre
                  (lit "/d/" ++ c :: post)) as Hnone.
    rewrite Hs, <- app_assoc in Hnone. specialize (Hnone eq_refl).
    exfalso. apply (proj1 (id_at_none _) Hnone c post Hc). reflexivity.
  - intros H. destruct (re_search id_at sheet_url) as [g |] eqn:E; [| reflexivity].
    exfalso. destruct (re_search_some _ _ _ E) as (pre & post & Hs & Hm).
    destruct (id_at_some _ _ Hm) as (Hne & Hall & r & Hpost).
    destruct g as [| c g]; [congruence |].
    simpl in Hall. apply andb_true_iff in Hall. destruct Hall as [Hc _].
    assert (C : contains (lit "/d/" ++ [c]) sheet_url = true).
    { apply (contains_intro _ _ pre (g ++ r)). rewrite Hs, Hpost. reflexivity. }
    rewrite (H c Hc) in C. discriminate.
  - intros e. destruct (re_search id_at sheet_url); [discriminate |].
    intros [= <-]. reflexivity.
Qed.

(** ** X3 *)

(** X3. The CSV export URL that [read_public_google_sheet] builds from a
    spreadsheet id and a sheet id reads back as the same two: for every
    non-empty id of letters, digits, hyphens and underscores and every
    non-empty sheet id of decimal digits.  The URL that
    [get_sheet_title] builds from the id reads back as the id with the
    default sheet "0". *)
Theorem export_url_round_trip :
  forall (U : UnicodeDb) (spreadsheet_id gid : str),
    spreadsheet_id <> [] -> forallb is_id_char spreadsheet_id = true ->
    gid <> [] -> forallb is_decimal gid = true ->
    extract_spreadsheet_info (export_url spreadsheet_id gid)
    = Ok (spreadsheet_id, gid) /\
    extract_spreadsheet_info
      (lit "https://docs.google.com/spreadsheets/d/" ++ spreadsheet_id ++ lit "/edit")
    = Ok (spreadsheet_id, lit "0").
Proof.
  intros U spreadsheet_id gid Hne Hid Hg Hd.
  assert (Hskip : forall rest,
             re_search gid_at (spreadsheet_id ++ rest) = re_search gid_at rest).
  { intros rest. apply re_search_skip. intros c s Hc.
    apply gid_at_id_char. apply (forallb_In _ _ _ Hid Hc). }
  unfold extract_spreadsheet_info, export_url. split.
  - rewrite id_search_of_sheets_url.
    change (lit "/export?format=csv&gid=" ++ gid)
      with (47%N :: lit "export?format=csv&gid=" ++ gid).
    rewrite (id_search_here spreadsheet_id _ Hne Hid).
    rewrite gid_search_of_sheets_url, Hskip.
    change (47%N :: lit "export?format=csv&gid=" ++ gid)
      with (lit "/export?format=csv&gid=" ++ gid).
    rewrite (gid_search_here gid Hg Hd). reflexivity.
  - rewrite id_search_of_sheets_url.
    change (lit "/edit") with (47%N :: lit "edit").
    rewrite (id_search_here spreadsheet_id _ Hne Hid).
    rewrite gid_search_of_sheets_url, Hskip. reflexivity.
Qed.

(** An id and a sheet id as Google gives them. *)
Lemma export_url_witness :
  @extract_spreadsheet_info SheetSamples.ascii_only
    (export_url (lit "1aB-c_D9") (lit "42"))
  = Ok (lit "1aB-c_D9", lit "42").
Proof.
  apply (export_url_round_trip SheetSamples.ascii_only (lit "1aB-c_D9") (lit "42"));
    (discriminate || reflexivity).
Defined.

(* ================================================================== *)
(** * The sheet title and the name of the output file *)
(* ================================================================== *)

Section TitleFacts.

Context {U : UnicodeDb}.

(** A text with no whitespace at either end. *)
Lemma strip_trimmed (s : str) :
  match strip s with [] => True | c :: _ => is_space c = false end /\
  match rev (strip s) with [] => True | c :: _ => is_space c = false end.
Proof.
  destruct (strip_spec s) as (l & r & _ & _ & _ & Hh & Hl). split; assumption.
Qed.

Lemma strip_subset (s : str) (c : N) : In c (strip s) -> In c s.
Proof.
  destruct (strip_spec s) as (l & r & Hs & _). intros H. rewrite Hs.
  apply in_or_app. right. apply in_or_app. left. exact H.
Qed.

Lemma title_at_some (s t : str) :
  title_at s = Some t ->
  t <> [] /\ ~ In 60%N t /\ exists r, s = lit "<title>" ++ t ++ lit "</title>" ++ r.
Proof.
  unfold title_at. destruct (startswith (lit "<title>") s) eqn:E; [| discriminate].
  apply startswith_inv in E. change (length (lit "<title>")) with 7 in E.
  pose proof (span_app (fun c => negb (c =? 60)%N) (skipn 7 s)) as Happ.
  pose proof (span_all (fun c => negb (c =? 60)%N) (skipn 7 s)) as Hall.
  destruct (span (fun c => negb (c =? 60)%N) (skipn 7 s)) as [t' r'].
  simpl fst in *. simpl snd in *.
  destruct t' as [| c t']; [discriminate |].
  destruct (startswith (lit "</title>") r') eqn:Er; [| discriminate].
  intros [= <-]. split; [discriminate |]. split.
  - intros Hin. pose proof (forallb_In _ _ _ Hall Hin) as H. discriminate.
  - apply startswith_inv in Er. exists (skipn (length (lit "</title>")) r').
    rewrite <- Er, <- Happ. exact E.
Qed.

Lemma contains_single (x : N) (s : str) : contains [x] s = true <-> In x s.
Proof.
  rewrite contains_iff. split.
  - intros (pre & post & ->). apply in_or_app. right. left. reflexivity.
  - intros H. apply in_split in H. destruct H as (l1 & l2 & ->).
    exists l1, l2. reflexivity.
Qed.

(** The pieces of a split on one character: made of characters of the
    text, none of them the separator. *)
Lemma split_fuel_pieces (x : N) (n : nat) (s p : str) (c : N) :
  length s <= n -> In p (split_fuel n [x] s) -> In c p -> In c s /\ c <> x.
Proof.
  revert s. induction n as [| n IH]; intros s Hlen Hp Hc.
  - destruct s; [| simpl in Hlen; lia]. simpl in Hp.
    destruct Hp as [<- | []]. destruct Hc.
  - simpl in Hp. destruct (cut [x] s) as [[a b] |] eqn:E.
    + pose proof (cut_app _ _ _ _ E) as Hs.
      assert (Ha : contains [x] a = false).
      { apply (cut_prefix_free [x] s a b); [discriminate | exact E]. }
      destruct Hp as [<- | Hp].
      * split; [rewrite Hs; apply in_or_app; left; exact Hc |].
        intros ->. apply contains_single in Hc. congruence.
      * assert (Hb : length b <= n).
        { rewrite Hs, !length_app in Hlen. simpl in Hlen. lia. }
        destruct (IH b Hb Hp Hc) as [Hin Hne]. split; [| exact Hne].
        rewrite Hs. apply in_or_app. right. apply in_or_app. right. exact Hin.
    + destruct Hp as [<- | []]. split; [exact Hc |].
      intros ->. apply cut_none in E. apply contains_single in Hc. congruence.
Qed.

Lemma in_join (sep : str) (parts : list str) (c : N) :
  In c (join sep parts) -> In c sep \/ exists p, In p parts /\ In c p.
Proof.
  induction parts as [| p ps IH]; [intros [] |].
  destruct ps as [| q ps].
  - simpl. intros H. right. exists p. split; [left; reflexivity | exact H].
  - change (join sep (p :: q :: ps)) with (p ++ sep ++ join sep (q :: ps)).
    intros H. apply in_app_or in H. destruct H as [H | H].
    + right. exists p. split; [left; reflexivity | exact H].
    + apply in_app_or in H. destruct H as [H | H]; [left; exact H |].
      destruct (IH H) as [Hs | (p' & Hp' & Hc)]; [left; exact Hs |].
      right. exists p'. split; [right; exact Hp' | exact Hc].
Qed.

(** Replacing a character: what is left is the replacement or a
    character of the text other than the one replaced. *)
Lemma in_replace_char (x : N) (new s : str) (c : N) :
  In c (replace [x] new s) -> In c new \/ (In c s /\ c <> x).
Proof.
  unfold replace, split. intros H.
  destruct (in_join _ _ _ H) as [Hn | (p & Hp & Hc)]; [left; exact Hn |].
  right. apply (split_fuel_pieces x (length s) s p c (le_n _) Hp Hc).
Qed.

Lemma safe_title_chars (sheet_title : str) (c : N) :
  In c (safe_title sheet_title) ->
  (is_word c || is_space c || (c =? 45)%N) = true /\ c <> 32%N.
Proof.
  unfold safe_title. intros H.
  apply (in_replace_char 32%N (lit "_")) in H. destruct H as [H | [H Hne]].
  - destruct H as [<- | []]. split; [reflexivity | discriminate].
  - split; [| exact Hne]. apply strip_subset in H.
    apply filter_In in H. exact (proj2 H).
Qed.

(** A title element at the head of a text is matched there. *)
Lemma title_at_here (title rest : str) :
  title <> [] -> ~ In 60%N title ->
  title_at (lit "<title>" ++ title ++ lit "</title>" ++ rest) = Some title.
Proof.
  intros Hne Hlt. unfold title_at. rewrite startswith_app.
  change (skipn 7 (lit "<title>" ++ title ++ lit "</title>" ++ rest))
    with (title ++ lit "</title>" ++ rest).
  rewrite span_exact.
  - destruct title as [| c title]; [contradiction |].
    rewrite startswith_app. reflexivity.
  - apply forallb_forall. intros c Hc.
    destruct (N.eqb_spec c 60) as [-> |]; [contradiction | reflexivity].
  - reflexivity.
Qed.

(** The match found by a search: the one at a position before which no
    position has a match. *)
Lemma re_search_leftmost {A} (m : str -> option A) (pre post : str) (g : A) :
  m post = Some g ->
  (forall pre' post', pre = pre' ++ post' -> post' <> [] -> m (post' ++ post) = None) ->
  re_search m (pre ++ post) = Some g.
Proof.
  intros Hm. induction pre as [| c pre IH]; intros Hnone.
  - apply re_search_here. exact Hm.
  - cbn [app]. rewrite re_search_cons_none.
    + apply IH. intros pre' post' -> Hne. apply (Hnone (c :: pre') post' eq_refl Hne).
    + apply (Hnone [] (c :: pre) eq_refl). discriminate.
Qed.

(** Two ways of cutting a text: the shorter first piece is a prefix of
    the longer. *)
Lemma app_eq_shorter (a b a' b' : str) :
  a ++ b = a' ++ b' -> length a' < length a ->
  exists mid, mid <> [] /\ a = a' ++ mid /\ b' = mid ++ b.
Proof.
  revert a'. induction a as [| c a IH]; intros a' H Hlen; [simpl in Hlen; lia |].
  destruct a' as [| c' a'].
  - exists (c :: a). split; [discriminate |]. split; [reflexivity |].
    simpl in H. symmetry. exact H.
  - simpl in H. injection H as -> H. simpl in Hlen.
    destruct (IH a' H ltac:(lia)) as (mid & Hne & -> & ->).
    exists mid. split; [exact Hne |]. split; reflexivity.
Qed.

(** The first title element of a text is the one the search finds. *)
Lemma title_search_first (pre title rest : str) :
  title <> [] -> ~ In 60%N title ->
  (forall pre' title' rest',
      title' <> [] -> ~ In 60%N title' ->
      pre ++ lit "<title>" ++ title ++ lit "</title>" ++ rest
      = pre' ++ lit "<title>" ++ title' ++ lit "</title>" ++ rest' ->
      length pre <= length pre') ->
  re_search title_at (pre ++ lit "<title>" ++ title ++ lit "</title>" ++ rest)
  = Some title.
Proof.
  intros Hne Hlt Hfirst. apply re_search_leftmost.
  - apply title_at_here; assumption.
  - intros pre' post' -> Hpost.
    destruct (title_at (post' ++ lit "<title>" ++ title ++ lit "</title>" ++ rest))
      as [title' |] eqn:E; [| reflexivity].
    exfalso. destruct (title_at_some _ _ E) as (Hne' & Hlt' & rest' & Hs).
    pose proof (Hfirst pre' title' rest' Hne' Hlt') as H.
    rewrite <- app_assoc, Hs in H. specialize (H eq_refl).
    rewrite length_app in H. destruct post'; [contradiction | simpl in H; lia].
Qed.

(** A text with no title element has no match. *)
Lemma title_search_none (text : str) :
  (forall pre title rest,
      title <> [] -> ~ In 60%N title ->
      text <> pre ++ lit "<title>" ++ title ++ lit "</title>" ++ rest) ->
  re_search title_at text = None.
Proof.
  intros H. apply re_search_none. intros pre post Hs.
  destruct (title_at post) as [title |] eqn:E; [| reflexivity].
  exfalso. destruct (title_at_some _ _ E) as (Hne & Hlt & rest & ->).
  apply (H pre title rest Hne Hlt Hs).
Qed.

(** No title element starts inside a piece that does not hold the
    opening tag: the tag cannot straddle the end of the piece, for its
    first character is the only [<] it has. *)
Lemma title_first_after (pre title rest pre' title' rest' : str) :
  contains (lit "<title>") pre = false ->
  pre ++ lit "<title>" ++ title ++ lit "</title>" ++ rest
  = pre' ++ lit "<title>" ++ title' ++ lit "</title>" ++ rest' ->
  length pre <= length pre'.
Proof.
  intros Hpre H.
  destruct (Nat.le_gt_cases (length pre) (length pre')) as [Hle | Hgt]; [exact Hle |].
  exfalso. destruct (app_eq_shorter _ _ _ _ H Hgt) as (mid & Hne & -> & Hmid).
  change (lit "<title>") with [60; 116; 105; 116; 108; 101; 62]%N in Hmid, Hpre.
  cbn [app] in Hmid.
  destruct mid as [| c1 [| c2 [| c3 [| c4 [| c5 [| c6 [| c7 mid]]]]]]];
    cbn [app] in Hmid; try contradiction; try discriminate.
  injection Hmid as <- <- <- <- <- <- <- _.
  assert (Hc : contains [60; 116; 105; 116; 108; 101; 62]%N
                 (pre' ++ [60; 116; 105; 116; 108; 101; 62]%N ++ mid) = true).
  { apply contains_iff. exists pre', mid. reflexivity. }
  cbn [app] in Hc. congruence.
Qed.

End TitleFacts.

(** ** X4 *)

(** X4. [get_sheet_title] never raises.  It returns "output" when the
    URL has no spreadsheet id, when the request for the page of that id
    raises, when the page answers with a status other than 200, and
    when its text has no title element (an opening tag, a non-empty
    text without "<", the closing tag).  When the page answers 200 and
    its text has such an element, it returns the text of the first one
    with every " - Google Sheets" removed and then stripped.  Whatever it
    returns is "output" or comes from such a page and title, and has no
    whitespace at either end. *)
Theorem sheet_title_or_default :
  forall (U : UnicodeDb) (get : str -> page) (sheet_url : str),
    (forall e,
        extract_spreadsheet_info sheet_url = Raise e ->
        get_sheet_title get sheet_url = lit "output") /\
    (forall spreadsheet_id gid,
        extract_spreadsheet_info sheet_url = Ok (spreadsheet_id, gid) ->
        (get (lit "https://docs.google.com/spreadsheets/d/" ++ spreadsheet_id
                ++ lit "/edit") = NoPage ->
         get_sheet_title get sheet_url = lit "output") /\
        (forall status_code text,
            get (lit "https://docs.google.com/spreadsheets/d/" ++ spreadsheet_id
                   ++ lit "/edit") = Page status_code text ->
            status_code <> 200%Z ->
            get_sheet_title get sheet_url = lit "output") /\
        (forall text,
            get (lit "https://docs.google.com/spreadsheets/d/" ++ spreadsheet_id
                   ++ lit "/edit") = Page 200 text ->
            (forall pre title rest,
                title <> [] -> ~ In 60%N title ->
                text <> pre ++ lit "<title>" ++ title ++ lit "</title>" ++ rest) ->
            get_sheet_title get sheet_url = lit "output") /\
        (forall pre title rest,
            get (lit "https://docs.google.com/spreadsheets/d/" ++ spreadsheet_id
                   ++ lit "/edit")
            = Page 200 (pre ++ lit "<title>" ++ title ++ lit "</title>" ++ rest) ->
            title <> [] -> ~ In 60%N title ->
            (forall pre' title' rest',
                title' <> [] -> ~ In 60%N title' ->
                pre ++ lit "<title>" ++ title ++ lit "</title>" ++ rest
                = pre' ++ lit "<title>" ++ title' ++ lit "</title>" ++ rest' ->
                length pre <= length pre') ->
            get_sheet_title get sheet_url
            = strip (replace (lit " - Google Sheets") [] title))) /\
    (get_sheet_title get sheet_url = lit "output" \/
     exists spreadsheet_id gid text pre title rest,
       extract_spreadsheet_info sheet_url = Ok (spreadsheet_id, gid) /\
       get (lit "https://docs.google.com/spreadsheets/d/" ++ spreadsheet_id
              ++ lit "/edit") = Page 200 text /\
       text = pre ++ lit "<title>" ++ title ++ lit "</title>" ++ rest /\
       title <> [] /\ ~ In 60%N title /\
       get_sheet_title get sheet_url
       = strip (replace (lit " - Google Sheets") [] title)) /\
    match get_sheet_title get sheet_url with
    | [] => True
    | c :: _ => is_space c = false
    end /\
    match rev (get_sheet_title get sheet_url) with
    | [] => True
    | c :: _ => is_space c = false
    end.
Proof.
  intros U get sheet_url. split; [| split; [| split]].
  - intros e He. unfold get_sheet_title, get_sheet_title_try. rewrite He. reflexivity.
  - intros spreadsheet_id gid Hi. unfold get_sheet_title, get_sheet_title_try.
    rewrite Hi. cbn [bind fst]. split; [| split; [| split]].
    + intros ->. reflexivity.
    + intros status_code text -> Hst.
      destruct (Z.eqb_spec status_code 200); [contradiction | reflexivity].
    + intros text -> Hnone. cbn [Z.eqb Pos.eqb].
      rewrite (title_search_none text Hnone). reflexivity.
    + intros pre title rest -> Hne Hlt Hfirst. cbn [Z.eqb Pos.eqb].
      rewrite (title_search_first pre title rest Hne Hlt Hfirst). reflexivity.
  - unfold get_sheet_title, get_sheet_title_try.
    destruct (extract_spreadsheet_info sheet_url) as [[spreadsheet_id gid] | e] eqn:Ei;
      cbn [bind fst]; [| left; reflexivity].
    destruct (get (lit "https://docs.google.com/spreadsheets/d/" ++ spreadsheet_id
                     ++ lit "/edit")) as [| status_code text] eqn:Eg;
      [left; reflexivity |].
    destruct (Z.eqb_spec status_code 200) as [-> | Hst]; [| left; reflexivity].
    destruct (re_search title_at text) as [title |] eqn:Et; [| left; reflexivity].
    right. destruct (re_search_some _ _ _ Et) as (pre & post & Hs & Hm).
    destruct (title_at_some _ _ Hm) as (Hne & Hlt & rest & Hpost).
    exists spreadsheet_id, gid, text, pre, title, rest.
    repeat split; try assumption; try reflexivity.
    rewrite Hs, Hpost. reflexivity.
  - unfold get_sheet_title.
    destruct (get_sheet_title_try get sheet_url) as [[title |] | e] eqn:E;
      try (split; reflexivity).
    unfold get_sheet_title_try in E.
    destruct (extract_spreadsheet_info sheet_url) as [info | e]; [| discriminate].
    cbn [bind] in E.
    destruct (get _) as [| status_code text]; [discriminate |].
    destruct (status_code =? 200)%Z; [| discriminate].
    destruct (re_search title_at text) as [t |]; [| discriminate].
    injection E as <-. apply strip_trimmed.
Qed.

(** The page of a sheet whose title element comes after the opening of
    the document. *)
Lemma sheet_title_witness :
  @get_sheet_title SheetSamples.ascii_only SheetSamples.titled_page
    SheetSamples.sheet_url
  = lit "Q3 Leads: East/West".
Proof.
  refine (eq_trans
            (proj2 (proj2 (proj2
               (proj1 (proj2 (sheet_title_or_default SheetSamples.ascii_only
                                SheetSamples.titled_page SheetSamples.sheet_url))
                  (lit "1aB-c_D9") (lit "42") _)))
               (lit "<html><head>") (lit "Q3 Leads: East/West - Google Sheets")
               (lit "</head></html>") _ _ _ _) _).
  - vm_compute. reflexivity.
  - vm_compute. reflexivity.
  - discriminate.
  - vm_compute. intuition discriminate.
  - intros pre' title' rest' _ _. apply title_first_after. vm_compute. reflexivity.
  - vm_compute. reflexivity.
Defined.

(** ** X5 *)

(** X5. For an input that is a URL and no output file given, the output
    file of [run] is a name followed by ".csv", and the name is made of
    word characters, hyphens and whitespace other than the space only:
    it holds no slash, no backslash, no dot, no space and no NUL,
    whatever the title of the sheet. *)
Theorem output_file_of_a_sheet_is_a_plain_name :
  forall (U : UnicodeDb) (get : str -> page) (input_source : str),
    startswith (lit "http") input_source = true ->
    exists name : str,
      output_file_of get input_source None = name ++ lit ".csv" /\
      forall c : N,
        In c name ->
        (is_word c || is_space c || (c =? 45)%N) = true /\
        c <> 32%N /\ c <> 47%N /\ c <> 92%N /\ c <> 46%N /\ c <> 0%N.
Proof.
  intros U get input_source H. unfold output_file_of. rewrite H.
  exists (safe_title (get_sheet_title get input_source)).
  split; [reflexivity |]. intros c Hc.
  destruct (safe_title_chars _ c Hc) as [Hp Hne].
  split; [exact Hp |]. split; [exact Hne |].
  repeat split; intros ->; discriminate.
Qed.

(** The sheet of the examples, whose title holds a colon and a slash. *)
Lemma output_file_witness :
  startswith (lit "http") SheetSamples.sheet_url = true /\
  @output_file_of SheetSamples.ascii_only SheetSamples.titled_page
    SheetSamples.sheet_url None = lit "Q3_Leads_EastWest.csv" /\
  exists name : str,
    @output_file_of SheetSamples.ascii_only SheetSamples.titled_page
      SheetSamples.sheet_url None = name ++ lit ".csv".
Proof.
  split; [reflexivity |]. split; [reflexivity |].
  destruct (output_file_of_a_sheet_is_a_plain_name SheetSamples.ascii_only
              SheetSamples.titled_page SheetSamples.sheet_url eq_refl)
    as (name & Hname & _).
  exists name. exact Hname.
Defined.

(* ================================================================== *)
(** * Reading the table of companies *)
(* ================================================================== *)

Section ReadingFacts.

Lemma endswith_iff (suffix s : str) :
  endswith suffix s = true <-> exists stem, s = stem ++ suffix.
Proof.
  unfold endswith. rewrite startswith_iff. split.
  - intros [r Hr]. exists (rev r).
    apply (f_equal (@rev N)) in Hr. rewrite rev_involutive, rev_app_distr in Hr.
    rewrite rev_involutive in Hr. exact Hr.
  - intros [stem ->]. exists (rev stem). apply rev_app_distr.
Qed.

Lemma endswith_false (suffix s : str) :
  (forall stem, s <> stem ++ suffix) -> endswith suffix s = false.
Proof.
  intros H. destruct (endswith suffix s) eqn:E; [| reflexivity].
  apply endswith_iff in E. destruct E as [stem Hs]. exfalso. apply (H stem Hs).
Qed.

Lemma existsb_str_eqb (k : str) (l : list str) :
  existsb (str_eqb k) l = true <-> In k l.
Proof.
  rewrite existsb_exists. split.
  - intros (x & Hx & E). apply str_eqb_eq in E. subst x. exact Hx.
  - intros H. exists k. split; [exact H | apply str_eqb_refl].
Qed.

(** A DataFrame that passes the check has both columns. *)
Lemma has_required_columns (df : DataFrame) :
  lacks_required_columns df = false ->
  In (lit "Domain") (columns df) /\ In (lit "Company Name") (columns df).
Proof.
  unfold lacks_required_columns. intros H. apply orb_false_iff in H.
  destruct H as [H1 H2]. apply negb_false_iff in H1, H2.
  split; apply existsb_str_eqb; assumption.
Qed.

Context {U : UnicodeDb} {P : Pandas}.

Lemma read_public_try_columns (sheet_url : str) (df : DataFrame) :
  read_public_google_sheet_try sheet_url = Ok df ->
  lacks_required_columns df = false.
Proof.
  unfold read_public_google_sheet_try.
  destruct (extract_spreadsheet_info sheet_url) as [info | e]; [| discriminate].
  cbn [bind]. destruct (read_csv (export_url (fst info) (snd info))) as [df' | e];
    [| discriminate].
  cbn [bind]. destruct (lacks_required_columns df') eqn:E; [discriminate |].
  intros [= <-]. exact E.
Qed.

Lemma read_authenticated_columns (gspread : str -> gspread_read) (sheet_url : str)
    (df : DataFrame) :
  read_google_sheet_authenticated gspread sheet_url = Returned df ->
  lacks_required_columns df = false.
Proof.
  unfold read_google_sheet_authenticated.
  destruct (gspread sheet_url) as [| e | df']; try discriminate.
  destruct (lacks_required_columns df') eqn:E; [discriminate |].
  intros [= <-]. exact E.
Qed.

Lemma read_input_file_columns (file_path : str) (df : DataFrame) :
  read_input_file file_path = Ok df -> lacks_required_columns df = false.
Proof.
  unfold read_input_file.
  destruct (if endswith (lit ".xlsx") file_path || endswith (lit ".xls") file_path
            then read_excel file_path
            else if endswith (lit ".csv") file_path then read_csv file_path
                 else Raise ValueError) as [df' | e]; [| discriminate].
  cbn [bind]. destruct (lacks_required_columns df') eqn:E; [discriminate |].
  intros [= <-]. exact E.
Qed.

End ReadingFacts.

(** ** X6 *)

(** X6. When [read_input_file] returns a table, the path ends with
    ".xlsx" or ".xls" and the table is what [pd.read_excel] read from it,
    or it ends with ".csv" and the table is what [pd.read_csv] read from
    it; and the table has a column "Domain" and a column
    "Company Name". *)
Theorem read_input_file_returns_a_checked_table :
  forall (P : Pandas) (file_path : str) (df : DataFrame),
    read_input_file file_path = Ok df ->
    (((exists stem, file_path = stem ++ lit ".xlsx") \/
      (exists stem, file_path = stem ++ lit ".xls")) /\
     read_excel file_path = Ok df
     \/
     (exists stem, file_path = stem ++ lit ".csv") /\
     read_csv file_path = Ok df) /\
    In (lit "Domain") (columns df) /\ In (lit "Company Name") (columns df).
Proof.
  intros P file_path df H.
  split; [| apply has_required_columns; apply (read_input_file_columns _ _ H)].
  revert H. unfold read_input_file.
  destruct (endswith (lit ".xlsx") file_path) eqn:E1;
    [| destruct (endswith (lit ".xls") file_path) eqn:E2;
       [| destruct (endswith (lit ".csv") file_path) eqn:E3]];
    cbn [orb].
  - destruct (read_excel file_path) as [df' | e]; [| discriminate]. cbn [bind].
    destruct (lacks_required_columns df'); [discriminate |]. intros [= <-].
    left. split; [left; apply endswith_iff; exact E1 | reflexivity].
  - destruct (read_excel file_path) as [df' | e]; [| discriminate]. cbn [bind].
    destruct (lacks_required_columns df'); [discriminate |]. intros [= <-].
    left. split; [right; apply endswith_iff; exact E2 | reflexivity].
  - destruct (read_csv file_path) as [df' | e]; [| discriminate]. cbn [bind].
    destruct (lacks_required_columns df'); [discriminate |]. intros [= <-].
    right. split; [apply endswith_iff; exact E3 | reflexivity].
  - discriminate.
Qed.

(** A CSV file with both columns. *)
Lemma read_input_file_witness :
  @read_input_file SheetSamples.good_pandas (lit "leads.csv")
  = Ok SheetSamples.good_frame /\
  In (lit "Domain") (columns SheetSamples.good_frame).
Proof.
  split; [reflexivity |].
  exact (proj1 (proj2
           (read_input_file_returns_a_checked_table SheetSamples.good_pandas
              (lit "leads.csv") SheetSamples.good_frame eq_refl))).
Defined.

(** ** X7 *)

(** X7. A path that ends with none of ".xlsx", ".xls" and ".csv", in
    these very letters, makes [read_input_file] raise [ValueError]
    whatever the readers would give: nothing is read. *)
Theorem read_input_file_rejects_other_extensions :
  forall (P : Pandas) (file_path : str),
    (forall stem, file_path <> stem ++ lit ".xlsx") ->
    (forall stem, file_path <> stem ++ lit ".xls") ->
    (forall stem, file_path <> stem ++ lit ".csv") ->
    read_input_file file_path = Raise ValueError.
Proof.
  intros P file_path H1 H2 H3. unfold read_input_file.
  rewrite (endswith_false _ _ H1), (endswith_false _ _ H2), (endswith_false _ _ H3).
  reflexivity.
Qed.

(** The extension of a CSV file in capitals. *)
Lemma read_input_file_rejects_witness :
  @read_input_file SheetSamples.good_pandas (lit "leads.CSV") = Raise ValueError.
Proof.
  apply (read_input_file_rejects_other_extensions SheetSamples.good_pandas
           (lit "leads.CSV"));
    intros stem H; apply (f_equal (@rev N)) in H; rewrite rev_app_distr in H;
    discriminate.
Defined.

(** ** X8 *)

(** X8. Whatever the input is, a path or a URL, read in public or with
    credentials, the table [run] goes on with has a column "Domain" and
    a column "Company Name". *)
Theorem every_table_read_has_both_columns :
  forall (U : UnicodeDb) (P : Pandas) (gspread : str -> gspread_read)
         (input_source : str) (df : DataFrame),
    read_input gspread input_source = Returned df ->
    In (lit "Domain") (columns df) /\ In (lit "Company Name") (columns df).
Proof.
  intros U P gspread input_source df. unfold read_input, read_public_google_sheet.
  destruct (startswith (lit "http") input_source).
  - destruct (read_public_google_sheet_try input_source) as [df' | e] eqn:E.
    + intros [= <-]. apply has_required_columns.
      apply (read_public_try_columns _ _ E).
    + intros H. apply has_required_columns.
      apply (read_authenticated_columns _ _ _ H).
  - destruct (read_input_file input_source) as [df' | e] eqn:E; [| discriminate].
    intros [= <-]. apply has_required_columns.
    apply (read_input_file_columns _ _ E).
Qed.

(** A public sheet with both columns. *)
Lemma every_table_witness :
  @read_input SheetSamples.ascii_only SheetSamples.good_pandas
    (fun _ => NoCredentials) SheetSamples.sheet_url
  = Returned SheetSamples.good_frame /\
  In (lit "Company Name") (columns SheetSamples.good_frame).
Proof.
  split; [reflexivity |].
  exact (proj2 (every_table_read_has_both_columns SheetSamples.ascii_only
                  SheetSamples.good_pandas (fun _ => NoCredentials)
                  SheetSamples.sheet_url SheetSamples.good_frame eq_refl)).
Defined.

(** ** X9 *)

(** X9. For an input that is a URL, no exception of the public reading
    reaches the caller, not even the missing-column one: when the
    reading raises, the public attempt had raised and the exception is
    that of the authenticated reading (what gspread raised, or
    [ValueError] for a sheet that lacks a column); when it ends the
    process, the status is 1, the public attempt had raised and there
    were no credentials. *)
Theorem public_reading_errors_are_replaced :
  forall (U : UnicodeDb) (P : Pandas) (gspread : str -> gspread_read)
         (input_source : str),
    startswith (lit "http") input_source = true ->
    (forall e,
        read_input gspread input_source = Raised e ->
        (exists e', read_public_google_sheet_try input_source = Raise e') /\
        (gspread input_source = SheetFailed e \/
         exists df, gspread input_source = Sheet df /\
                    lacks_required_columns df = true /\ e = ValueError)) /\
    (forall code,
        read_input gspread input_source = Exited code ->
        code = 1%Z /\ gspread input_source = NoCredentials /\
        exists e', read_public_google_sheet_try input_source = Raise e').
Proof.
  intros U P gspread input_source H.
  unfold read_input, read_public_google_sheet, read_google_sheet_authenticated.
  rewrite H.
  destruct (read_public_google_sheet_try input_source) as [df | e']; split;
    try discriminate.
  - intros e. destruct (gspread input_source) as [| e0 | df]; try discriminate.
    + intros [= <-]. split; [exists e'; reflexivity | left; reflexivity].
    + destruct (lacks_required_columns df) eqn:E; [| discriminate].
      intros [= <-]. split; [exists e'; reflexivity |].
      right. exists df. repeat split. exact E.
  - intros code. destruct (gspread input_source) as [| e0 | df]; try discriminate.
    + intros [= <-]. repeat split. exists e'. reflexivity.
    + destruct (lacks_required_columns df); discriminate.
Qed.

(** A public sheet that lacks a column, and no credentials. *)
Lemma public_reading_witness :
  startswith (lit "http") SheetSamples.sheet_url = true /\
  @read_input SheetSamples.ascii_only SheetSamples.bad_pandas
    (fun _ => NoCredentials) SheetSamples.sheet_url = Exited 1 /\
  exists e',
    @read_public_google_sheet_try SheetSamples.ascii_only SheetSamples.bad_pandas
      SheetSamples.sheet_url = Raise e'.
Proof.
  split; [reflexivity |]. split; [reflexivity |].
  exact (proj2 (proj2
           (proj2 (public_reading_errors_are_replaced SheetSamples.ascii_only
                     SheetSamples.bad_pandas (fun _ => NoCredentials)
                     SheetSamples.sheet_url eq_refl) 1%Z eq_refl))).
Defined.

(* ================================================================== *)
(** * Normalizing twice, and what the run returns *)
(* ================================================================== *)

Section OutputFacts.

Lemma lstrip_fixed (s : str) :
  match s with [] => True | c :: _ => is_space c = false end -> lstrip s = s.
Proof. destruct s as [| c s]; simpl; [reflexivity | intros ->; reflexivity]. Qed.

Lemma strip_idem (s : str) : strip (strip s) = strip s.
Proof.
  destruct (strip_trimmed s) as [Hh Hl]. unfold strip at 1.
  rewrite (lstrip_fixed _ Hh). unfold rstrip.
  rewrite (lstrip_fixed _ Hl). apply rev_involutive.
Qed.

Lemma validate_idem (url : json) :
  _validate_linkedin_url (JStr (_validate_linkedin_url url))
  = _validate_linkedin_url url.
Proof.
  destruct (_validate_linkedin_url url) as [| c0 t] eqn:E; [reflexivity |].
  assert (Hne : _validate_linkedin_url url <> []) by congruence.
  destruct (validate_inv url Hne) as (s & _ & Hs & Hin & Hdis & Hv).
  rewrite <- E, Hv.
  destruct profile_spaceless as [Hp1 Hp2].
  assert (Hne' : strip s <> []) by (rewrite <- Hv; exact Hne).
  destruct (validate_accepts (strip s) Hne') as [Hacc _].
  - rewrite (contains_strip _ s Hp1 Hp2). exact Hin.
  - intros d Hd. destruct (disallowed_spaceless d Hd) as [H1 H2].
    rewrite (contains_strip _ s H1 H2). apply Hdis. exact Hd.
  - rewrite Hacc. apply strip_idem.
Qed.

Lemma dict_set_same_value (k : str) (v : json) (d : dict) :
  dict_get k d = Some v -> dict_set k v d = d.
Proof.
  induction d as [| [k0 v0] d IH]; simpl; [discriminate |].
  destruct (str_eqb k k0) eqn:E.
  - intros [= ->]. reflexivity.
  - intros H. rewrite (IH H). reflexivity.
Qed.

Lemma normalize_contact_fixed (domain company_name : str) (d : dict) (u : str) :
  dict_get (lit "domain") d = Some (JStr domain) ->
  dict_get (lit "company_name") d = Some (JStr company_name) ->
  dict_get (lit "linkedin_url") d = Some (JStr u) ->
  _validate_linkedin_url (JStr u) = u ->
  is_some (dict_get (lit "generic_email") d) = true ->
  normalize_contact domain company_name (JObj d) = Ok (JObj d).
Proof.
  intros Hd Hn Hu Hv Hg.
  assert (Hrun : normalize_contact domain company_name (JObj d)
                 = let d1 := dict_set (lit "domain") (JStr domain) d in
                   let d2 := dict_set (lit "company_name") (JStr company_name) d1 in
                   let d3 := dict_set (lit "linkedin_url")
                               (JStr (_validate_linkedin_url
                                        (match dict_get (lit "linkedin_url") d2 with
                                         | Some x => x
                                         | None => JStr []
                                         end))) d2 in
                   if negb (is_some (dict_get (lit "generic_email") d3))
                   then Ok (JObj (dict_set (lit "generic_email") (JStr []) d3))
                   else Ok (JObj d3)) by reflexivity.
  rewrite Hrun. cbv zeta.
  rewrite (dict_set_same_value _ _ _ Hd), (dict_set_same_value _ _ _ Hn), Hu, Hv.
  rewrite (dict_set_same_value _ _ _ Hu), Hg. reflexivity.
Qed.

(** What holds of a contact once normalized for a company. *)
Lemma normalized_contact (domain company_name : str) (c c' : json) :
  normalize_contact domain company_name c = Ok c' ->
  exists (d : dict) (u : str),
    c' = JObj d /\
    dict_get (lit "domain") d = Some (JStr domain) /\
    dict_get (lit "company_name") d = Some (JStr company_name) /\
    dict_get (lit "linkedin_url") d = Some (JStr u) /\
    _validate_linkedin_url (JStr u) = u /\
    is_some (dict_get (lit "generic_email") d) = true.
Proof.
  intros H. destruct c as [| | | | | | d0]; try discriminate.
  destruct (normalize_contact_dict domain company_name d0)
    as (d & E & Hd & Hn & Hu & Hg & _).
  rewrite E in H. injection H as <-.
  eexists. eexists. split; [reflexivity |]. split; [exact Hd |].
  split; [exact Hn |]. split; [exact Hu |]. split; [apply validate_idem |].
  rewrite Hg. reflexivity.
Qed.

Context {RT : Runtime}.

Lemma gather_batch_inv (envs : nat -> company_env) (companies : list Company)
    (j0 : nat) (rs : list (list json)) (r : list json) :
  gather (batch_tasks envs j0 companies) = Ok rs -> In r rs ->
  exists j c,
    nth_error companies j = Some c /\
    process_company (envs (j0 + j)) (Domain c) (Company_Name c) = Ok r.
Proof.
  revert j0 rs. induction companies as [| c cs IH]; intros j0 rs; simpl.
  - intros [= <-] [].
  - destruct (process_company (envs j0) (Domain c) (Company_Name c)) as [a | e] eqn:E;
      cbn [bind]; [| discriminate].
    destruct (gather (batch_tasks envs (S j0) cs)) as [rs' | e] eqn:Eg;
      cbn [bind]; [| discriminate].
    intros [= <-] [<- | Hr].
    + exists 0, c. rewrite Nat.add_0_r. split; [reflexivity | exact E].
    + destruct (IH (S j0) rs' Eg Hr) as (j & c' & Hj & Hc).
      exists (S j), c'. replace (j0 + S j) with (S j0 + j) by lia.
      split; [exact Hj | exact Hc].
Qed.

Lemma process_batch_inv (envs : nat -> company_env) (companies : list Company)
    (out : list json) (x : json) :
  process_batch envs companies = Ok out -> In x out ->
  exists j c r,
    nth_error companies j = Some c /\
    process_company (envs j) (Domain c) (Company_Name c) = Ok r /\ In x r.
Proof.
  unfold process_batch.
  destruct (gather (batch_tasks envs 0 companies)) as [rs | e] eqn:E;
    cbn [bind]; [| discriminate].
  intros [= <-] Hx. rewrite flatten_concat in Hx. simpl in Hx.
  apply in_concat in Hx. destruct Hx as (r & Hr & Hxr).
  destruct (gather_batch_inv envs companies 0 rs r E Hr) as (j & c & Hj & Hc).
  exists j, c, r. repeat split; assumption.
Qed.

Lemma run_batches_inv (bs : nat) (env : nat -> company_env) (df : list Company)
    (starts : list nat) (acc : list json) (log log' : list event)
    (out : list json) (x : json) :
  run_batches bs env df starts acc log = (log', Ok out) -> In x out ->
  In x acc \/
  exists i r,
    In i starts /\
    process_batch (fun j => env (i + j)) (slice df i (i + bs)) = Ok r /\ In x r.
Proof.
  revert acc log. induction starts as [| i rest IH]; intros acc log; simpl.
  - intros [= _ <-] Hx. left. exact Hx.
  - destruct (process_batch (fun j => env (i + j)) (slice df i (i + bs)))
      as [r | e] eqn:E; [| discriminate].
    intros H Hx. destruct (IH _ _ H Hx) as [Hacc | (i' & r' & Hi & Hb & Hr)].
    + apply in_app_or in Hacc. destruct Hacc as [Hacc | Hr]; [left; exact Hacc |].
      right. exists i, r. split; [left; reflexivity |]. split; assumption.
    + right. exists i', r'. split; [right; exact Hi |]. split; assumption.
Qed.

Lemma process_company_normalized (env : company_env) (domain company_name : str)
    (out : list json) (x : json) :
  process_company env domain company_name = Ok out -> In x out ->
  exists c, normalize_contact domain company_name c = Ok x.
Proof.
  unfold process_company.
  destruct (company_queries domain company_name) as [queries | e]; [| discriminate].
  cbn [bind].
  destruct (format_search_results (search_all env 0 queries)) as [summary | e];
    [| discriminate].
  cbn [bind]. intros H Hx.
  pose proof (normalize_contacts_each domain company_name _ out H) as HF.
  clear H. induction HF as [| c c' cs cs' Hc _ IH]; [destruct Hx |].
  destruct Hx as [<- | Hx]; [exists c; exact Hc | apply IH; exact Hx].
Qed.

(** Every contact of a run that returns was normalized for a company of
    the table. *)
Lemma run_output_normalized (env : nat -> company_env) (df : list Company)
    (out : list json) (x : json) :
  snd (run env df) = Ok out -> In x out ->
  exists row company c,
    nth_error df row = Some company /\
    normalize_contact (Domain company) (Company_Name company) c = Ok x.
Proof.
  intros H Hx. destruct (run_ok_inv env df out H) as [log' E].
  destruct (run_batches_inv _ _ _ _ _ _ _ _ x E Hx) as [[] | (i & r & _ & Hb & Hr)].
  destruct (process_batch_inv _ _ _ x Hb Hr) as (j & company & r' & Hj & Hc & Hxr).
  destruct (process_company_normalized _ _ _ _ x Hc Hxr) as [c Hn].
  exists (i + j), company, c. split; [| exact Hn].
  apply (nth_error_slice _ df i batch_size j company Hj).
Qed.

End OutputFacts.

(** ** X10 *)

(** X10. Validation and normalization are idempotent: the LinkedIn
    predicate returns what it returned when given that again, and a
    contact normalized for a company is left as it is by a second
    normalization for the same company. *)
Theorem normalizing_twice_changes_nothing :
  (forall url : json,
      _validate_linkedin_url (JStr (_validate_linkedin_url url))
      = _validate_linkedin_url url) /\
  (forall (domain company_name : str) (c c' : json),
      normalize_contact domain company_name c = Ok c' ->
      normalize_contact domain company_name c' = Ok c').
Proof.
  split; [exact validate_idem |].
  intros domain company_name c c' H.
  destruct (normalized_contact domain company_name c c' H)
    as (d & u & -> & Hd & Hn & Hu & Hv & Hg).
  apply (normalize_contact_fixed domain company_name d u); assumption.
Qed.

(** The record of Clint Dorman with a profile URL between spaces. *)
Lemma normalizing_twice_witness :
  exists c',
    normalize_contact (lit "acme.com") (lit "Acme")
      (JObj [ (lit "first_name", JStr (lit "Clint"));
              (lit "linkedin_url", JStr (lit " https://www.linkedin.com/in/clint ")) ])
    = Ok c' /\
    normalize_contact (lit "acme.com") (lit "Acme") c' = Ok c'.
Proof.
  eexists. split; [reflexivity |].
  apply (proj2 normalizing_twice_changes_nothing (lit "acme.com") (lit "Acme")
           (JObj [ (lit "first_name", JStr (lit "Clint"));
                   (lit "linkedin_url",
                    JStr (lit " https://www.linkedin.com/in/clint ")) ])).
  reflexivity.
Defined.

(** ** X11 *)

(** X11. Every contact a run returns is a record that carries the
    domain and the company name of a company of the table, a
    linkedin_url that is a string, empty or holding "linkedin.com/in/"
    and none of the rejected path segments, and a generic_email. *)
Theorem every_contact_belongs_to_a_company :
  forall (RT : Runtime) (env : nat -> company_env) (df : list Company)
         (out : list json) (x : json),
    snd (run env df) = Ok out -> In x out ->
    exists (row : nat) (company : Company) (d : dict) (u : str),
      nth_error df row = Some company /\
      x = JObj d /\
      dict_get (lit "domain") d = Some (JStr (Domain company)) /\
      dict_get (lit "company_name") d = Some (JStr (Company_Name company)) /\
      dict_get (lit "linkedin_url") d = Some (JStr u) /\
      (u = [] \/
       contains (lit "linkedin.com/in/") u = true /\
       forall bad, In bad disallowed -> contains bad u = false) /\
      is_some (dict_get (lit "generic_email") d) = true.
Proof.
  intros RT env df out x H Hx.
  destruct (run_output_normalized env df out x H Hx) as (row & company & c & Hrow & Hn).
  destruct (normalized_contact _ _ c x Hn) as (d & u & -> & Hd & Hname & Hu & Hv & Hg).
  exists row, company, d, u. repeat split; try assumption.
  destruct u as [| c0 t]; [left; reflexivity | right].
  assert (Hne : _validate_linkedin_url (JStr (c0 :: t)) <> []) by (rewrite Hv; discriminate).
  destruct (validate_inv _ Hne) as (s & [= <-] & _ & Hin & Hdis & _).
  split; assumption.
Qed.

(** The table of one company whose model replies one contact. *)
Lemma every_contact_witness :
  exists out x,
    snd (@run reference_runtime (fun _ => Samples.answering Samples.one_contact)
           [Samples.globex]) = Ok out /\
    In x out /\
    exists (row : nat) (company : Company) (d : dict),
      nth_error [Samples.globex] row = Some company /\ x = JObj d /\
      dict_get (lit "domain") d = Some (JStr (Domain company)).
Proof.
  eexists. eexists. split; [vm_compute; reflexivity |].
  split; [left; reflexivity |].
  destruct (every_contact_belongs_to_a_company reference_runtime
              (fun _ => Samples.answering Samples.one_contact) [Samples.globex]
              _ _ eq_refl (or_introl eq_refl))
    as (row & company & d & u & Hrow & Hx & Hd & _).
  exists row, company, d. repeat split; assumption.
Defined.

(* ================================================================== *)
(** * Where contacts come from, and where a run stops *)
(* ================================================================== *)

Section PipelineFacts.

Context {RT : Runtime}.

(** A message content that is not a string gives no contact: every path
    through the fence removal and the decoding raises something other
    than a decoding error, or finds no string to decode. *)
Lemma parse_contacts_not_str (content : json) :
  (forall s, content <> JStr s) ->
  exists e, parse_contacts content = Raise e.
Proof.
  intros H. unfold parse_contacts, parse_contacts_try, strip_fence.
  destruct content as [| b | z | t | s | l | d];
    try (eexists; reflexivity).
  - exfalso. apply (H s). reflexivity.
  - cbn [py_in bind].
    destruct (existsb _ l); cbn [py_split bind]; [eexists; reflexivity |].
    destruct (existsb _ l); cbn [py_split bind loads]; eexists; reflexivity.
  - cbn [py_in bind].
    destruct (is_some (dict_get fence_json d)); cbn [py_split bind];
      [eexists; reflexivity |].
    destruct (is_some (dict_get fence d)); cbn [py_split bind loads];
      eexists; reflexivity.
Qed.

Lemma parse_contacts_str (content : str) (contacts : list json) :
  parse_contacts (JStr content) = Ok contacts -> contacts <> [] ->
  exists payload,
    strip_fence (JStr content) = Ok (JStr payload) /\
    json_loads payload = Ok (JArr contacts).
Proof.
  destruct (strip_fence_str content) as (payload & Hp & _).
  unfold parse_contacts, parse_contacts_try. rewrite Hp. cbn [bind loads].
  intros H Hne. exists payload. split; [reflexivity |].
  destruct (json_loads payload) as [[| | | | | l |] | []]; cbn [bind] in H;
    try discriminate; injection H as H; try congruence.
Qed.

(** The section of a result whose first four hits are objects. *)
Lemma format_section_first_four (d : dict) (hits : list json) :
  match dict_get (lit "searchParameters") d with
  | None | Some (JObj _) => True
  | Some _ => False
  end ->
  dict_get (lit "organic") d = Some (JArr hits) ->
  forallb is_dict (firstn 4 hits) = true ->
  format_section (JObj d)
  = Ok (header ++ to_text (query_of (JObj d)) ++ nl ++ nl
          ++ join result_separator
               (List.map hit_text (filter complete_hit (firstn 4 hits)))).
Proof.
  intros Hp Ho H4. unfold format_section, query_of. cbn [py_get bind].
  rewrite Ho. cbn [py_slice_items bind].
  destruct (dict_get (lit "searchParameters") d) as [[| | | | | | params] |];
    try contradiction; cbn [py_get bind];
    rewrite (format_items_dicts (firstn 4 hits) [] H4); reflexivity.
Qed.

End PipelineFacts.

(** ** X12 *)

(** X12. [extract_all_contacts] returns contacts only from a response
    with status 200 whose body has a string at choices[0].message.content
    and whose payload, once the fence is removed, decodes to an array:
    the contacts are then the elements of that array.  Any other outcome
    of the call gives the empty list. *)
Theorem contacts_only_from_a_decoded_array :
  forall (RT : Runtime) (o : http_outcome),
    extract_all_contacts o <> [] ->
    exists (data : json) (content payload : str),
      o = Responded 200 (Ok data) /\
      (choices <- py_getitem data (lit "choices") ;;
       choice <- py_first choices ;;
       message <- py_getitem choice (lit "message") ;;
       py_getitem message (lit "content")) = Ok (JStr content) /\
      strip_fence (JStr content) = Ok (JStr payload) /\
      json_loads payload = Ok (JArr (extract_all_contacts o)).
Proof.
  intros RT o. unfold extract_all_contacts, extract_all_contacts_try.
  destruct o as [| status body]; [intros H; exfalso; apply H; reflexivity |].
  destruct (Z.eqb_spec status 200) as [-> | Hst];
    [| intros H; exfalso; apply H; reflexivity].
  destruct body as [data | e]; [| intros H; exfalso; apply H; reflexivity].
  cbn [bind].
  destruct (py_getitem data (lit "choices")) as [choices | e] eqn:E1;
    [| intros H; exfalso; apply H; reflexivity].
  cbn [bind].
  destruct (py_first choices) as [choice | e] eqn:E2;
    [| intros H; exfalso; apply H; reflexivity].
  cbn [bind].
  destruct (py_getitem choice (lit "message")) as [message | e] eqn:E3;
    [| intros H; exfalso; apply H; reflexivity].
  cbn [bind].
  destruct (py_getitem message (lit "content")) as [content | e] eqn:E4;
    [| intros H; exfalso; apply H; reflexivity].
  cbn [bind].
  assert (Hstr : (exists s, content = JStr s) \/ (forall s, content <> JStr s)).
  { destruct content; try (right; intros s0; discriminate).
    left. eexists. reflexivity. }
  destruct Hstr as [[s ->] | Hnot].
  - destruct (parse_contacts (JStr s)) as [contacts | e] eqn:E;
      [| intros H; exfalso; apply H; reflexivity].
    intros Hne. destruct (parse_contacts_str s contacts E Hne) as (payload & Hp & Hl).
    exists data, s, payload.
    split; [reflexivity |]. split; [| split; [exact Hp | exact Hl]].
    rewrite E1. cbn [bind]. rewrite E2. cbn [bind]. rewrite E3. cbn [bind].
    exact E4.
  - destruct (parse_contacts_not_str content Hnot) as [e ->].
    intros H. exfalso. apply H. reflexivity.
Qed.

(** A completion whose text is an array of one contact. *)
Lemma contacts_only_witness :
  @extract_all_contacts reference_runtime (llm_reply Samples.one_contact) <> [] /\
  exists (data : json) (content payload : str),
    llm_reply Samples.one_contact = Responded 200 (Ok data) /\
    strip_fence (JStr content) = Ok (JStr payload) /\
    @json_loads reference_runtime payload
    = Ok (JArr (@extract_all_contacts reference_runtime
                  (llm_reply Samples.one_contact))).
Proof.
  assert (H : @extract_all_contacts reference_runtime
                (llm_reply Samples.one_contact) <> [])
    by (vm_compute; discriminate).
  split; [exact H |].
  destruct (contacts_only_from_a_decoded_array reference_runtime _ H)
    as (data & content & payload & Ho & _ & Hp & Hl).
  exists data, content, payload. repeat split; assumption.
Defined.

(** ** X13 *)

(** X13. When the batches before one complete and that one raises, the
    run raises the same exception: it has printed the two lines of each
    batch before and the first line of the one that raised, the batches
    after it are not started, and the contacts found by the batches
    before are not returned. *)
Theorem a_failing_batch_loses_the_batches_before :
  forall (RT : Runtime) (env : nat -> company_env) (df : list Company)
         (g : nat -> list json) (before after : list nat) (i : nat) (e : exn),
    py_range 0 (length df) batch_size = before ++ i :: after ->
    (forall j, In j before ->
       process_batch (fun k => env (j + k)) (slice df j (j + batch_size)) = Ok (g j)) ->
    process_batch (fun k => env (i + k)) (slice df i (i + batch_size)) = Raise e ->
    run env df
    = (concat (List.map
                 (fun j => [ Processing_batch (j / 14 + 1) ((length df + 13) / 14);
                             Batch_complete (j / 14 + 1) (length (g j)) ])
                 before)
         ++ [Processing_batch (i / 14 + 1) ((length df + 13) / 14)],
       Raise e).
Proof.
  intros RT env df g before after i e Hr Hb He. unfold run. rewrite Hr.
  rewrite (run_batches_stops batch_size env df g before after i e [] [] Hb He).
  unfold batch_lines, batch_size.
  replace (length df + 14 - 1) with (length df + 13) by lia. reflexivity.
Qed.

(** Fifteen companies, the last one with a reply that is an array of
    text: the fourteen contacts of the first batch are lost. *)
Lemma failing_batch_witness :
  @run reference_runtime
    (fun row => if row =? 14 then Samples.answering Samples.array_of_text
                else Samples.answering Samples.one_contact)
    Samples.fifteen
  = ([Processing_batch 1 2; Batch_complete 1 14; Processing_batch 2 2],
     Raise TypeError).
Proof.
  pose proof (a_failing_batch_loses_the_batches_before reference_runtime
                (fun row => if row =? 14 then Samples.answering Samples.array_of_text
                            else Samples.answering Samples.one_contact)
                Samples.fifteen
                (fun j => match @process_batch reference_runtime
                                  (fun k => Samples.answering Samples.one_contact)
                                  (slice Samples.fifteen j (j + batch_size)) with
                          | Ok r => r
                          | Raise _ => []
                          end)
                [0] [] 14 TypeError eq_refl) as H.
  rewrite H.
  - vm_compute. reflexivity.
  - intros j [<- | []]. vm_compute. reflexivity.
  - vm_compute. reflexivity.
Defined.

(* ================================================================== *)
(** * The file written and the runs that complete *)
(* ================================================================== *)

Section SavingFacts.





Context {RT : Runtime}.

(** A company completes when the searches come back failed or as
    SearchResults and the array of the model holds objects. *)
Lemma shaped_search (o : http_outcome) (q : str) :
  call_failed o \/
  (exists body, o = Responded 200 (Ok body) /\ is_search_result body = true) ->
  is_search_result (search_serper o q) = true.
Proof.
  intros [H | (body & -> & Hb)].
  - rewrite (search_serper_failed o q H). reflexivity.
  - exact Hb.
Qed.

End SavingFacts.

(** ** X14 *)



(** ** X15 *)

(** X15. The formatter looks at the first four hits of a result only: a
    result that is an object, with search parameters absent or an
    object, and whose first four hits are objects, gives its section
    whatever the hits after the fourth are, and the section is the same
    as that of the result cut to its first four hits. *)
Theorem formatter_reads_four_hits_only :
  forall (RT : Runtime) (d : dict) (hits : list json),
    match dict_get (lit "searchParameters") d with
    | None | Some (JObj _) => True
    | Some _ => False
    end ->
    dict_get (lit "organic") d = Some (JArr hits) ->
    forallb is_dict (firstn 4 hits) = true ->
    format_section (JObj d)
    = Ok (lit "**Search Query:** " ++ to_text (query_of (JObj d)) ++ nl ++ nl
            ++ join (nl ++ lit "---" ++ nl)
                 (List.map hit_text (filter complete_hit (firstn 4 hits)))) /\
    format_section (JObj (dict_set (lit "organic") (JArr (firstn 4 hits)) d))
    = format_section (JObj d).
Proof.
  intros RT d hits Hp Ho H4.
  rewrite (format_section_first_four d hits Hp Ho H4).
  split; [reflexivity |].
  rewrite (format_section_first_four
             (dict_set (lit "organic") (JArr (firstn 4 hits)) d) (firstn 4 hits)).
  - unfold query_of.
    rewrite (dict_get_set_other (lit "organic") (lit "searchParameters"))
      by discriminate.
    rewrite firstn_firstn. reflexivity.
  - rewrite (dict_get_set_other (lit "organic") (lit "searchParameters"))
      by discriminate.
    exact Hp.
  - apply dict_get_set_same.
  - rewrite firstn_firstn. exact H4.
Qed.

(** Four hits that are objects and a fifth that is a number. *)
Lemma formatter_four_hits_witness :
  exists text,
    @format_section reference_runtime
      (JObj [ (lit "organic",
               JArr [ Samples.hit "A" "https://a.example" "first";
                      Samples.hit "B" "https://b.example" "second";
                      Samples.hit "C" "https://c.example" "third";
                      Samples.hit "D" "https://d.example" "fourth";
                      JInt 5 ]) ]) = Ok text.
Proof.
  eexists.
  apply (proj1 (formatter_reads_four_hits_only reference_runtime
                  [ (lit "organic",
                     JArr [ Samples.hit "A" "https://a.example" "first";
                            Samples.hit "B" "https://b.example" "second";
                            Samples.hit "C" "https://c.example" "third";
                            Samples.hit "D" "https://d.example" "fourth";
                            JInt 5 ]) ]
                  _ I eq_refl eq_refl)).
Defined.

(** ** X16 *)

(** X16. Whenever each search call fails (transport error, status other
    than 200, unreadable body) or answers 200 with a SearchResult, and
    each array the model replies holds objects only, every company
    completes and the loop of a run gets through all its batches: failed
    calls, replies that do not decode and replies that are not arrays
    cost the contacts of their company and nothing else.  The run then
    has the contacts of every company in the order of the table; with
    no contact it writes nothing and returns the empty list, otherwise
    it writes the table of the contacts, returns them when the write
    returns and raises what the write raises. *)
Theorem run_completes_with_shaped_replies :
  forall (RT : Runtime) (env : nat -> company_env) (df : list Company),
    (forall row i q,
        call_failed (serper (env row) i q) \/
        exists body, serper (env row) i q = Responded 200 (Ok body) /\
                     is_search_result body = true) ->
    (forall row summary,
        Forall (fun c => exists d, c = JObj d)
               (extract_all_contacts (openrouter (env row) summary))) ->
    exists (contacts_of : nat -> list json),
      (forall row company,
          nth_error df row = Some company ->
          process_company (env row) (Domain company) (Company_Name company)
          = Ok (contacts_of row)) /\
      snd (run env df)
      = match saved_csv (concat (List.map contacts_of (seq 0 (length df)))) with
        | None => Ok []
        | Some results_csv =>
            match to_csv results_csv with
            | Ok _ => Ok (concat (List.map contacts_of (seq 0 (length df))))
            | Raise e => Raise e
            end
        end /\
      (saved_csv (concat (List.map contacts_of (seq 0 (length df)))) = None <->
       concat (List.map contacts_of (seq 0 (length df))) = []).
Proof.
  intros RT env df Hs Hc.
  assert (Hall : forall row company,
             exists out,
               process_company (env row) (Domain company) (Company_Name company)
               = Ok out).
  { intros row company. apply process_company_completes.
    - intros k q. apply shaped_search. apply Hs.
    - apply Hc. }
  exists (fun row =>
            match nth_error df row with
            | Some company =>
                match process_company (env row) (Domain company) (Company_Name company) with
                | Ok out => out
                | Raise _ => []
                end
            | None => []
            end).
  assert (Hrows : forall row company,
             nth_error df row = Some company ->
             process_company (env row) (Domain company) (Company_Name company)
             = Ok match nth_error df row with
                  | Some company =>
                      match process_company (env row) (Domain company)
                              (Company_Name company) with
                      | Ok out => out
                      | Raise _ => []
                      end
                  | None => []
                  end).
  { intros row company Hrow. rewrite Hrow.
    destruct (Hall row company) as [out ->]. reflexivity. }
  split; [exact Hrows |].
  assert (Hbs : 0 < batch_size) by (unfold batch_size; lia).
  destruct (run_in_order batch_size env df _ Hbs Hrows) as [found Hrun].
  rewrite (run_of_loop env df _ _ Hrun). cbn [snd bind].
  generalize (concat (List.map
                        (fun row =>
                           match nth_error df row with
                           | Some company =>
                               match process_company (env row) (Domain company)
                                       (Company_Name company) with
                               | Ok out => out
                               | Raise _ => []
                               end
                           | None => []
                           end) (seq 0 (length df)))).
  intros [| c cs]; (split; [| split; [reflexivity || discriminate ..]]).
  - reflexivity.
  - unfold saved_csv. cbn [bind]. destruct (to_csv _); reflexivity.
Qed.

(** Two companies: every search fails, one reply is not JSON, the other
    holds one contact. *)
Lemma run_completes_witness :
  exists out,
    snd (@run reference_runtime
           (fun row => match row with
                       | O => Samples.answering (lit "I found no one.")
                       | _ => Samples.answering Samples.one_contact
                       end)
           [Samples.acme; Samples.globex]) = Ok out /\
    length out = 1.
Proof.
  destruct (run_completes_with_shaped_replies reference_runtime
              (fun row => match row with
                          | O => Samples.answering (lit "I found no one.")
                          | _ => Samples.answering Samples.one_contact
                          end)
              [Samples.acme; Samples.globex])
    as (contacts_of & _ & Hrun & _).
  - intros row i q. left. destruct row; exact I.
  - intros [| row] summary; vm_compute; repeat constructor. eexists. reflexivity.
  - eexists. split; [vm_compute; reflexivity | reflexivity].
Defined.

(* ================================================================== *)
(** * A company whose searches all fail, and the keys of a contact *)
(* ================================================================== *)

Section CompanyFacts.

Context {RT : Runtime}.

Lemma search_all_failed (env : company_env) (i : nat) (queries : list str) :
  (forall k q, call_failed (serper env k q)) ->
  search_all env i queries = List.map empty_search queries.
Proof.
  intros H. revert i. induction queries as [| q qs IH]; intros i; simpl.
  - reflexivity.
  - rewrite (search_serper_failed _ q (H i q)), (IH (S i)). reflexivity.
Qed.

Lemma empty_searches_format (queries : list str) :
  format_search_results (List.map empty_search queries)
  = Ok (join section_separator
          (List.map (fun q => header ++ q ++ nl ++ nl) queries)).
Proof.
  rewrite format_search_results_blocks.
  - rewrite map_map. reflexivity.
  - induction queries as [| q qs IH]; [reflexivity |]. simpl forallb.
    rewrite IH. reflexivity.
Qed.

Lemma keys_after_set (k : str) (v : json) (d : dict) :
  List.map fst (dict_set k v d)
  = List.map fst d ++ (if is_some (dict_get k d) then [] else [k]).
Proof.
  rewrite dict_set_keys. destruct (is_some (dict_get k d));
    [rewrite app_nil_r |]; reflexivity.
Qed.

Lemma is_some_after_set (k k' : str) (v : json) (d : dict) :
  k <> k' ->
  is_some (dict_get k' (dict_set k v d)) = is_some (dict_get k' d).
Proof. intros H. rewrite (dict_get_set_other k k' v d H). reflexivity. Qed.

End CompanyFacts.

(** ** X17 *)

(** X17. When the five searches of a company all fail, the company is
    not given up: the model is still called, on a summary made of the
    five headers with the five queries and no hit, and the company
    returns what the normalization makes of the model's reply. *)
Theorem model_is_called_on_an_empty_summary :
  forall (RT : Runtime) (env : company_env) (domain company_name : str),
    (forall i q, call_failed (serper env i q)) ->
    process_company env domain company_name
    = normalize_contacts domain company_name
        (extract_all_contacts
           (openrouter env
              (join (nl ++ nl ++ nl)
                 (List.map
                    (fun words => lit "**Search Query:** " ++ domain ++ lit " "
                                    ++ company_name ++ words ++ nl ++ nl)
                    [ lit " CEO -zoominfo -dnb";
                      lit " Founder owner -zoominfo -dnb";
                      lit " president chairman -zoominfo -dnb";
                      lit " partner -zoominfo -dnb";
                      lit " contact email" ])))).
Proof.
  intros RT env domain company_name H. unfold process_company.
  assert (E : company_queries domain company_name
              = Ok (List.map (fun words => domain ++ lit " " ++ company_name ++ words)
                      [ lit " CEO -zoominfo -dnb";
                        lit " Founder owner -zoominfo -dnb";
                        lit " president chairman -zoominfo -dnb";
                        lit " partner -zoominfo -dnb";
                        lit " contact email" ])) by reflexivity.
  rewrite E. cbn [bind].
  rewrite (search_all_failed env 0 _ H), empty_searches_format. cbn [bind].
  rewrite map_map. f_equal. f_equal. f_equal. f_equal.
  apply map_ext. intros words. unfold header. rewrite <- !app_assoc. reflexivity.
Qed.

(** Every search of Acme fails; the model replies an empty array. *)
Lemma empty_summary_witness :
  (forall i q, call_failed (serper (Samples.answering (lit "[]")) i q)) /\
  @process_company reference_runtime (Samples.answering (lit "[]"))
    (lit "acme.com") (lit "Acme") = Ok [].
Proof.
  split; [intros i q; exact I |].
  rewrite (model_is_called_on_an_empty_summary reference_runtime
             (Samples.answering (lit "[]")) (lit "acme.com") (lit "Acme")
             (fun _ _ => I)).
  reflexivity.
Defined.

(** ** X18 *)

(** X18. Normalization drops no key and moves none: the keys of the
    normalized contact are the keys of the contact in their order,
    followed by those of domain, company_name, linkedin_url and
    generic_email that it lacked, in this order. *)
Theorem normalization_keeps_the_keys_in_place :
  forall (domain company_name : str) (d d' : dict),
    normalize_contact domain company_name (JObj d) = Ok (JObj d') ->
    List.map fst d'
    = List.map fst d
        ++ filter (fun k => negb (is_some (dict_get k d)))
             [ lit "domain"; lit "company_name"; lit "linkedin_url";
               lit "generic_email" ].
Proof.
  intros domain company_name d d'.
  assert (Hrun : normalize_contact domain company_name (JObj d)
                 = let d1 := dict_set (lit "domain") (JStr domain) d in
                   let d2 := dict_set (lit "company_name") (JStr company_name) d1 in
                   let d3 := dict_set (lit "linkedin_url")
                               (JStr (_validate_linkedin_url
                                        (match dict_get (lit "linkedin_url") d2 with
                                         | Some x => x
                                         | None => JStr []
                                         end))) d2 in
                   if negb (is_some (dict_get (lit "generic_email") d3))
                   then Ok (JObj (dict_set (lit "generic_email") (JStr []) d3))
                   else Ok (JObj d3)) by reflexivity.
  rewrite Hrun. cbv zeta.
  set (d1 := dict_set (lit "domain") (JStr domain) d).
  set (d2 := dict_set (lit "company_name") (JStr company_name) d1).
  set (v := JStr (_validate_linkedin_url
                    (match dict_get (lit "linkedin_url") d2 with
                     | Some x => x
                     | None => JStr []
                     end))).
  set (d3 := dict_set (lit "linkedin_url") v d2).
  assert (K1 : List.map fst d1
               = List.map fst d
                   ++ (if is_some (dict_get (lit "domain") d) then []
                       else [lit "domain"])) by apply keys_after_set.
  assert (K2 : List.map fst d2
               = List.map fst d1
                   ++ (if is_some (dict_get (lit "company_name") d) then []
                       else [lit "company_name"])).
  { unfold d2. rewrite keys_after_set. unfold d1.
    rewrite is_some_after_set by discriminate. reflexivity. }
  assert (K3 : List.map fst d3
               = List.map fst d2
                   ++ (if is_some (dict_get (lit "linkedin_url") d) then []
                       else [lit "linkedin_url"])).
  { unfold d3. rewrite keys_after_set. unfold d2, d1.
    rewrite !is_some_after_set by discriminate. reflexivity. }
  assert (G : is_some (dict_get (lit "generic_email") d3)
              = is_some (dict_get (lit "generic_email") d)).
  { unfold d3, d2, d1. rewrite !is_some_after_set by discriminate. reflexivity. }
  rewrite G. cbn [filter].
  destruct (is_some (dict_get (lit "generic_email") d)) eqn:E4; cbn [negb];
    intros [= <-];
    [| rewrite keys_after_set, G];
    rewrite K3, K2, K1;
    destruct (is_some (dict_get (lit "domain") d));
    destruct (is_some (dict_get (lit "company_name") d));
    destruct (is_some (dict_get (lit "linkedin_url") d));
    cbn [negb]; rewrite <- ?app_assoc; rewrite ?app_nil_r; reflexivity.
Qed.

(** A contact that has a linkedin_url and a key of its own. *)
Lemma normalization_keys_witness :
  exists d',
    normalize_contact (lit "acme.com") (lit "Acme")
      (JObj [ (lit "note", JStr (lit "met in 2019"));
              (lit "linkedin_url", JStr [])]) = Ok (JObj d') /\
    List.map fst d'
    = [ lit "note"; lit "linkedin_url"; lit "domain"; lit "company_name";
        lit "generic_email" ].
Proof.
  eexists. split; [reflexivity |].
  apply (normalization_keeps_the_keys_in_place (lit "acme.com") (lit "Acme")
           [ (lit "note", JStr (lit "met in 2019")); (lit "linkedin_url", JStr [])]).
  reflexivity.
Defined.
